(** * TurtleSoup: a shallow embedding of [main.py] (class [TurtleSoupPlugin])

    The plugin runs a lateral-thinking puzzle game.  This development
    embeds the question bank (parsing, lookup, random choice), the
    judge-reply normalisation, the fallback answer check and the
    per-session turn engine, and states the properties of the
    specification over them.

    Conventions of the embedding:
    - a Python [str] is the list of its code points ([pystr]); literals
      are written as UTF-8 text and decoded by [py];
    - a Python exception is a value [Raise e] of [result];
    - the dictionary [self.game_states] is a [gmap] from session keys to
      [GameState] records, threaded through the handlers inside [World]
      together with the messages sent and the timers of the session
      controllers;
    - what the plugin does not own (the reasoning service, the random
      source, the clock, [str.lower], [int]) is an explicit parameter;
    - a handler is one function from world to world, and the operations
      of [run] are handled one after the other.  The question handler
      awaits the reasoning service: [_handle_turtle_soup_question] is the
      handler when nothing else runs meanwhile, and
      [_handle_turtle_soup_question_raced] is the handler together with
      the handlers that end sessions while it is suspended, so that its
      tests [session_key not in self.game_states] after an await fail
      as they can in the code. *)

From Stdlib Require Import ZArith NArith Strings.String Strings.Byte Bool Lia.
From stdpp Require Import gmap list.

Local Open Scope N_scope.

(** ** Python strings *)

Module PyStr.

Definition pystr := list N.

(** UTF-8 decoding of a literal, one code point per 1-4 byte sequence
    (well-formed input is assumed: the literals of this file). *)
Fixpoint utf8_decode (fuel : nat) (bs : list N) : pystr :=
  match fuel with
  | O => []
  | S fuel =>
    match bs with
    | [] => []
    | b0 :: r =>
      if b0 <? 128 then b0 :: utf8_decode fuel r
      else if b0 <? 224 then
        match r with
        | b1 :: r => (b0 - 192) * 64 + (b1 - 128) :: utf8_decode fuel r
        | _ => []
        end
      else if b0 <? 240 then
        match r with
        | b1 :: b2 :: r =>
          (b0 - 224) * 4096 + (b1 - 128) * 64 + (b2 - 128) :: utf8_decode fuel r
        | _ => []
        end
      else
        match r with
        | b1 :: b2 :: b3 :: r =>
          (b0 - 240) * 262144 + (b1 - 128) * 4096 + (b2 - 128) * 64 + (b3 - 128)
            :: utf8_decode fuel r
        | _ => []
        end
    end
  end.

Definition py (s : string) : pystr :=
  let bs := map Byte.to_N (list_byte_of_string s) in
  utf8_decode (length bs) bs.

(** [bool(s)] for a string: the empty string is falsy. *)
Definition truthy (s : pystr) : bool :=
  match s with [] => false | _ => true end.

Definition str_eqb (a b : pystr) : bool := bool_decide (a = b).

(** [str.isspace] on one code point: the white-space set of CPython's
    [_PyUnicode_IsWhitespace]. *)
Definition isspace (c : N) : bool :=
  ((9 <=? c) && (c <=? 13)) || ((28 <=? c) && (c <=? 32))
  || (c =? 133) || (c =? 160) || (c =? 5760)
  || ((8192 <=? c) && (c <=? 8202))
  || (c =? 8232) || (c =? 8233) || (c =? 8239) || (c =? 8287) || (c =? 12288).

Fixpoint drop_while (p : N -> bool) (s : pystr) : pystr :=
  match s with
  | [] => []
  | c :: r => if p c then drop_while p r else s
  end.

Fixpoint take_while (p : N -> bool) (s : pystr) : pystr :=
  match s with
  | [] => []
  | c :: r => if p c then c :: take_while p r else []
  end.

Definition str_lstrip (s : pystr) : pystr := drop_while isspace s.
Definition str_rstrip (s : pystr) : pystr := rev (drop_while isspace (rev s)).
(** [s.strip()] *)
Definition str_strip (s : pystr) : pystr := str_rstrip (str_lstrip s).

(** [s.startswith(prefix)] *)
Fixpoint str_startswith (s prefix : pystr) : bool :=
  match prefix, s with
  | [], _ => true
  | _ :: _, [] => false
  | a :: p', b :: s' => (a =? b) && str_startswith s' p'
  end.

(** [sub in s] *)
Fixpoint str_in (sub s : pystr) : bool :=
  str_startswith s sub ||
  match s with
  | [] => false
  | _ :: r => str_in sub r
  end.

(** [any(word in s for word in words)] *)
Definition any_in (words : list pystr) (s : pystr) : bool :=
  existsb (fun word => str_in word s) words.

(** [s.split(sep, maxsplit)] for a non-empty separator; [maxsplit = None]
    is Python's default (no limit).  [skip] counts the characters of a
    matched separator still to be passed over. *)
Fixpoint split_go (sep : pystr) (maxsplit : option nat) (cur s : pystr)
    (skip : nat) : list pystr :=
  match s with
  | [] => [rev cur]
  | c :: r =>
    match skip with
    | S k => split_go sep maxsplit cur r k
    | O =>
      match maxsplit with
      | Some O => split_go sep maxsplit (c :: cur) r 0
      | _ =>
        if str_startswith s sep
        then rev cur :: split_go sep (pred <$> maxsplit) [] r (length sep - 1)
        else split_go sep maxsplit (c :: cur) r 0
      end
    end
  end.

Definition str_split (sep : pystr) (maxsplit : option nat) (s : pystr) : list pystr :=
  split_go sep maxsplit [] s 0.

(** [s.split(maxsplit=n)] on white space, after CPython's
    [split_whitespace]: [n] tokens, then the remainder without its
    leading white space. *)
Fixpoint split_ws_go (n : nat) (s : pystr) : list pystr :=
  match n with
  | O => match str_lstrip s with [] => [] | r => [r] end
  | S n =>
    match str_lstrip s with
    | [] => []
    | s1 =>
      take_while (fun c => negb (isspace c)) s1
        :: split_ws_go n (drop_while (fun c => negb (isspace c)) s1)
    end
  end.

(** [s.split()] and [s.split(maxsplit=n)] *)
Definition str_split_ws (maxsplit : option nat) (s : pystr) : list pystr :=
  split_ws_go (default (length s) maxsplit) s.

(** [s.zfill(width)]: zeros on the left, after a leading sign. *)
Definition str_zfill (width : nat) (s : pystr) : pystr :=
  let fill := (width - length s)%nat in
  match fill with
  | O => s
  | _ =>
    match s with
    | c :: r =>
      if (c =? 43) || (c =? 45) then c :: repeat 48 fill ++ r
      else repeat 48 fill ++ s
    | [] => repeat 48 fill
    end
  end.

(** Iterating over a string ([for word in s]) yields its characters as
    strings of length one. *)
Definition str_iter (s : pystr) : list pystr := map (fun c => [c]) s.

End PyStr.
Export PyStr.

(** ** Exceptions *)

Inductive exn := ValueError | KeyError | IndexError | FileNotFoundError | OtherError.

Inductive result (A : Type) :=
| Ok (a : A)
| Raise (e : exn).
Arguments Ok {A} a.
Arguments Raise {A} e.

Definition rbind {A B} (m : result A) (k : A -> result B) : result B :=
  match m with
  | Ok a => k a
  | Raise e => Raise e
  end.

(** [l[i]] *)
Definition list_index {A} (l : list A) (i : nat) : result A :=
  match l !! i with
  | Some a => Ok a
  | None => Raise IndexError
  end.

(** The builtins whose tables belong to the interpreter: [str.lower]
    (Unicode case mapping) and [int(s)] on a string ([None] stands for
    its [ValueError]). *)
Class Builtins := {
  str_lower : pystr -> pystr;
  py_int : pystr -> option Z
}.


(** An ASCII instance, used to evaluate the model on concrete inputs:
    [lower] maps A-Z to a-z, [int] reads an optional sign and decimal
    digits (single underscores allowed between digits) surrounded by
    white space.  CPython agrees with it on ASCII text of fewer than
    4300 digits. *)
Definition ascii_lower (s : pystr) : pystr :=
  map (fun c => if (65 <=? c) && (c <=? 90) then c + 32 else c) s.

Fixpoint ascii_digits (s : pystr) (acc : Z) (after_digit : bool) : option Z :=
  match s with
  | [] => if after_digit then Some acc else None
  | c :: r =>
    if (48 <=? c) && (c <=? 57)
    then ascii_digits r (10 * acc + Z.of_N (c - 48))%Z true
    else if (c =? 95) && after_digit
    then match r with
         | d :: _ => if (48 <=? d) && (d <=? 57) then ascii_digits r acc false else None
         | [] => None
         end
    else None
  end.

Definition ascii_int (s : pystr) : option Z :=
  match str_strip s with
  | c :: r =>
    if c =? 45 then Z.opp <$> ascii_digits r 0%Z false
    else if c =? 43 then ascii_digits r 0%Z false
    else ascii_digits (c :: r) 0%Z false
  | [] => None
  end.

Definition ascii_builtins : Builtins :=
  {| str_lower := ascii_lower; py_int := ascii_int |}.

(** ** QuestionBank *)

(** The [metadata] dictionary of a record: keys [id], [title],
    [difficulty], [tags]. *)
Record Metadata := {
  md_id : pystr;
  md_title : pystr;
  md_difficulty : Z;
  md_tags : list pystr
}.

(** A record of the bank: the tuple [(question, answer, metadata)]. *)
Definition question_t : Type := pystr * pystr * Metadata.

(** What the parser writes to the logger. *)
Inductive log_record :=
| WarnParseQuestion (e : exn)      (* logger.warning: a block failed in the try *)
| ErrBankFileNotFound              (* logger.error: file not found *)
| ErrBankRead (e : exn)            (* logger.error: any other exception *)
| WarnBankEmpty.                   (* logger.warning: no valid record *)

Definition key_ID : pystr := Eval vm_compute in py "ID".
Definition key_story : pystr := Eval vm_compute in py "汤面".
Definition key_solution : pystr := Eval vm_compute in py "汤底".
Definition key_title : pystr := Eval vm_compute in py "标题".
Definition key_difficulty : pystr := Eval vm_compute in py "难度".
Definition key_tags : pystr := Eval vm_compute in py "标签".

Definition str_colon : pystr := Eval vm_compute in py ":".
Definition str_hash : pystr := Eval vm_compute in py "#".
Definition str_comma : pystr := Eval vm_compute in py ",".
Definition str_newline : pystr := [10].
Definition str_delimiter : pystr := Eval vm_compute in py "---".
Definition default_difficulty : pystr := Eval vm_compute in py "3".

(** [d[k]] on a dictionary *)
Definition dict_index {V} (d : gmap pystr V) (k : pystr) : result V :=
  match d !! k with
  | Some v => Ok v
  | None => Raise KeyError
  end.

(** [d.get(k, dflt)] *)
Definition dict_get {V} (d : gmap pystr V) (k : pystr) (dflt : V) : V :=
  default dflt (d !! k).

(** [k in d] *)
Definition dict_has {V} (d : gmap pystr V) (k : pystr) : bool :=
  bool_decide (is_Some (d !! k)).

Section QuestionBank.
Context `{Builtins}.

(** One iteration of [for line in lines] in [_parse_question_block]. *)
Definition parse_line (question_info : gmap pystr pystr) (line0 : pystr)
    : result (gmap pystr pystr) :=
  let line := str_strip line0 in
  if str_in str_colon line && negb (str_startswith line str_hash) then
    match str_split str_colon (Some 1%nat) line with
    | [key; value] => Ok (<[str_strip key := str_strip value]> question_info)
    | _ => Raise ValueError          (* key, value = ... cannot unpack *)
    end
  else Ok question_info.

Fixpoint parse_lines (lines : list pystr) (question_info : gmap pystr pystr)
    : result (gmap pystr pystr) :=
  match lines with
  | [] => Ok question_info
  | line :: rest => rbind (parse_line question_info line) (parse_lines rest)
  end.

(** The [question_info] dictionary built from a block. *)
Definition question_info_of (block : pystr) : result (gmap pystr pystr) :=
  parse_lines (str_split str_newline None block) ∅.

(** [int(question_info.get('难度', '3'))] *)
Definition difficulty_of (question_info : gmap pystr pystr) : result Z :=
  match py_int (dict_get question_info key_difficulty default_difficulty) with
  | Some d => Ok d
  | None => Raise ValueError
  end.

(** [[tag.strip() for tag in s.split(',') if tag.strip()]] *)
Definition tags_of (s : pystr) : list pystr :=
  filter (fun tag => truthy tag = true) (map str_strip (str_split str_comma None s)).

(** The body of the [try] in [_parse_question_block]. *)
Definition build_question (question_info : gmap pystr pystr) : result question_t :=
  rbind (difficulty_of question_info) (fun d =>
  let metadata :=
    {| md_id := dict_get question_info key_ID [];
       md_title := dict_get question_info key_title [];
       md_difficulty := d;
       md_tags := tags_of (dict_get question_info key_tags []) |} in
  rbind (dict_index question_info key_story) (fun story =>
  rbind (dict_index question_info key_solution) (fun solution =>
  Ok (story, solution, metadata)))).

Definition has_required_keys (question_info : gmap pystr pystr) : bool :=
  dict_has question_info key_ID && dict_has question_info key_story
  && dict_has question_info key_solution.

(** [_parse_question_block]: the log written and the value returned
    ([Ok None] is Python's [return None]). *)
Definition _parse_question_block (block : pystr)
    : list log_record * result (option question_t) :=
  match question_info_of block with
  | Raise e => ([], Raise e)
  | Ok question_info =>
    if has_required_keys question_info then
      match build_question question_info with
      | Ok data => ([], Ok (Some data))
      | Raise ValueError => ([WarnParseQuestion ValueError], Ok None)
      | Raise KeyError => ([WarnParseQuestion KeyError], Ok None)
      | Raise e => ([], Raise e)
      end
    else ([], Ok None)
  end.

(** [_get_default_questions] *)
Definition _get_default_questions : list question_t :=
  [ (py "一个男人推开门，看到眼前的景象后立即跳楼自杀了。为什么？",
     py "这个男人是灯塔管理员，他发现灯塔的灯灭了，意识到因为自己的疏忽导致船只失事，愧疚之下选择了跳楼。",
     {| md_id := py "001"; md_title := py "灯塔看守员"; md_difficulty := 3;
        md_tags := [py "经典"; py "自杀"; py "责任"] |});
    (py "一个女人在餐厅点了一份海龟汤，喝了一口后就哭了。为什么？",
     py "这个女人曾经和丈夫一起遇难，丈夫告诉她煮的是海龟汤让她活下来，但她现在才知道当时喝的其实是丈夫的肉做的汤。",
     {| md_id := py "002"; md_title := py "海龟汤"; md_difficulty := 4;
        md_tags := [py "经典"; py "食人"; py "背叛"] |}) ].

(** The loop [for i, block in enumerate(question_blocks)]. *)
Fixpoint parse_blocks (question_blocks : list pystr)
    : list log_record * result (list question_t) :=
  match question_blocks with
  | [] => ([], Ok [])
  | block0 :: rest =>
    let block := str_strip block0 in
    if negb (truthy block) || str_startswith block str_hash then parse_blocks rest
    else
      match _parse_question_block block with
      | (logs, Raise e) => (logs, Raise e)
      | (logs, Ok question_data) =>
        match parse_blocks rest with
        | (logs', Raise e) => (logs ++ logs', Raise e)
        | (logs', Ok questions) =>
          (logs ++ logs',
           Ok (match question_data with
               | Some q => q :: questions
               | None => questions
               end))
        end
      end
  end.

(** The blocks [_parse_questions_bank] hands to [_parse_question_block]. *)
Definition question_blocks_of (file_content : pystr) : list pystr :=
  str_split str_delimiter None (str_strip file_content).

(** [_parse_questions_bank]; [file] is the outcome of opening and
    reading [questions_file_path]. *)
Definition _parse_questions_bank (file : result pystr)
    : list log_record * list question_t :=
  match file with
  | Raise FileNotFoundError => ([ErrBankFileNotFound], _get_default_questions)
  | Raise e => ([ErrBankRead e], _get_default_questions)
  | Ok file_content =>
    match parse_blocks (question_blocks_of file_content) with
    | (logs, Raise FileNotFoundError) => (logs ++ [ErrBankFileNotFound], _get_default_questions)
    | (logs, Raise e) => (logs ++ [ErrBankRead e], _get_default_questions)
    | (logs, Ok []) => (logs ++ [WarnBankEmpty], _get_default_questions)
    | (logs, Ok questions) => (logs, questions)
    end
  end.

(** [_get_question_and_answer(question_id)]; [None] is the tuple
    [(None, None, {})].  [rnd] is the index drawn by [random.choice]. *)
Definition _get_question_and_answer (questions_bank : list question_t)
    (rnd : nat) (question_id : option pystr) : option question_t :=
  match questions_bank with
  | [] => None
  | first :: _ =>
    match question_id with
    | Some (c :: s) =>
      List.find (fun '(_, _, metadata) => str_eqb (md_id metadata) (c :: s)) questions_bank
    | _ => Some (nth (rnd mod length questions_bank) questions_bank first)
    end
  end.

End QuestionBank.

(** ** JudgeAdapter and AnswerChecker: the pure parts *)

Definition label_yes : pystr := Eval vm_compute in py "是".
Definition label_no : pystr := Eval vm_compute in py "否".
Definition label_unrelated : pystr := Eval vm_compute in py "无关".
Definition label_ask_again : pystr := Eval vm_compute in py "请重新提问".
Definition label_very_close : pystr := Eval vm_compute in py "很接近了".
Definition label_partially : pystr := Eval vm_compute in py "你猜对了一部分".

Definition valid_responses : list pystr :=
  [label_yes; label_no; label_unrelated; label_ask_again; label_very_close;
   label_partially].

Definition negative_words : list pystr :=
  Eval vm_compute in [py "不对"; py "错误"; py "不是"; py "不"].
Definition affirmative_words : list pystr :=
  Eval vm_compute in [py "对"; py "正确"; py "没错"; py "是的"].
Definition unrelated_words : list pystr :=
  Eval vm_compute in [py "无关"; py "不相关"; py "没关系"].

(** [_validate_ai_response]: the [for valid in valid_responses] loop
    returns at the first term contained in the reply. *)
Definition _validate_ai_response (ai_response : pystr) : pystr :=
  let response := str_strip ai_response in
  match List.find (fun valid => str_in valid response) valid_responses with
  | Some valid => valid
  | None =>
    if any_in negative_words response then label_no
    else if any_in affirmative_words response then label_yes
    else if any_in unrelated_words response then label_unrelated
    else label_ask_again
  end.

(** [_simple_judge] *)
Definition _simple_judge (player_question answer : pystr) : pystr :=
  if any_in (str_split_ws None answer) player_question then label_yes else label_no.

Definition stop_words : gset pystr :=
  list_to_set
    [py "的"; py "了"; py "是"; py "在"; py "和"; py "与"; py "或"; py "但";
     py "然后"; py "因为"; py "所以"; py "这"; py "那"; py "一个"; py "就";
     py "也"; py "都"].

(** The first loop of [_simple_answer_check]: [for word in answer_lower]
    walks the characters of the string. *)
Definition answer_words_of (answer_lower : pystr) : gset pystr :=
  foldl (fun answer_words word =>
           if (1 <? length word)%nat && negb (bool_decide (word ∈ stop_words))
           then answer_words ∪ {[word]}
           else answer_words)
        ∅ (str_iter answer_lower).

Section AnswerChecker.
Context `{Builtins}.

(** [_simple_answer_check].  The test [match_count / total_key_words >= 0.5]
    on floats is [total_key_words <= 2 * match_count]: the quotient of two
    integers below 2^53 is correctly rounded and 0.5 is a float. *)
Definition _simple_answer_check (player_guess answer : pystr) : bool :=
  let guess_lower := str_lower player_guess in
  let answer_lower := str_lower answer in
  let answer_words := answer_words_of answer_lower in
  let total_key_words := size answer_words in
  let match_count :=
    length (filter (fun word => str_in word guess_lower = true)
                   (elements answer_words)) in
  if (0 <? total_key_words)%nat
  then (total_key_words <=? 2 * match_count)%nat
  else false.

End AnswerChecker.

(** ** The turn engine *)

Inductive role := System | User | Assistant.

(** One entry [{"role": r, "content": c}] of the conversation context. *)
Definition turn : Type := role * pystr.

(** A [SessionController] of the framework is an object of its own; a
    game state holds a reference to it.  Its inactivity timer is what
    [keep] and [stop] act on. *)
Definition ctrl := nat.

Inductive timer :=
| Running (deadline : Z)     (* the session times out at [deadline] *)
| Stopped.

Record GameState := {
  question : pystr;
  answer : pystr;
  metadata : Metadata;
  question_count : Z;
  llm_conversation_context : list turn;
  controller : option ctrl
}.

(** The reasoning service: [text_chat(prompt, session_id, contexts)]
    gives [completion_text] or raises. *)
Record Provider := {
  text_chat : pystr -> pystr -> list turn -> result pystr
}.

(** The attributes of [self] that never change after [__init__]. *)
Record Plugin := {
  session_timeout : Z;
  max_questions : Z;
  questions_bank : list question_t;
  hint_system_prompt : pystr -> pystr -> pystr;     (* question, answer *)
  answer_check_prompt : pystr -> pystr -> pystr     (* answer, guess *)
}.

(** What the surroundings answer while one handler runs:
    [self.context.get_using_provider()], the successive draws of
    [random.choice], and the clock. *)
Record Env := {
  get_using_provider : option Provider;
  draws : nat -> nat;
  now : Z
}.

Record Event := {
  message_str : pystr;
  sender_id : pystr;
  group_id : option pystr;
  session_id : pystr;
  is_admin : bool
}.

(** The texts the plugin sends, by template, with the values they are
    formatted with. *)
Inductive message :=
| MSG_GAME_IN_PROGRESS
| MSG_DISCLAIMER (max_questions session_timeout : Z)
| MsgIdFormatError                  (* 题号格式错误，请使用数字 *)
| MsgIdNotFound (question_id : pystr)   (* 未找到题号 ... 的题目 *)
| MSG_NO_PRESET_QUESTIONS
| MsgIntro (metadata : Metadata) (question : pystr) (max_questions : Z)
| MSG_NO_AI_PROVIDER_FOR_JUDGE
| MsgEmptyQuestion                  (* 问题内容为空 *)
| MsgNoGameForQuestion              (* 没有正在进行的游戏 *)
| MsgStateError                     (* 游戏状态异常 *)
| MSG_AI_CHECKING_ANSWER
| MsgCorrect (answer : pystr) (question_count : Z) (tags : list pystr)
| MsgOutOfQuestions (max_questions : Z) (answer : pystr) (tags : list pystr)
| MSG_ROUND_RESULT (question_count : Z) (player_question ai_answer : pystr)
    (remaining_questions : Z)
| MSG_AI_ERROR
| MsgEnded (answer : pystr) (tags : list pystr) (question_count : Z)
| MSG_GAME_FORCE_ENDED
| MSG_NO_GAME_TO_END
| MsgReveal (metadata : Metadata) (question answer : pystr) (question_count : Z)
| MsgChangeFailed                   (* 抱歉，无法获取新题目 *)
| MsgChangeSuccess (metadata : Metadata) (question : pystr) (max_questions : Z)
| MsgAdminNoGames
| MsgAdminDone (stopped_count : nat)
| MsgNoPermission
| MsgHelp (max_questions session_timeout : Z)
| MSG_TIMEOUT (answer : pystr)
| MSG_UNKNOWN_ERROR
| MsgBankEmpty                      (* 题库为空，无法显示题目列表 *)
| MsgPageFormatError                (* 页数格式错误 *)
| MsgQuestionList (page total_pages : Z)
    (rows : list (pystr * pystr * Z * pystr * bool))
| MsgDetailUsage                    (* 请指定题号 *)
| MsgDetailNotFound (question_id : pystr)
| MsgDetail (metadata : Metadata) (question question_id : pystr).

(** The mutable state: [self.game_states], the timers of the
    controllers, and the messages sent so far. *)
Record World := {
  game_states : gmap pystr GameState;
  timers : gmap ctrl timer;
  sent : list message
}.

Definition send (m : message) (w : World) : World :=
  {| game_states := game_states w; timers := timers w; sent := sent w ++ [m] |}.

(** The timer [controller.keep(timeout=t, reset_timeout=True)] leaves at
    time [now]: it starts again with the full duration [t], and a
    duration that is not positive stops the controller at once (the
    framework's [keep] calls [stop] when [timeout <= 0]). *)
Definition kept (t now : Z) : timer :=
  if (t <=? 0)%Z then Stopped else Running (now + t).

(** [controller.keep(timeout=t, reset_timeout=True)] at time [now] *)
Definition controller_keep (c : ctrl) (t now : Z) (w : World) : World :=
  {| game_states := game_states w; timers := <[c := kept t now]> (timers w);
     sent := sent w |}.

(** [controller.stop()] *)
Definition controller_stop (c : ctrl) (w : World) : World :=
  {| game_states := game_states w; timers := <[c := Stopped]> (timers w);
     sent := sent w |}.

(** Writing through the reference [game_state] held in
    [self.game_states[session_key]]. *)
Definition set_game_state (session_key : pystr) (game_state : GameState)
    (w : World) : World :=
  {| game_states := <[session_key := game_state]> (game_states w);
     timers := timers w; sent := sent w |}.

Definition with_question_count (n : Z) (g : GameState) : GameState :=
  {| question := question g; answer := answer g; metadata := metadata g;
     question_count := n;
     llm_conversation_context := llm_conversation_context g;
     controller := controller g |}.

Definition with_context (c : list turn) (g : GameState) : GameState :=
  {| question := question g; answer := answer g; metadata := metadata g;
     question_count := question_count g;
     llm_conversation_context := c;
     controller := controller g |}.

Definition with_controller (c : option ctrl) (g : GameState) : GameState :=
  {| question := question g; answer := answer g; metadata := metadata g;
     question_count := question_count g;
     llm_conversation_context := llm_conversation_context g;
     controller := c |}.

(** [_get_session_key] *)
Definition _get_session_key (event : Event) : pystr :=
  match group_id event with
  | Some (c :: g) => c :: g
  | _ => sender_id event
  end.

(** [controller = game_state.get("controller"); if controller: controller.keep(...)] *)
Definition keep_alive (self : Plugin) (env : Env) (game_state : GameState)
    (w : World) : World :=
  match controller game_state with
  | Some c => controller_keep c (session_timeout self) (now env) w
  | None => w
  end.

(** [_cleanup_game_session] *)
Definition _cleanup_game_session (session_key : pystr) (w : World) : World :=
  match game_states w !! session_key with
  | Some game_state =>
    let w := {| game_states := delete session_key (game_states w);
                timers := timers w; sent := sent w |} in
    match controller game_state with
    | Some c => controller_stop c w
    | None => w
    end
  | None => w
  end.

Definition cmd_start : pystr := Eval vm_compute in py "开始海龟汤".
Definition cmd_end : pystr := Eval vm_compute in py "结束海龟汤".
Definition cmd_force_end : pystr := Eval vm_compute in py "强制结束海龟汤".
Definition cmd_reveal : pystr := Eval vm_compute in py "公布答案".
Definition cmd_change : pystr := Eval vm_compute in py "换一题".
Definition cmd_help : pystr := Eval vm_compute in py "海龟汤帮助".
Definition cmd_question : pystr := Eval vm_compute in py "海龟汤提问".
Definition cmd_admin_end : pystr := Eval vm_compute in py "admin end turtle".

Definition guess_keywords : list pystr :=
  Eval vm_compute in
  [py "答案是"; py "真相是"; py "因为"; py "所以"; py "是因为"; py "原因是";
   py "我觉得是"; py "我认为是"; py "应该是"; py "一定是"; py "肯定是"].
Definition outcome_words : list pystr :=
  Eval vm_compute in [py "导致"; py "造成"; py "结果"; py "发生了"; py "事实是"].
Definition action_words : list pystr :=
  Eval vm_compute in [py "死"; py "杀"; py "害"; py "做"; py "发生"].

(** The question of a submission, as [_handle_game_turn] and
    [cmd_turtle_soup_question] both extract it:
    [message_parts = text.split(maxsplit=1)], rejected when
    [len(message_parts) < 2 or not message_parts[1].strip()], else
    [message_parts[1].strip()]. *)
Definition question_text (text : pystr) : option pystr :=
  match str_split_ws (Some 1%nat) text with
  | _ :: part :: _ =>
    if truthy (str_strip part) then Some (str_strip part) else None
  | _ => None
  end.

(** [is_a_guess] in [_handle_turtle_soup_question] *)
Definition is_a_guess (question : pystr) : bool :=
  any_in guess_keywords question
  || ((25 <? length question)%nat && any_in outcome_words question)
  || (str_in label_yes question && (15 <? length question)%nat
      && any_in action_words question).

Section Engine.
Context `{Builtins}.

(** [_is_answer_correct] *)
Definition _is_answer_correct (self : Plugin) (env : Env)
    (player_guess answer session_id : pystr) : bool :=
  match get_using_provider env with
  | None => _simple_answer_check player_guess answer
  | Some llm_provider =>
    match text_chat llm_provider (answer_check_prompt self answer player_guess)
                    session_id [] with
    | Ok completion_text => str_in label_yes (str_strip completion_text)
    | Raise _ => _simple_answer_check player_guess answer
    end
  end.

(** [_get_ai_judge_response]: the game state as the call leaves it, and
    the label returned or the exception of the service. *)
Definition _get_ai_judge_response (env : Env) (player_question : pystr)
    (game_state : GameState) (session_id : pystr) : GameState * result pystr :=
  match get_using_provider env with
  | None => (game_state, Ok (_simple_judge player_question (answer game_state)))
  | Some llm_provider =>
    let game_state :=
      with_context (llm_conversation_context game_state ++ [(User, player_question)])
                   game_state in
    match text_chat llm_provider [] session_id (llm_conversation_context game_state) with
    | Raise e => (game_state, Raise e)
    | Ok completion_text =>
      let ai_answer := _validate_ai_response (str_strip completion_text) in
      (with_context (llm_conversation_context game_state ++ [(Assistant, ai_answer)])
                    game_state,
       Ok ai_answer)
    end
  end.

(** [_handle_turtle_soup_question], handled without interruption: nothing
    else runs while it awaits the reasoning service.  The handler with
    its suspensions is [_handle_turtle_soup_question_raced]. *)
Definition _handle_turtle_soup_question (self : Plugin) (env : Env)
    (event : Event) (question : pystr) (w : World) : World :=
  let session_key := _get_session_key event in
  match game_states w !! session_key with
  | None => send MsgStateError w
  | Some game_state =>
    let w := keep_alive self env game_state w in
    let game_state := with_question_count (question_count game_state + 1) game_state in
    let w := set_game_state session_key game_state w in
    (* the [if is_a_guess:] block; [true] when it returned *)
    let '(w, returned) :=
      if is_a_guess question then
        let w := send MSG_AI_CHECKING_ANSWER w in
        let is_correct :=
          _is_answer_correct self env question (answer game_state)
                             (session_id event) in
        if negb (dict_has (game_states w) session_key) then (w, true)
        else if is_correct then
          (_cleanup_game_session session_key
             (send (MsgCorrect (answer game_state)
                               (question_count game_state)
                               (md_tags (metadata game_state))) w),
           true)
        else (w, false)
      else (w, false) in
    if returned then w
    else if (max_questions self <? question_count game_state)%Z then
      _cleanup_game_session session_key
        (send (MsgOutOfQuestions (max_questions self) (answer game_state)
                                 (md_tags (metadata game_state))) w)
    else
      let '(game_state, reply) :=
        _get_ai_judge_response env question game_state (session_id event) in
      let w := set_game_state session_key game_state w in
      match reply with
      | Ok ai_answer =>
        if negb (dict_has (game_states w) session_key) then w
        else send (MSG_ROUND_RESULT (question_count game_state) question ai_answer
                     (max_questions self - question_count game_state)) w
      | Raise _ => send MSG_AI_ERROR w
      end
  end.

(** [end_turtle_soup] *)
Definition end_turtle_soup (event : Event) (w : World) : World :=
  let session_key := _get_session_key event in
  match game_states w !! session_key with
  | Some game_state =>
    _cleanup_game_session session_key
      (send (MsgEnded (answer game_state) (md_tags (metadata game_state))
                      (question_count game_state)) w)
  | None => send MSG_NO_GAME_TO_END w
  end.

(** [force_end_turtle_soup] *)
Definition force_end_turtle_soup (event : Event) (w : World) : World :=
  let session_key := _get_session_key event in
  if dict_has (game_states w) session_key
  then send MSG_GAME_FORCE_ENDED (_cleanup_game_session session_key w)
  else send MSG_NO_GAME_TO_END w.

(** [reveal_answer] *)
Definition reveal_answer (event : Event) (w : World) : World :=
  let session_key := _get_session_key event in
  match game_states w !! session_key with
  | Some game_state =>
    send (MsgReveal (metadata game_state) (question game_state) (answer game_state)
                    (question_count game_state)) w
  | None => send MSG_NO_GAME_TO_END w
  end.

Definition max_attempts : nat := 10.

(** The test that leaves the sampling loop of [change_question]:
    [new_question and new_answer and new_question != current_question]. *)
Definition is_new_question (current_question : pystr) (new : option question_t) : bool :=
  match new with
  | Some (new_question, new_answer, _) =>
    truthy new_question && truthy new_answer
    && negb (str_eqb new_question current_question)
  | None => false
  end.

(** [while attempts < max_attempts: ...] with [fuel = max_attempts - attempts];
    [new] is the sample of the previous iteration.  Returns the last
    sample and the final value of [attempts]. *)
Fixpoint change_question_loop (self : Plugin) (env : Env) (current_question : pystr)
    (fuel attempts : nat) (new : option question_t) : option question_t * nat :=
  match fuel with
  | O => (new, attempts)
  | S fuel =>
    let new := _get_question_and_answer (questions_bank self) (draws env attempts) None in
    if is_new_question current_question new then (new, attempts)
    else change_question_loop self env current_question fuel (S attempts) new
  end.

(** [change_question] *)
Definition change_question (self : Plugin) (env : Env) (event : Event)
    (w : World) : World :=
  let session_key := _get_session_key event in
  match game_states w !! session_key with
  | None => send MSG_NO_GAME_TO_END w
  | Some game_state =>
    let current_question := question game_state in
    match fst (change_question_loop self env current_question max_attempts 0 None) with
    | None => send MsgChangeFailed w
    | Some (new_question, new_answer, new_metadata) =>
      if negb (truthy new_question) || negb (truthy new_answer)
      then send MsgChangeFailed w
      else
        let game_state :=
          {| question := new_question; answer := new_answer;
             metadata := new_metadata; question_count := 0;
             llm_conversation_context :=
               match get_using_provider env with
               | Some _ => [(System, hint_system_prompt self new_question new_answer)]
               | None => []
               end;
             controller := controller game_state |} in
        let w := set_game_state session_key game_state w in
        let w := keep_alive self env game_state w in
        send (MsgChangeSuccess new_metadata new_question (max_questions self)) w
    end
  end.

(** [for session_key in list(self.game_states.keys()): self._cleanup_game_session(session_key)] *)
Definition cleanup_all (w : World) : World :=
  foldl (fun w session_key => _cleanup_game_session session_key w) w
        (elements (dom (game_states w))).

(** [_admin_end_all_games] *)
Definition _admin_end_all_games (w : World) : World :=
  if bool_decide (game_states w = ∅) then send MsgAdminNoGames w
  else
    let stopped_count := size (game_states w) in
    send (MsgAdminDone stopped_count) (cleanup_all w).

(** [_send_help_message] *)
Definition _send_help_message (self : Plugin) (w : World) : World :=
  send (MsgHelp (max_questions self) (session_timeout self)) w.

(** [_handle_game_turn] *)
Definition _handle_game_turn (self : Plugin) (env : Env) (event : Event)
    (w : World) : World :=
  let player_input := str_strip (message_str event) in
  let session_key := _get_session_key event in
  match game_states w !! session_key with
  | None => w
  | Some game_state =>
    if str_startswith player_input cmd_start then
      keep_alive self env game_state (send MSG_GAME_IN_PROGRESS w)
    else if str_eqb player_input cmd_end then end_turtle_soup event w
    else if str_eqb player_input cmd_force_end then force_end_turtle_soup event w
    else if str_eqb player_input cmd_reveal then reveal_answer event w
    else if str_eqb player_input cmd_change then change_question self env event w
    else if str_eqb player_input cmd_help then _send_help_message self w
    else if str_startswith player_input cmd_question then
      match question_text player_input with
      | Some question => _handle_turtle_soup_question self env event question w
      | None => send MsgEmptyQuestion w
      end
    else if str_eqb player_input cmd_admin_end && is_admin event then
      _admin_end_all_games w
    else
      match controller game_state with
      | None => _cleanup_game_session (sender_id event) w
      | Some c => controller_keep c (session_timeout self) (now env) w
      end
  end.

(** [turtle_soup_waiter], the handler the session waiter runs on every
    message of the session: it stores the controller on first use. *)
Definition turtle_soup_waiter (self : Plugin) (env : Env) (session_key : pystr)
    (c : ctrl) (event : Event) (w : World) : World :=
  let w :=
    match game_states w !! session_key with
    | Some current_game_state =>
      match controller current_game_state with
      | None => set_game_state session_key (with_controller (Some c) current_game_state) w
      | Some _ => w
      end
    | None => w
    end in
  _handle_game_turn self env event w.

(** [start_turtle_soup] up to the point where it starts the session
    waiter and suspends.  The waiter, its controller and the timer it
    starts belong to the framework: the controller reaches the plugin
    with the first message of the session ([turtle_soup_waiter]), and
    what follows the waiter is [start_turtle_soup_exit]. *)
Definition start_turtle_soup (self : Plugin) (env : Env) (event : Event)
    (w : World) : World :=
  let session_key := _get_session_key event in
  if dict_has (game_states w) session_key then send MSG_GAME_IN_PROGRESS w
  else
    let message_parts := str_split_ws None (message_str event) in
    (* the [try] around [message_parts[1].zfill(3)] *)
    let parsed : result (option pystr) :=
      if (1 <? length message_parts)%nat
      then rbind (list_index message_parts 1) (fun part => Ok (Some (str_zfill 3 part)))
      else Ok None in
    match parsed with
    | Raise ValueError | Raise IndexError => send MsgIdFormatError w
    | Raise _ => w
    | Ok specified_question_id =>
      let w := send (MSG_DISCLAIMER (max_questions self) (session_timeout self)) w in
      let not_found (w : World) : World :=
        match specified_question_id with
        | Some (c :: s) => send (MsgIdNotFound (c :: s)) w
        | _ => send MSG_NO_PRESET_QUESTIONS w
        end in
      match _get_question_and_answer (questions_bank self) (draws env 0)
                                     specified_question_id with
      | None => not_found w
      | Some (question, answer, metadata) =>
        if negb (truthy question) || negb (truthy answer) then not_found w
        else
          let llm_provider := get_using_provider env in
          let game_state :=
            {| question := question; answer := answer; metadata := metadata;
               question_count := 0;
               llm_conversation_context :=
                 match llm_provider with
                 | Some _ => [(System, hint_system_prompt self question answer)]
                 | None => []
                 end;
               controller := None |} in
          let w := set_game_state session_key game_state w in
          let w := send (MsgIntro metadata question (max_questions self)) w in
          match llm_provider with
          | None => send MSG_NO_AI_PROVIDER_FOR_JUDGE w
          | Some _ => w
          end
      end
    end.

(** How the waiter of [start_turtle_soup] comes back. *)
Inductive waiter_outcome := WaiterReturned | WaiterTimeout | WaiterFailed.

(** The [except]/[finally] part of [start_turtle_soup]. *)
Definition start_turtle_soup_exit (outcome : waiter_outcome) (event : Event)
    (w : World) : World :=
  let session_key := _get_session_key event in
  let w :=
    match outcome with
    | WaiterReturned => w
    | WaiterTimeout =>
      send (MSG_TIMEOUT (match game_states w !! session_key with
                         | Some game_state => answer game_state
                         | None => py "未知"
                         end)) w
    | WaiterFailed => send MSG_UNKNOWN_ERROR w
    end in
  _cleanup_game_session session_key w.

(** [cmd_turtle_soup_question] *)
Definition cmd_turtle_soup_question (self : Plugin) (env : Env) (event : Event)
    (w : World) : World :=
  let session_key := _get_session_key event in
  if negb (dict_has (game_states w) session_key) then send MsgNoGameForQuestion w
  else
    match question_text (message_str event) with
    | Some question => _handle_turtle_soup_question self env event question w
    | None => send MsgEmptyQuestion w
    end.

(** [cmd_admin_end_all_turtle_games] *)
Definition cmd_admin_end_all_turtle_games (event : Event) (w : World) : World :=
  if negb (is_admin event) then send MsgNoPermission w
  else _admin_end_all_games w.

(** [list_questions] *)
Definition list_questions (self : Plugin) (event : Event) (w : World) : World :=
  match questions_bank self with
  | [] => send MsgBankEmpty w
  | _ =>
    let message_parts := str_split_ws None (message_str event) in
    let parsed : result Z :=
      match message_parts with
      | _ :: part :: _ =>
        match py_int part with
        | Some page => Ok (if (page <? 1)%Z then 1%Z else page)
        | None => Raise ValueError
        end
      | _ => Ok 1%Z
      end in
    match parsed with
    | Raise _ => send MsgPageFormatError w
    | Ok page =>
      let per_page := 10%Z in
      let total_questions := Z.of_nat (length (questions_bank self)) in
      let total_pages := ((total_questions + per_page - 1) / per_page)%Z in
      let page := if (total_pages <? page)%Z then total_pages else page in
      let start_idx := ((page - 1) * per_page)%Z in
      let end_idx := Z.min (start_idx + per_page) total_questions in
      let rows :=
        map (fun '(question, _, metadata) =>
               (md_id metadata, md_title metadata, md_difficulty metadata,
                take 30 question, (30 <? length question)%nat))
            (take (Z.to_nat (end_idx - start_idx))
                  (drop (Z.to_nat start_idx) (questions_bank self))) in
      send (MsgQuestionList page total_pages rows) w
    end
  end.

(** [question_detail] *)
Definition question_detail (self : Plugin) (env : Env) (event : Event)
    (w : World) : World :=
  match str_split_ws None (message_str event) with
  | _ :: part :: _ =>
    let question_id := str_zfill 3 part in
    match _get_question_and_answer (questions_bank self) (draws env 0)
                                   (Some question_id) with
    | Some (c :: question, _, metadata) =>
      send (MsgDetail metadata (c :: question) question_id) w
    | _ => send (MsgDetailNotFound question_id) w
    end
  | _ => send MsgDetailUsage w
  end.

(** [terminate] *)
Definition terminate (w : World) : World := cleanup_all w.

(** The entry points of the plugin. *)
Inductive operation :=
| OpStart (event : Event)
| OpStartExit (outcome : waiter_outcome) (event : Event)
| OpWaiter (session_key : pystr) (c : ctrl) (event : Event)
| OpCmdEnd (event : Event)
| OpCmdForceEnd (event : Event)
| OpCmdReveal (event : Event)
| OpCmdChange (event : Event)
| OpCmdQuestion (event : Event)
| OpCmdAdminEnd (event : Event)
| OpCmdHelp (event : Event)
| OpListQuestions (event : Event)
| OpQuestionDetail (event : Event)
| OpTerminate.

Definition run (self : Plugin) (env : Env) (op : operation) (w : World) : World :=
  match op with
  | OpStart event => start_turtle_soup self env event w
  | OpStartExit outcome event => start_turtle_soup_exit outcome event w
  | OpWaiter session_key c event => turtle_soup_waiter self env session_key c event w
  | OpCmdEnd event => end_turtle_soup event w
  | OpCmdForceEnd event => force_end_turtle_soup event w
  | OpCmdReveal event => reveal_answer event w
  | OpCmdChange event => change_question self env event w
  | OpCmdQuestion event => cmd_turtle_soup_question self env event w
  | OpCmdAdminEnd event => cmd_admin_end_all_turtle_games event w
  | OpCmdHelp event => _send_help_message self w
  | OpListQuestions event => list_questions self event w
  | OpQuestionDetail event => question_detail self env event w
  | OpTerminate => terminate w
  end.

End Engine.

(** ** Vocabulary of the statements *)

(** A word without white space. *)
Definition no_space (v : pystr) : bool := forallb (fun c => negb (isspace c)) v.

(** The [i]-th sample of the change-question loop. *)
Definition sample_at (self : Plugin) (env : Env) (i : nat) : option question_t :=
  _get_question_and_answer (questions_bank self) (draws env i) None.

(** An operation that is an accepted question submission of session [k]. *)
Definition submits_question (op : operation) (k : pystr) : Prop :=
  match op with
  | OpWaiter _ _ event =>
    _get_session_key event = k
    /\ str_startswith (str_strip (message_str event)) cmd_question = true
    /\ is_Some (question_text (str_strip (message_str event)))
  | OpCmdQuestion event =>
    _get_session_key event = k /\ is_Some (question_text (message_str event))
  | _ => False
  end.

(** An operation that is the change-question command of session [k]. *)
Definition changes_question (op : operation) (k : pystr) : Prop :=
  match op with
  | OpWaiter _ _ event =>
    _get_session_key event = k /\ str_strip (message_str event) = cmd_change
  | OpCmdChange event => _get_session_key event = k
  | _ => False
  end.

(** [w'] has the sessions of [w], or fewer. *)
Definition only_removes (w w' : World) : Prop :=
  forall k, game_states w' !! k = None \/ game_states w' !! k = game_states w !! k.

(** ** Concrete inputs *)

(** A bank file: a comment block, a record with an empty story and
    difficulty 9, a record whose id is not a number, a record without
    solution, and a record whose difficulty is not an integer. *)
Definition sample_bank_file : pystr :=
  Eval vm_compute in py "# 示例题库
---
ID: 007
标题: 无题
汤面:
汤底: 他其实是灯塔管理员
难度: 9
---
ID: abc
汤面: 一个人走进了房间
汤底: 房间里没有人
标签: 经典, 房间
---
ID: 010
汤面: 缺少汤底的题目
---
ID: 011
汤面: 难度不是整数
汤底: 答案
难度: 很难
".

(** A bank file with gaps: a comment block, a record without solution, a
    record whose difficulty is not an integer, then a complete record. *)
Definition sample_bank_gaps : pystr :=
  Eval vm_compute in py "# 示例题库
---
ID: 020
汤面: 没有汤底
---
ID: 021
汤面: 难度不是整数
汤底: 答案
难度: 很难
---
ID: 022
标题: 门后
汤面: 门后面是什么
汤底: 一面镜子
难度: 2
标签: 镜子
".

Definition sample_plugin (questions_bank : list question_t) : Plugin :=
  {| session_timeout := 1000; max_questions := 40;
     questions_bank := questions_bank;
     hint_system_prompt := fun question answer => question ++ str_newline ++ answer;
     answer_check_prompt := fun answer guess => answer ++ str_newline ++ guess |}.

(** No reasoning service, every draw is index 0, the time is 400. *)
Definition sample_env : Env :=
  {| get_using_provider := None; draws := fun _ => 0%nat; now := 400 |}.

Definition sample_event (text : pystr) : Event :=
  {| message_str := text; sender_id := py "u1"; group_id := None;
     session_id := py "s1"; is_admin := false |}.

(** The first built-in puzzle. *)
Definition lighthouse : question_t :=
  Eval vm_compute in
  (py "一个男人推开门，看到眼前的景象后立即跳楼自杀了。为什么？",
   py "这个男人是灯塔管理员，他发现灯塔的灯灭了，意识到因为自己的疏忽导致船只失事，愧疚之下选择了跳楼。",
   {| md_id := py "001"; md_title := py "灯塔看守员"; md_difficulty := 3;
      md_tags := [py "经典"; py "自杀"; py "责任"] |}).

(** A session of user [u1] on that puzzle with [count] questions asked;
    its controller is number 7. *)
Definition sample_session (count : Z) : GameState :=
  {| question := fst (fst lighthouse); answer := snd (fst lighthouse);
     metadata := snd lighthouse; question_count := count;
     llm_conversation_context := []; controller := Some 7%nat |}.

(** The world with that session alone, its timer started at time 0. *)
Definition sample_world (count : Z) : World :=
  {| game_states := {[ py "u1" := sample_session count ]};
     timers := {[ 7%nat := Running 1000 ]};
     sent := [] |}.

Definition empty_world : World :=
  {| game_states := ∅; timers := ∅; sent := [] |}.

(** ** Vocabulary of the further statements *)


(** The context a session starts with: the system framing turn when a
    reasoning service is in use. *)
Definition initial_context (self : Plugin) (env : Env) (question answer : pystr)
    : list turn :=
  match get_using_provider env with
  | Some _ => [(System, hint_system_prompt self question answer)]
  | None => []
  end.

(** The game state [start_turtle_soup] and [change_question] build from a
    record of the bank. *)
Definition fresh_session (self : Plugin) (env : Env) (r : question_t)
    (c : option ctrl) : GameState :=
  {| question := fst (fst r); answer := snd (fst r); metadata := snd r;
     question_count := 0;
     llm_conversation_context := initial_context self env (fst (fst r)) (snd (fst r));
     controller := c |}.

(** [P] holds of every session in the store. *)
Definition sessions_satisfy (P : GameState -> Prop) (w : World) : Prop :=
  forall k g, game_states w !! k = Some g -> P g.


(** The puzzle of a game state is a record of the bank, with a story and
    a solution. *)
Definition has_puzzle (self : Plugin) (g : GameState) : Prop :=
  In (question g, answer g, metadata g) (questions_bank self)
  /\ question g <> [] /\ answer g <> [].

(** The context of a game state opens with the system framing turn of its
    current puzzle, and no later turn is a system turn. *)
Definition framed (self : Plugin) (g : GameState) : Prop :=
  exists rest,
    llm_conversation_context g
      = (System, hint_system_prompt self (question g) (answer g)) :: rest
    /\ Forall (fun t : turn => fst t <> System) rest.

Section Reachable.
Context `{Builtins}.

(** The worlds the plugin reaches from an empty store of sessions, the
    surroundings of every operation satisfying [env_ok]. *)
Inductive reachable (self : Plugin) (env_ok : Env -> Prop) : World -> Prop :=
| reach_init (w : World) :
    game_states w = ∅ -> reachable self env_ok w
| reach_step (w : World) (env : Env) (op : operation) :
    reachable self env_ok w -> env_ok env ->
    reachable self env_ok (run self env op w).

End Reachable.

(** The session keys an operation may touch; [None] stands for all of
    them (the sweep of the administrator and [terminate]). *)
Definition op_scope (op : operation) : option (list pystr) :=
  match op with
  | OpStart event | OpStartExit _ event | OpCmdEnd event | OpCmdForceEnd event
  | OpCmdReveal event | OpCmdChange event | OpCmdQuestion event =>
    Some [_get_session_key event]
  | OpWaiter session_key _ event =>
    if str_eqb (str_strip (message_str event)) cmd_admin_end && is_admin event
    then None
    else Some [session_key; _get_session_key event; sender_id event]
  | OpCmdAdminEnd event => if is_admin event then None else Some []
  | OpCmdHelp _ | OpListQuestions _ | OpQuestionDetail _ => Some []
  | OpTerminate => None
  end.

(** The id a start command asks for: [message_parts[1].zfill(3)] when the
    message has a second word. *)
Definition start_argument (event : Event) : option pystr :=
  match str_split_ws None (message_str event) with
  | _ :: part :: _ => Some (str_zfill 3 part)
  | _ => None
  end.

(** A text that does not begin with white space. *)
Definition head_ok (s : pystr) : Prop :=
  match s with
  | [] => True
  | c :: _ => isspace c = false
  end.

(** A reasoning service that answers 是 to everything, and surroundings
    that use it (the draws are 0, 1, 2, ...; the time is 400). *)
Definition sample_provider : Provider :=
  {| text_chat := fun _ _ _ => Ok label_yes |}.

Definition sample_env_llm : Env :=
  {| get_using_provider := Some sample_provider; draws := fun i => i; now := 400 |}.

(** A plugin configured with a timeout of 0. *)
Definition stopped_plugin (questions_bank : list question_t) : Plugin :=
  {| session_timeout := 0; max_questions := 40;
     questions_bank := questions_bank;
     hint_system_prompt := fun question answer => question ++ str_newline ++ answer;
     answer_check_prompt := fun answer guess => answer ++ str_newline ++ guess |}.

(** The second built-in puzzle. *)
Definition sea_turtle : question_t :=
  Eval vm_compute in nth 1 _get_default_questions lighthouse.

(** ** The question handler and the handlers that race it *)

(** A handler is suspended where it awaits the reasoning service, and
    handlers of other events run meanwhile.  Of these the model keeps the
    ones that end sessions, which is what [_handle_turtle_soup_question]
    checks for when it resumes (lines 687 and 730): the exit of a
    [start_turtle_soup] whose session waiter timed out, returned or
    failed, the end and force-end commands, the sweep of the
    administrator and [terminate]. *)
Inductive ending :=
| Exited (outcome : waiter_outcome) (event : Event)
| Ended (event : Event)
| ForceEnded (event : Event)
| AdminEnded (event : Event)
| Terminated.

Definition run_ending (e : ending) (w : World) : World :=
  match e with
  | Exited outcome event => start_turtle_soup_exit outcome event w
  | Ended event => end_turtle_soup event w
  | ForceEnded event => force_end_turtle_soup event w
  | AdminEnded event => cmd_admin_end_all_turtle_games event w
  | Terminated => terminate w
  end.

(** The handlers [endings] run one after the other. *)
Definition meanwhile (endings : list ending) (w : World) : World :=
  foldl (fun w e => run_ending e w) w endings.


(** The world after [await llm_provider.text_chat(...)] inside
    [_is_answer_correct], [endings] having run meanwhile; without a
    service the call returns without suspending. *)
Definition awaited (env : Env) (endings : list ending) (w : World) : World :=
  match get_using_provider env with
  | Some _ => meanwhile endings w
  | None => w
  end.

(** [_get_ai_judge_response] with its suspension.  [game_state] is the
    dictionary found in [self.game_states[session_key]] when the call
    begins: what the call appends to its context shows in the store as
    long as the session is registered, and [during] runs while the
    service is awaited. *)
Definition _get_ai_judge_response_raced (env : Env) (player_question : pystr)
    (session_key : pystr) (game_state : GameState) (session_id : pystr)
    (during : list ending) (w : World) : World * result pystr :=
  match get_using_provider env with
  | None => (w, Ok (_simple_judge player_question (answer game_state)))
  | Some llm_provider =>
    let game_state :=
      with_context (llm_conversation_context game_state ++ [(User, player_question)])
                   game_state in
    let w := set_game_state session_key game_state w in
    let llm_response :=
      text_chat llm_provider [] session_id (llm_conversation_context game_state) in
    let w := meanwhile during w in
    match llm_response with
    | Raise e => (w, Raise e)
    | Ok completion_text =>
      let ai_answer := _validate_ai_response (str_strip completion_text) in
      let game_state :=
        with_context (llm_conversation_context game_state ++ [(Assistant, ai_answer)])
                     game_state in
      (if dict_has (game_states w) session_key
       then set_game_state session_key game_state w else w,
       Ok ai_answer)
    end
  end.

Section Raced.
Context `{Builtins}.

(** [_handle_turtle_soup_question] with its suspensions: [during_check]
    runs while the answer check awaits the service, [during_judge] while
    the judge does. *)
Definition _handle_turtle_soup_question_raced (self : Plugin) (env : Env)
    (event : Event) (question : pystr) (during_check during_judge : list ending)
    (w : World) : World :=
  let session_key := _get_session_key event in
  match game_states w !! session_key with
  | None => send MsgStateError w
  | Some game_state =>
    let w := keep_alive self env game_state w in
    let game_state := with_question_count (question_count game_state + 1) game_state in
    let w := set_game_state session_key game_state w in
    (* the [if is_a_guess:] block; [true] when it returned *)
    let '(w, returned) :=
      if is_a_guess question then
        let w := send MSG_AI_CHECKING_ANSWER w in
        let is_correct :=
          _is_answer_correct self env question (answer game_state)
                             (session_id event) in
        let w := awaited env during_check w in
        if negb (dict_has (game_states w) session_key) then (w, true)
        else if is_correct then
          (_cleanup_game_session session_key
             (send (MsgCorrect (answer game_state)
                               (question_count game_state)
                               (md_tags (metadata game_state))) w),
           true)
        else (w, false)
      else (w, false) in
    if returned then w
    else if (max_questions self <? question_count game_state)%Z then
      _cleanup_game_session session_key
        (send (MsgOutOfQuestions (max_questions self) (answer game_state)
                                 (md_tags (metadata game_state))) w)
    else
      let '(w, reply) :=
        _get_ai_judge_response_raced env question session_key game_state
                                     (session_id event) during_judge w in
      match reply with
      | Ok ai_answer =>
        if negb (dict_has (game_states w) session_key) then w
        else send (MSG_ROUND_RESULT (question_count game_state) question ai_answer
                     (max_questions self - question_count game_state)) w
      | Raise _ => send MSG_AI_ERROR w
      end
  end.

End Raced.






(** * Properties *)


(** ** Facts about the string operations *)

Section StringFacts.

Lemma str_in_nil (s : pystr) : str_in [] s = true.
Proof. destruct s; reflexivity. Qed.

Lemma str_startswith_space_head (c : N) (r v : pystr) :
  isspace c = true -> no_space v = true -> v <> [] ->
  str_startswith (c :: r) v = false.
Proof.
  intros Hc Hv Hne. destruct v as [|a v']; [congruence|].
  simpl in Hv. apply andb_prop in Hv as [Ha _].
  simpl. destruct (N.eqb_spec a c) as [->|]; [|reflexivity].
  rewrite Hc in Ha. discriminate.
Qed.

Lemma str_in_cons_space (c : N) (r v : pystr) :
  isspace c = true -> no_space v = true -> str_in v (c :: r) = str_in v r.
Proof.
  intros Hc Hv. destruct v as [|a v'].
  - now rewrite !str_in_nil.
  - change (str_in (a :: v') (c :: r))
      with (str_startswith (c :: r) (a :: v') || str_in (a :: v') r).
    rewrite str_startswith_space_head by (auto; congruence). reflexivity.
Qed.

Lemma str_in_lstrip (v s : pystr) :
  no_space v = true -> str_in v (str_lstrip s) = str_in v s.
Proof.
  intros Hv. unfold str_lstrip. induction s as [|c r IH]; [reflexivity|].
  simpl drop_while. destruct (isspace c) eqn:Hc; [|reflexivity].
  rewrite IH. symmetry. now apply str_in_cons_space.
Qed.

Lemma str_startswith_snoc_space (c : N) (s v : pystr) :
  isspace c = true -> no_space v = true ->
  str_startswith (s ++ [c]) v = str_startswith s v.
Proof.
  intros Hc. revert v. induction s as [|b s' IH]; intros v Hv.
  - destruct v as [|a v']; [reflexivity|].
    apply (str_startswith_space_head c [] (a :: v')); auto; congruence.
  - destruct v as [|a v']; [reflexivity|].
    simpl in Hv. apply andb_prop in Hv as [_ Hv'].
    simpl. now rewrite IH.
Qed.

Lemma str_in_snoc_space (c : N) (s v : pystr) :
  isspace c = true -> no_space v = true -> str_in v (s ++ [c]) = str_in v s.
Proof.
  intros Hc Hv. induction s as [|b s' IH].
  - destruct v as [|a v']; [reflexivity|].
    change (str_in (a :: v') ([] ++ [c]))
      with (str_startswith [c] (a :: v') || str_in (a :: v') []).
    rewrite str_startswith_space_head by (auto; congruence). reflexivity.
  - change (str_in v ((b :: s') ++ [c]))
      with (str_startswith ((b :: s') ++ [c]) v || str_in v (s' ++ [c])).
    rewrite str_startswith_snoc_space, IH by assumption. reflexivity.
Qed.

Lemma str_in_rstrip (v s : pystr) :
  no_space v = true -> str_in v (str_rstrip s) = str_in v s.
Proof.
  intros Hv. unfold str_rstrip. induction s as [|c s' IH] using rev_ind; [reflexivity|].
  rewrite rev_app_distr. simpl. destruct (isspace c) eqn:Hc.
  - rewrite IH. symmetry. now apply str_in_snoc_space.
  - simpl. now rewrite rev_involutive.
Qed.

(** Stripping a text does not change which space-free words it contains. *)
Lemma str_in_strip (v s : pystr) :
  no_space v = true -> str_in v (str_strip s) = str_in v s.
Proof.
  intros Hv. unfold str_strip. rewrite str_in_rstrip, str_in_lstrip; auto.
Qed.

Lemma any_in_strip (words : list pystr) (s : pystr) :
  forallb no_space words = true -> any_in words (str_strip s) = any_in words s.
Proof.
  unfold any_in. induction words as [|v words IH]; [reflexivity|].
  simpl. intros Hw. apply andb_prop in Hw as [Hv Hw].
  now rewrite str_in_strip, IH.
Qed.

End StringFacts.

Lemma find_first {A} (f : A -> bool) (pre : list A) (v : A) (post : list A) :
  f v = true -> Forall (fun u => f u = false) pre ->
  List.find f (pre ++ v :: post) = Some v.
Proof.
  intros Hv Hpre. induction Hpre as [|u pre Hu _ IH]; simpl.
  - now rewrite Hv.
  - now rewrite Hu.
Qed.

Lemma find_none {A} (f : A -> bool) (l : list A) :
  Forall (fun u => f u = false) l -> List.find f l = None.
Proof.
  induction 1 as [|u l Hu _ IH]; simpl; [reflexivity|]. now rewrite Hu.
Qed.

(** The reply normalisation scans the stripped reply; seen from the raw
    reply it is the same scan. *)
Lemma validate_ai_response_raw (raw : pystr) :
  _validate_ai_response raw =
  match List.find (fun valid => str_in valid raw) valid_responses with
  | Some valid => valid
  | None =>
    if any_in negative_words raw then label_no
    else if any_in affirmative_words raw then label_yes
    else if any_in unrelated_words raw then label_unrelated
    else label_ask_again
  end.
Proof.
  unfold _validate_ai_response.
  rewrite !any_in_strip by reflexivity.
  unfold valid_responses. cbn [List.find].
  rewrite !str_in_strip by reflexivity. reflexivity.
Qed.

(** Claim C6. For every raw reply, [_validate_ai_response] returns one of the six
    labels of the vocabulary: the first vocabulary term (in the order yes,
    no, unrelated, ask-again, very-close, partially-correct) that the raw
    reply contains; when it contains none, [no] if it has a negative
    marker, else [yes] if it has an affirmative marker, else [unrelated]
    if it has a relatedness marker, else ask-again. *)
Theorem validate_ai_response_in_vocabulary (raw : pystr) :
  In (_validate_ai_response raw) valid_responses
  /\ (forall pre v post,
        valid_responses = pre ++ v :: post ->
        str_in v raw = true ->
        Forall (fun u => str_in u raw = false) pre ->
        _validate_ai_response raw = v)
  /\ (Forall (fun u => str_in u raw = false) valid_responses ->
        _validate_ai_response raw =
          if any_in negative_words raw then label_no
          else if any_in affirmative_words raw then label_yes
          else if any_in unrelated_words raw then label_unrelated
          else label_ask_again).
Proof.
  rewrite validate_ai_response_raw. split; [|split].
  - destruct (List.find _ valid_responses) as [v|] eqn:Hf.
    + apply List.find_some in Hf. tauto.
    + unfold valid_responses.
      destruct (any_in negative_words raw); [simpl; tauto|].
      destruct (any_in affirmative_words raw); [simpl; tauto|].
      destruct (any_in unrelated_words raw); simpl; tauto.
  - intros pre v post Hsplit Hv Hpre. rewrite Hsplit.
    now rewrite (find_first (fun valid => str_in valid raw)).
  - intros Hnone.
    now rewrite (find_none (fun valid => str_in valid raw)).
Qed.

(** Witness of C6: a reply that contains [no] and [unrelated] but not
    [yes] is normalised to [no]; a reply without any term or marker is
    normalised to ask-again. *)
Lemma validate_ai_response_in_vocabulary_witness :
  _validate_ai_response (py "  否，这和故事完全无关。 ") = label_no
  /\ _validate_ai_response (py "Maybe?") = label_ask_again.
Proof.
  split.
  - apply (proj1 (proj2 (validate_ai_response_in_vocabulary _))
             [label_yes] label_no
             [label_unrelated; label_ask_again; label_very_close; label_partially]).
    + reflexivity.
    + vm_compute. reflexivity.
    + repeat constructor.
  - apply (proj2 (proj2 (validate_ai_response_in_vocabulary (py "Maybe?")))).
    vm_compute. repeat constructor.
Defined.


(** ** The fallback answer check *)

(** The first loop of the fallback check never adds a word: the items it
    walks are single characters, and it keeps only longer ones. *)
Lemma answer_words_of_empty (answer_lower : pystr) :
  answer_words_of answer_lower = ∅.
Proof.
  unfold answer_words_of. generalize (∅ : gset pystr). intros acc. revert acc.
  induction answer_lower as [|c r IH]; intros acc; [reflexivity|].
  simpl. apply IH.
Qed.

Lemma simple_answer_check_false `{Builtins} (player_guess answer : pystr) :
  _simple_answer_check player_guess answer = false.
Proof.
  unfold _simple_answer_check. rewrite answer_words_of_empty.
  rewrite size_empty. reflexivity.
Qed.

(** Claim C1. The fallback check on a guess identical to the solution:
    with the solution of the first built-in puzzle, and with an English
    sentence, it returns [false]; so does it for every guess and
    solution, the set of meaningful tokens being always empty. *)
Theorem simple_answer_check_rejects_identical_guess :
  @_simple_answer_check ascii_builtins (snd (fst lighthouse)) (snd (fst lighthouse))
    = false
  /\ @_simple_answer_check ascii_builtins (py "the keeper let the lighthouse go dark")
                           (py "the keeper let the lighthouse go dark") = false
  /\ forall (B : Builtins) (player_guess answer : pystr),
       @_simple_answer_check B player_guess answer = false.
Proof.
  split; [|split].
  - vm_compute. reflexivity.
  - vm_compute. reflexivity.
  - intros B player_guess answer. apply simple_answer_check_false.
Qed.

(** ** The question bank *)

Lemma split_go_exhausted (sep s cur : pystr) :
  split_go sep (Some 0%nat) cur s 0 = [rev cur ++ s].
Proof.
  revert cur. induction s as [|c r IH]; intros cur; simpl.
  - now rewrite app_nil_r.
  - rewrite IH. simpl. now rewrite <- app_assoc.
Qed.

(** [line.split(':', 1)] has two parts when the line contains a colon, so
    the unpacking [key, value = ...] cannot fail. *)
Lemma split_colon_once (s cur : pystr) :
  str_in str_colon s = true ->
  exists key value, split_go str_colon (Some 1%nat) cur s 0 = [key; value].
Proof.
  revert cur. induction s as [|c r IH]; intros cur Hin; [discriminate|].
  cbn [split_go].
  change (str_in str_colon (c :: r))
    with (str_startswith (c :: r) str_colon || str_in str_colon r) in Hin.
  destruct (str_startswith (c :: r) str_colon) eqn:Hsw.
  - eexists _, _. simpl. rewrite split_go_exhausted. reflexivity.
  - apply IH. exact Hin.
Qed.

Section BankFacts.
Context `{Builtins}.

Lemma parse_line_ok (question_info : gmap pystr pystr) (line : pystr) :
  exists question_info', parse_line question_info line = Ok question_info'.
Proof.
  unfold parse_line.
  destruct (str_in str_colon (str_strip line) && _) eqn:Hc; [|eauto].
  apply andb_prop in Hc as [Hin _].
  destruct (split_colon_once _ [] Hin) as (key & value & Hs).
  unfold str_split. rewrite Hs. eauto.
Qed.

Lemma parse_lines_ok (lines : list pystr) (question_info : gmap pystr pystr) :
  exists question_info', parse_lines lines question_info = Ok question_info'.
Proof.
  revert question_info. induction lines as [|line rest IH]; intros question_info.
  - simpl. eauto.
  - simpl. destruct (parse_line_ok question_info line) as [info' ->]. simpl. apply IH.
Qed.

Lemma question_info_of_ok (block : pystr) :
  exists question_info, question_info_of block = Ok question_info.
Proof. apply parse_lines_ok. Qed.

Lemma dict_has_lookup {V} (d : gmap pystr V) (k : pystr) :
  dict_has d k = true -> exists v, d !! k = Some v.
Proof.
  unfold dict_has. intros Hd. apply bool_decide_eq_true in Hd as [v Hv]. eauto.
Qed.

Lemma has_required_keys_lookup (question_info : gmap pystr pystr) :
  has_required_keys question_info = true ->
  exists i story solution,
    question_info !! key_ID = Some i /\ question_info !! key_story = Some story
    /\ question_info !! key_solution = Some solution.
Proof.
  unfold has_required_keys. intros Hk.
  apply andb_prop in Hk as [Hk Hsol]. apply andb_prop in Hk as [Hid Hst].
  apply dict_has_lookup in Hid as [i Hi], Hst as [story Hstory], Hsol as [solution Hsolution].
  eauto 10.
Qed.

(** What [_parse_question_block] returns, case by case. *)
Lemma parse_question_block_cases (block : pystr) (question_info : gmap pystr pystr) :
  question_info_of block = Ok question_info ->
  _parse_question_block block =
    if has_required_keys question_info then
      match py_int (dict_get question_info key_difficulty default_difficulty) with
      | Some d =>
        ([], Ok (Some (dict_get question_info key_story [],
                       dict_get question_info key_solution [],
                       {| md_id := dict_get question_info key_ID [];
                          md_title := dict_get question_info key_title [];
                          md_difficulty := d;
                          md_tags := tags_of (dict_get question_info key_tags []) |})))
      | None => ([WarnParseQuestion ValueError], Ok None)
      end
    else ([], Ok None).
Proof.
  intros Hinfo. unfold _parse_question_block. rewrite Hinfo.
  destruct (has_required_keys question_info) eqn:Hk; [|reflexivity].
  destruct (has_required_keys_lookup _ Hk) as (i & story & solution & Hi & Hst & Hsol).
  unfold build_question, difficulty_of, dict_index, dict_get.
  destruct (py_int _); simpl; [|reflexivity].
  now rewrite Hst, Hsol.
Qed.

Lemma parse_question_block_ok (block : pystr) :
  exists logs data, _parse_question_block block = (logs, Ok data).
Proof.
  destruct (question_info_of_ok block) as [info Hinfo].
  rewrite (parse_question_block_cases _ _ Hinfo).
  destruct (has_required_keys info); [destruct (py_int _)|]; eauto.
Qed.

(** The loop over the blocks never stops on an exception, and what it
    collects are the records of its blocks. *)
Lemma parse_blocks_ok (question_blocks : list pystr) :
  exists logs questions,
    parse_blocks question_blocks = (logs, Ok questions)
    /\ forall r, In r questions ->
         exists block, In block question_blocks
           /\ snd (_parse_question_block (str_strip block)) = Ok (Some r).
Proof.
  induction question_blocks as [|block0 rest IH].
  - exists [], []. split; [reflexivity|]. intros r [].
  - destruct IH as (logs' & questions & Hrest & Hfrom). cbn [parse_blocks].
    destruct (negb (truthy (str_strip block0)) || _).
    + exists logs', questions. split; [exact Hrest|].
      intros r Hr. destruct (Hfrom r Hr) as (b & Hb & Hp). exists b. simpl. auto.
    + destruct (parse_question_block_ok (str_strip block0)) as (logs & data & Hblock).
      rewrite Hblock, Hrest. eexists _, _. split; [reflexivity|].
      intros r Hr. destruct data as [q|].
      * destruct Hr as [<-|Hr].
        -- exists block0. split; [now left|]. now rewrite Hblock.
        -- destruct (Hfrom r Hr) as (b & Hb & Hp). exists b. simpl. auto.
      * destruct (Hfrom r Hr) as (b & Hb & Hp). exists b. simpl. auto.
Qed.

(** The loop collects the record of every block that is neither blank nor
    a comment and yields one, whatever the blocks around it, and nothing
    else. *)
Lemma parse_blocks_records (question_blocks : list pystr)
    (logs : list log_record) (questions : list question_t) :
  parse_blocks question_blocks = (logs, Ok questions) ->
  forall r,
    In r questions <->
    exists block, In block question_blocks
      /\ truthy (str_strip block) = true
      /\ str_startswith (str_strip block) str_hash = false
      /\ snd (_parse_question_block (str_strip block)) = Ok (Some r).
Proof.
  revert logs questions.
  induction question_blocks as [|block0 rest IH]; intros logs questions.
  - cbn [parse_blocks]. intros [= <- <-] r. split; [intros []|].
    intros (block & [] & _).
  - cbn [parse_blocks].
    destruct (negb (truthy (str_strip block0)) || _) eqn:Hskip.
    + intros Hrest r. rewrite (IH _ _ Hrest r). split.
      * intros (block & Hin & Hrec). exists block. split; [now right | exact Hrec].
      * intros (block & [<-|Hin] & Ht & Hh & Hrec); [|exists block; auto].
        rewrite Ht, Hh in Hskip. discriminate.
    + apply orb_false_elim in Hskip as [Ht Hh]. apply negb_false_iff in Ht.
      destruct (_parse_question_block (str_strip block0)) as [logs0 [data|e]] eqn:Hblock;
        [|discriminate].
      destruct (parse_blocks rest) as [logs' [questions'|e]]; [|discriminate].
      intros [= <- <-] r. specialize (IH _ _ eq_refl r). split.
      * intros Hr.
        assert (Hcases : data = Some r \/ In r questions').
        { destruct data as [q|]; [destruct Hr as [<-|Hr]|]; auto. }
        destruct Hcases as [->|Hr'].
        -- exists block0. split; [now left|]. now rewrite Hblock.
        -- apply IH in Hr' as (block & Hin & Hrec). exists block. split; [now right | exact Hrec].
      * intros (block & [<-|Hin] & Ht' & Hh' & Hrec).
        -- rewrite Hblock in Hrec. cbn [snd] in Hrec. injection Hrec as ->. now left.
        -- assert (Hr' : In r questions') by (apply IH; exists block; auto).
           destruct data; [now right | exact Hr'].
Qed.

End BankFacts.

Section BankTheorems.
Context `{Builtins}.

(** Claim C3 (amended). Every record of the parsed bank is a built-in
    default or comes from a block of the file, neither blank nor a
    comment, that has the keys ID, 汤面 and 汤底 and whose difficulty text
    (default 3) is an integer: its id, story and solution are the values
    of those keys, empty or not, and its difficulty is that integer,
    whatever its size.  A block without a required key is dropped without
    a warning, a block whose difficulty is not an integer is dropped with
    one; reading a block and walking the blocks never raise, and dropping
    a block does not stop the parsing: every block of the file that is
    neither blank nor a comment, has the three keys and an integer
    difficulty gives its record to the bank, whatever the blocks before
    it. *)
Theorem parse_bank_records :
  (forall file_content r,
      In r (snd (_parse_questions_bank (Ok file_content))) ->
      In r _get_default_questions \/
      exists block question_info,
        In block (question_blocks_of file_content)
        /\ str_strip block <> []
        /\ str_startswith (str_strip block) str_hash = false
        /\ question_info_of (str_strip block) = Ok question_info
        /\ question_info !! key_ID = Some (md_id (snd r))
        /\ question_info !! key_story = Some (fst (fst r))
        /\ question_info !! key_solution = Some (snd (fst r))
        /\ py_int (dict_get question_info key_difficulty default_difficulty)
           = Some (md_difficulty (snd r)))
  /\ (forall block question_info,
        question_info_of block = Ok question_info ->
        has_required_keys question_info = false ->
        _parse_question_block block = ([], Ok None))
  /\ (forall block question_info,
        question_info_of block = Ok question_info ->
        has_required_keys question_info = true ->
        py_int (dict_get question_info key_difficulty default_difficulty) = None ->
        _parse_question_block block = ([WarnParseQuestion ValueError], Ok None))
  /\ (forall file_content, exists logs questions,
        parse_blocks (question_blocks_of file_content) = (logs, Ok questions))
  /\ (forall block, exists question_info, question_info_of block = Ok question_info)
  /\ (forall file_content block question_info id story solution d,
        In block (question_blocks_of file_content) ->
        str_strip block <> [] ->
        str_startswith (str_strip block) str_hash = false ->
        question_info_of (str_strip block) = Ok question_info ->
        question_info !! key_ID = Some id ->
        question_info !! key_story = Some story ->
        question_info !! key_solution = Some solution ->
        py_int (dict_get question_info key_difficulty default_difficulty) = Some d ->
        In (story, solution,
            {| md_id := id; md_title := dict_get question_info key_title [];
               md_difficulty := d;
               md_tags := tags_of (dict_get question_info key_tags []) |})
           (snd (_parse_questions_bank (Ok file_content)))).
Proof.
  split; [|split; [|split; [|split; [|split]]]].
  - intros file_content r Hr.
    destruct (parse_blocks_ok (question_blocks_of file_content))
      as (logs & questions & Hparse & _).
    unfold _parse_questions_bank in Hr. rewrite Hparse in Hr.
    destruct questions as [|q questions]; [now left|]. right.
    apply (parse_blocks_records _ _ _ Hparse) in Hr as (block & Hblock & Ht & Hh & Hdata).
    destruct (question_info_of_ok (str_strip block)) as [info Hinfo].
    rewrite (parse_question_block_cases _ _ Hinfo) in Hdata.
    exists block, info.
    destruct (has_required_keys info) eqn:Hk; [|discriminate].
    destruct (has_required_keys_lookup _ Hk) as (i & story & solution & Hi & Hst & Hsol).
    destruct (py_int _) as [d|] eqn:Hd; [|discriminate].
    simpl in Hdata. injection Hdata as <-. unfold dict_get. simpl.
    rewrite Hi, Hst, Hsol. simpl.
    split; [exact Hblock|]. split; [now destruct (str_strip block)|]. auto 10.
  - intros block info Hinfo Hk.
    now rewrite (parse_question_block_cases _ _ Hinfo), Hk.
  - intros block info Hinfo Hk Hd.
    now rewrite (parse_question_block_cases _ _ Hinfo), Hk, Hd.
  - intros file_content.
    destruct (parse_blocks_ok (question_blocks_of file_content))
      as (logs & questions & Hparse & _). eauto.
  - apply question_info_of_ok.
  - intros file_content block info i story solution d Hblock Hne Hh Hinfo Hi Hst Hsol Hd.
    destruct (parse_blocks_ok (question_blocks_of file_content))
      as (logs & questions & Hparse & _).
    set (r := (story, solution,
               {| md_id := i; md_title := dict_get info key_title [];
                  md_difficulty := d;
                  md_tags := tags_of (dict_get info key_tags []) |})).
    assert (Hr : In r questions).
    { apply (parse_blocks_records _ _ _ Hparse). exists block.
      split; [exact Hblock|]. split; [now destruct (str_strip block)|].
      split; [exact Hh|].
      rewrite (parse_question_block_cases _ _ Hinfo).
      unfold has_required_keys, dict_has.
      rewrite !bool_decide_eq_true_2 by (rewrite ?Hi, ?Hst, ?Hsol; eauto).
      cbn [andb]. rewrite Hd. unfold r, dict_get. now rewrite Hi, Hst, Hsol. }
    unfold _parse_questions_bank. rewrite Hparse.
    destruct questions as [|q questions]; [destruct Hr | exact Hr].
Qed.

End BankTheorems.

(** Witness of C3 (amended): in the file with gaps the block of id 022
    follows a comment, a block without solution and a block whose
    difficulty is no integer, and gives its record; every record of the
    bank read from that file comes from a block. *)
Lemma parse_bank_records_witness :
  let r := (py "门后面是什么", py "一面镜子",
            {| md_id := py "022"; md_title := py "门后"; md_difficulty := 2;
               md_tags := [py "镜子"] |}) in
  In r (snd (@_parse_questions_bank ascii_builtins (Ok sample_bank_gaps)))
  /\ (In r _get_default_questions \/
      exists block question_info,
        In block (question_blocks_of sample_bank_gaps)
        /\ str_strip block <> []
        /\ str_startswith (str_strip block) str_hash = false
        /\ question_info_of (str_strip block) = Ok question_info
        /\ question_info !! key_ID = Some (md_id (snd r))
        /\ question_info !! key_story = Some (fst (fst r))
        /\ question_info !! key_solution = Some (snd (fst r))
        /\ ascii_int (dict_get question_info key_difficulty default_difficulty)
           = Some (md_difficulty (snd r))).
Proof.
  intros r.
  set (block := nth 3 (question_blocks_of sample_bank_gaps) []).
  set (question_info := match question_info_of (str_strip block) with
                        | Ok question_info => question_info
                        | Raise _ => ∅
                        end).
  pose proof (proj2 (proj2 (proj2 (proj2 (proj2 (@parse_bank_records ascii_builtins)))))
                sample_bank_gaps block question_info (py "022") (py "门后面是什么")
                (py "一面镜子") 2%Z) as Hkept.
  assert (Hr : In r (snd (@_parse_questions_bank ascii_builtins (Ok sample_bank_gaps)))).
  { apply Hkept.
    - vm_compute. do 3 right. left. reflexivity.
    - vm_compute. discriminate.
    - vm_compute. reflexivity.
    - vm_compute. reflexivity.
    - vm_compute. reflexivity.
    - vm_compute. reflexivity.
    - vm_compute. reflexivity.
    - vm_compute. reflexivity. }
  split; [exact Hr|].
  exact (proj1 (@parse_bank_records ascii_builtins) sample_bank_gaps r Hr).
Defined.

(** Counterexample to C3: the sample file yields a record with an empty
    story and difficulty 9. *)
Lemma parse_bank_record_out_of_range :
  exists r,
    In r (snd (@_parse_questions_bank ascii_builtins (Ok sample_bank_file)))
    /\ fst (fst r) = []
    /\ ~ (1 <= md_difficulty (snd r) <= 5)%Z.
Proof.
  exists ([], py "他其实是灯塔管理员",
          {| md_id := py "007"; md_title := py "无题"; md_difficulty := 9;
             md_tags := [] |}).
  split; [|split].
  - vm_compute. left. reflexivity.
  - reflexivity.
  - simpl. lia.
Qed.


(** ** The turn engine *)

Lemma dict_has_true {V} (d : gmap pystr V) (k : pystr) (v : V) :
  d !! k = Some v -> dict_has d k = true.
Proof. intros Hk. apply bool_decide_eq_true. eauto. Qed.

Lemma dict_has_false {V} (d : gmap pystr V) (k : pystr) :
  d !! k = None -> dict_has d k = false.
Proof.
  intros Hk. apply bool_decide_eq_false. rewrite Hk. intros [v Hv]. discriminate.
Qed.

Lemma dict_has_insert {V} (d : gmap pystr V) (k : pystr) (v : V) :
  dict_has (<[k := v]> d) k = true.
Proof. apply (dict_has_true _ _ v), lookup_insert_eq. Qed.

(** Cleaning up a session removes its key and leaves the others alone. *)
Lemma cleanup_lookup (k' k : pystr) (w : World) :
  game_states (_cleanup_game_session k' w) !! k =
  if decide (k = k') then None else game_states w !! k.
Proof.
  unfold _cleanup_game_session.
  destruct (game_states w !! k') as [g|] eqn:Hk'.
  - destruct (controller g); simpl;
      (destruct (decide (k = k')) as [->|Hne];
       [apply lookup_delete_eq | now apply lookup_delete_ne]).
  - destruct (decide (k = k')) as [->|Hne]; [exact Hk' | reflexivity].
Qed.

Lemma cleanup_sent (k : pystr) (w : World) :
  sent (_cleanup_game_session k w) = sent w.
Proof.
  unfold _cleanup_game_session. destruct (game_states w !! k) as [g|]; [|reflexivity].
  now destruct (controller g).
Qed.

Lemma keep_alive_game_states (self : Plugin) (env : Env) (g : GameState) (w : World) :
  game_states (keep_alive self env g w) = game_states w.
Proof. unfold keep_alive. now destruct (controller g). Qed.

Lemma keep_alive_sent (self : Plugin) (env : Env) (g : GameState) (w : World) :
  sent (keep_alive self env g w) = sent w.
Proof. unfold keep_alive. now destruct (controller g). Qed.

Section EngineFacts.
Context `{Builtins}.

(** Claim C9. A start issued while a session exists for the key only sends the
    already-in-progress notice: through the command handler nothing else
    changes, and through the session's own turn handler the store of
    sessions (every record, count and context) is left as it was. *)
Theorem start_while_active_no_mutation (self : Plugin) (env : Env)
    (event : Event) (w : World) (game_state : GameState) :
  game_states w !! _get_session_key event = Some game_state ->
  (let w' := start_turtle_soup self env event w in
   game_states w' = game_states w /\ timers w' = timers w
   /\ sent w' = sent w ++ [MSG_GAME_IN_PROGRESS])
  /\ (str_startswith (str_strip (message_str event)) cmd_start = true ->
      let w' := _handle_game_turn self env event w in
      game_states w' = game_states w
      /\ sent w' = sent w ++ [MSG_GAME_IN_PROGRESS]).
Proof.
  intros Hactive. split.
  - unfold start_turtle_soup. rewrite (dict_has_true _ _ _ Hactive). simpl. auto.
  - intros Hstart. unfold _handle_game_turn. rewrite Hactive, Hstart. simpl.
    now rewrite keep_alive_game_states, keep_alive_sent.
Qed.

Lemma str_zfill_nonempty (part : pystr) :
  exists c s, str_zfill 3 part = c :: s.
Proof.
  unfold str_zfill. destruct part as [|c0 [|c1 [|c2 r]]]; simpl; eauto.
  - destruct ((c0 =? 43) || (c0 =? 45)); eauto.
  - destruct ((c0 =? 43) || (c0 =? 45)); eauto.
Qed.

Lemma find_id_none (questions_bank : list question_t) (question_id : pystr) :
  (forall r, In r questions_bank -> md_id (snd r) <> question_id) ->
  List.find (fun '(_, _, metadata) => str_eqb (md_id metadata) question_id)
            questions_bank = None.
Proof.
  intros Hnone. apply find_none. apply List.Forall_forall.
  intros [[q a] m] Hr. apply bool_decide_eq_false. exact (Hnone _ Hr).
Qed.

End EngineFacts.


(** ** The sampling loop of change-question *)

Lemma change_question_loop_spec (self : Plugin) (env : Env) (current : pystr)
    (fuel attempts : nat) (new0 : option question_t) :
  let result := change_question_loop self env current fuel attempts new0 in
  (attempts <= snd result <= attempts + fuel)%nat
  /\ (forall j, (attempts <= j < snd result)%nat ->
        is_new_question current (sample_at self env j) = false)
  /\ ((snd result < attempts + fuel)%nat ->
        fst result = sample_at self env (snd result)
        /\ is_new_question current (sample_at self env (snd result)) = true).
Proof.
  revert attempts new0. induction fuel as [|fuel IH]; intros attempts new0; simpl.
  - repeat split; lia.
  - fold (sample_at self env attempts).
    destruct (is_new_question current (sample_at self env attempts)) eqn:Hnew; simpl.
    + repeat split; try lia; auto.
    + destruct (IH (S attempts) (sample_at self env attempts)) as (Hb & Hfail & Hbreak).
      split; [lia|]. split.
      * intros j Hj. destruct (decide (j = attempts)) as [->|Hne]; [exact Hnew|].
        apply Hfail. lia.
      * intros Hlt. apply Hbreak. lia.
Qed.

(** A loop that used up its fuel ends on the last sample drawn. *)
Lemma change_question_loop_last (self : Plugin) (env : Env) (current : pystr)
    (fuel attempts : nat) (new0 : option question_t) :
  (0 < fuel)%nat ->
  snd (change_question_loop self env current fuel attempts new0) = (attempts + fuel)%nat ->
  fst (change_question_loop self env current fuel attempts new0)
    = sample_at self env (attempts + fuel - 1).
Proof.
  revert attempts new0. induction fuel as [|fuel IH]; intros attempts new0 Hpos; [lia|].
  cbn [change_question_loop]. fold (sample_at self env attempts).
  destruct (is_new_question current (sample_at self env attempts)) eqn:Hnew.
  - cbn [fst snd]. lia.
  - destruct fuel as [|fuel'].
    + cbn [change_question_loop fst snd]. intros _. f_equal. lia.
    + intros Hsnd. replace (attempts + S (S fuel') - 1)%nat
        with (S attempts + S fuel' - 1)%nat by lia.
      apply IH; [lia|]. rewrite Hsnd. lia.
Qed.

Lemma sample_at_in_bank (self : Plugin) (env : Env) (i : nat) (r : question_t) :
  sample_at self env i = Some r -> In r (questions_bank self).
Proof.
  unfold sample_at, _get_question_and_answer.
  destruct (questions_bank self) as [|first rest]; [discriminate|].
  set (bank := first :: rest). intros Hs.
  assert (Hin : In (nth (draws env i mod length bank) bank first) bank)
    by (apply nth_In, Nat.mod_upper_bound; discriminate).
  congruence.
Qed.

(** Claim C7 (amended). The sampling loop of change-question stops after at
    most 10 failed attempts.  If one of the first 10 samples is a new
    question (non-empty story and solution, story different from the
    current one), the loop stops at the first such sample and returns
    it: a record of the bank with a story and a solution whose story
    differs from the current one, after as many failed attempts as
    there are samples before it.  If none of the first 10 samples is a
    new question, the loop ends after 10 failed attempts on the tenth
    sample. *)
Theorem change_question_loop_bounded (self : Plugin) (env : Env) (current : pystr) :
  let result := change_question_loop self env current max_attempts 0 None in
  (snd result <= max_attempts)%nat
  /\ (forall j, (j < snd result)%nat ->
        is_new_question current (sample_at self env j) = false)
  /\ (forall i, (i < max_attempts)%nat ->
        is_new_question current (sample_at self env i) = true ->
        exists question answer metadata,
          fst result = Some (question, answer, metadata)
          /\ fst result = sample_at self env (snd result)
          /\ (snd result <= i)%nat
          /\ is_new_question current (fst result) = true
          /\ question <> [] /\ answer <> []
          /\ question <> current
          /\ In (question, answer, metadata) (questions_bank self)
          /\ ((forall j, (j < i)%nat ->
                 is_new_question current (sample_at self env j) = false) ->
              result = (sample_at self env i, i)))
  /\ ((forall i, (i < max_attempts)%nat ->
         is_new_question current (sample_at self env i) = false) ->
      result = (sample_at self env (max_attempts - 1), max_attempts)).
Proof.
  destruct (change_question_loop_spec self env current max_attempts 0 None)
    as (Hb & Hfail & Hbreak).
  pose proof (change_question_loop_last self env current max_attempts 0 None) as Hlast.
  cbv zeta in *. destruct (change_question_loop self env current max_attempts 0 None)
    as [new attempts]. simpl in *.
  split; [lia|]. split; [|split].
  - intros j Hj. apply Hfail. lia.
  - intros i Hi Hnew.
    assert (Hle : (attempts <= i)%nat).
    { apply Nat.nlt_ge. intros Hlt. rewrite Hfail in Hnew by lia. discriminate. }
    destruct Hbreak as [Hres Hok]; [lia|]. rewrite <- Hres in Hok.
    destruct new as [[[q a] m]|]; [|discriminate].
    exists q, a, m.
    pose proof Hok as Htest. simpl in Htest.
    apply andb_prop in Htest as [Htruthy Hne].
    apply andb_prop in Htruthy as [Hq Ha].
    apply negb_true_iff, bool_decide_eq_false in Hne.
    split; [reflexivity|]. split; [exact Hres|]. split; [exact Hle|].
    split; [exact Hok|]. split; [now destruct q|]. split; [now destruct a|].
    split; [exact Hne|]. split.
    + eapply sample_at_in_bank. symmetry. exact Hres.
    + intros Hfirst.
      assert (attempts = i) as <-.
      { apply Nat.le_antisymm; [exact Hle|]. apply Nat.nlt_ge. intros Hlt.
        pose proof (Hfirst attempts Hlt) as Hf. rewrite <- Hres in Hf. congruence. }
      now rewrite <- Hres.
  - intros Hnone.
    assert (attempts = max_attempts) as ->.
    { apply Nat.le_antisymm; [lia|]. apply Nat.nlt_ge. intros Hlt.
      destruct Hbreak as [_ Hok]; [lia|]. rewrite Hnone in Hok by exact Hlt.
      discriminate. }
    rewrite Hlast by (unfold max_attempts; lia). reflexivity.
Qed.

(** Witness of C7 (amended): with the two built-in puzzles and the draws
    0, 1, 2, ... the second sample is the first new one. *)
Lemma change_question_loop_bounded_witness :
  let self := sample_plugin _get_default_questions in
  let env := {| get_using_provider := None; draws := fun i => i; now := 400 |} in
  change_question_loop self env (fst (fst lighthouse)) max_attempts 0 None
    = (sample_at self env 1, 1%nat)
  /\ exists question answer metadata,
       sample_at self env 1 = Some (question, answer, metadata)
       /\ question <> [] /\ answer <> [] /\ question <> fst (fst lighthouse).
Proof.
  intros self env.
  destruct (proj1 (proj2 (proj2 (change_question_loop_bounded self env
                                   (fst (fst lighthouse))))) 1%nat)
    as (q & a & m & Hres & _ & _ & _ & Hq & Ha & Hne & _ & Hfirst).
  - unfold max_attempts. lia.
  - vm_compute. reflexivity.
  - assert (Hloop : change_question_loop self env (fst (fst lighthouse)) max_attempts 0 None
                    = (sample_at self env 1, 1%nat)).
    { apply Hfirst. intros j Hj. assert (j = 0%nat) as -> by lia.
      vm_compute. reflexivity. }
    split; [exact Hloop|]. exists q, a, m. rewrite Hloop in Hres. cbn [fst] in Hres.
    repeat split; assumption.
Defined.

(** Counterexample to C7: with two records in the bank and every draw
    hitting the current one, the loop uses up its ten attempts and ends
    on the current record. *)
Lemma change_question_loop_may_return_current :
  let self := sample_plugin _get_default_questions in
  length (questions_bank self) = 2%nat
  /\ change_question_loop self sample_env (fst (fst lighthouse)) max_attempts 0 None
     = (Some lighthouse, 10%nat).
Proof. vm_compute. split; reflexivity. Qed.

(** Claim C2. Change-question in a bank of one record: no different record
    exists, yet the handler announces a new puzzle and resets the
    session (count back to 0, context emptied). *)
Theorem change_question_exhausted_resets_session :
  let self := sample_plugin [lighthouse] in
  let w := sample_world 3 in
  let w' := @change_question self sample_env (sample_event cmd_change) w in
  game_states w !! py "u1" = Some (sample_session 3)
  /\ fst (change_question_loop self sample_env (fst (fst lighthouse)) max_attempts 0 None)
     = Some lighthouse
  /\ game_states w' !! py "u1" = Some (sample_session 0)
  /\ sent w' = [MsgChangeSuccess (snd lighthouse) (fst (fst lighthouse)) 40].
Proof. vm_compute. repeat split; reflexivity. Qed.

(** Claim C8. Reveal-answer in an active session whose timer was started at
    time 0: handled at time 400, it answers and leaves the deadline at
    1000, where a reset would have moved it to 1400. *)
Theorem reveal_answer_keeps_old_deadline :
  let self := sample_plugin _get_default_questions in
  let w := sample_world 3 in
  let w' := @_handle_game_turn ascii_builtins self sample_env (sample_event cmd_reveal) w in
  sent w' = [MsgReveal (snd lighthouse) (fst (fst lighthouse)) (snd (fst lighthouse)) 3]
  /\ timers w' !! 7%nat = Some (Running 1000)
  /\ (now sample_env + session_timeout self = 1400)%Z
  /\ timers (@_handle_game_turn ascii_builtins self sample_env
               (sample_event cmd_help) w) !! 7%nat = Some (Running 1000)
  /\ timers (@_handle_game_turn ascii_builtins self sample_env
               (sample_event (py "随便说点什么")) w) !! 7%nat = Some (Running 1400).
Proof. vm_compute. repeat split; reflexivity. Qed.


Ltac store_simpl :=
  repeat first
    [ progress cbn [game_states send set_game_state controller_keep controller_stop
                    question_count with_question_count with_context with_controller
                    negb fst snd]
    | rewrite keep_alive_game_states
    | rewrite cleanup_lookup
    | rewrite dict_has_insert
    | rewrite lookup_insert_eq
    | rewrite lookup_insert_ne by congruence
    | rewrite decide_True by congruence
    | rewrite decide_False by congruence ].

Lemma only_removes_refl (w : World) : only_removes w w.
Proof. intros k. now right. Qed.

Lemma only_removes_trans (w1 w2 w3 : World) :
  only_removes w1 w2 -> only_removes w2 w3 -> only_removes w1 w3.
Proof.
  intros H12 H23 k. destruct (H23 k) as [Hn|He]; [now left|].
  rewrite He. apply H12.
Qed.

Lemma only_removes_same (w w' : World) :
  game_states w' = game_states w -> only_removes w w'.
Proof. intros He k. right. now rewrite He. Qed.

Lemma only_removes_cleanup (k : pystr) (w : World) :
  only_removes w (_cleanup_game_session k w).
Proof.
  intros k'. rewrite cleanup_lookup. destruct (decide (k' = k)); auto.
Qed.

Lemma only_removes_cleanup_list (keys : list pystr) (w : World) :
  only_removes w (foldl (fun w k => _cleanup_game_session k w) w keys).
Proof.
  revert w. induction keys as [|k keys IH]; intros w; simpl.
  - apply only_removes_refl.
  - eapply only_removes_trans; [apply only_removes_cleanup | apply IH].
Qed.

Lemma only_removes_admin (w : World) : only_removes w (_admin_end_all_games w).
Proof.
  unfold _admin_end_all_games. destruct (bool_decide _).
  - now apply only_removes_same.
  - intros k. cbn [game_states send]. apply (only_removes_cleanup_list _ w).
Qed.

Lemma only_removes_end (event : Event) (w : World) :
  only_removes w (end_turtle_soup event w).
Proof.
  unfold end_turtle_soup.
  destruct (game_states w !! _) as [g|]; [|now apply only_removes_same].
  apply (only_removes_cleanup _ (send _ w)).
Qed.

Lemma only_removes_force_end (event : Event) (w : World) :
  only_removes w (force_end_turtle_soup event w).
Proof.
  unfold force_end_turtle_soup.
  destruct (dict_has _ _); [|now apply only_removes_same].
  intros k. cbn [game_states send]. apply (only_removes_cleanup _ w).
Qed.

Lemma only_removes_reveal (event : Event) (w : World) :
  only_removes w (reveal_answer event w).
Proof.
  unfold reveal_answer. destruct (game_states w !! _); now apply only_removes_same.
Qed.

Lemma only_removes_count (w w' : World) (k : pystr) (g g' : GameState) :
  only_removes w w' ->
  game_states w !! k = Some g -> game_states w' !! k = Some g' -> g' = g.
Proof. intros Hr Hg Hg'. destruct (Hr k) as [Hn|He]; congruence. Qed.

Section CountFacts.
Context `{Builtins}.

Lemma judge_response_count (env : Env) (question : pystr) (g : GameState)
    (sid : pystr) :
  question_count (fst (_get_ai_judge_response env question g sid)) = question_count g.
Proof.
  unfold _get_ai_judge_response. destruct (get_using_provider env); [|reflexivity].
  now destruct (text_chat _ _ _ _).
Qed.

(** A handled question leaves the other sessions alone and, if the
    session is still there, has added one to its count. *)
Lemma handle_question_lookup (self : Plugin) (env : Env) (event : Event)
    (question : pystr) (w : World) :
  let w' := _handle_turtle_soup_question self env event question w in
  (forall k, k <> _get_session_key event -> game_states w' !! k = game_states w !! k)
  /\ (forall g g', game_states w !! _get_session_key event = Some g ->
        game_states w' !! _get_session_key event = Some g' ->
        question_count g' = (question_count g + 1)%Z).
Proof.
  unfold _handle_turtle_soup_question.
  destruct (game_states w !! _get_session_key event) as [g0|] eqn:Hactive.
  2:{ split; [reflexivity | congruence]. }
  pose proof (judge_response_count env question
                (with_question_count (question_count g0 + 1) g0) (session_id event)) as Hjudge.
  destruct (_get_ai_judge_response _ _ _ _) as [g1 reply]. simpl in Hjudge.
  destruct (is_a_guess question); [destruct (_is_answer_correct _ _ _ _ _)|];
    store_simpl; cbv iota beta; try destruct (_ <? _)%Z; try destruct reply; store_simpl.
  all: split; [intros k Hk; store_simpl; reflexivity|].
  all: intros g g' [= <-]; store_simpl; try discriminate; intros [= <-]; try exact Hjudge.
  all: try reflexivity.
Qed.


(** Change-question touches the count of its own session only, and can
    only set it to 0. *)
Lemma change_question_lookup (self : Plugin) (env : Env) (event : Event) (w : World) :
  let w' := change_question self env event w in
  (forall k, k <> _get_session_key event -> game_states w' !! k = game_states w !! k)
  /\ (forall g g', game_states w !! _get_session_key event = Some g ->
        game_states w' !! _get_session_key event = Some g' ->
        question_count g' = question_count g \/ question_count g' = 0%Z).
Proof.
  unfold change_question.
  destruct (game_states w !! _get_session_key event) as [g0|] eqn:Hactive.
  2:{ split; [reflexivity | congruence]. }
  destruct (fst (change_question_loop _ _ _ _ _ _)) as [[[q a] m]|].
  2:{ split; [reflexivity|]. intros g g' [= <-]. cbn [game_states send]. left. congruence. }
  destruct (negb (truthy q) || negb (truthy a)).
  { split; [reflexivity|]. intros g g' [= <-]. cbn [game_states send]. left. congruence. }
  split.
  - intros k Hk. store_simpl. reflexivity.
  - intros g g' _. store_simpl. intros [= <-]. now right.
Qed.

(** A text that starts with the question command is none of the other
    commands [_handle_game_turn] tests before it. *)
Lemma question_command_not_control (player_input : pystr) :
  str_startswith player_input cmd_question = true ->
  str_startswith player_input cmd_start = false
  /\ str_eqb player_input cmd_end = false
  /\ str_eqb player_input cmd_force_end = false
  /\ str_eqb player_input cmd_reveal = false
  /\ str_eqb player_input cmd_change = false
  /\ str_eqb player_input cmd_help = false.
Proof.
  intros Hq. unfold cmd_question in Hq.
  destruct player_input as [|c0 [|c1 [|c2 [|c3 r]]]];
    cbn [str_startswith] in Hq; rewrite ?andb_false_r in Hq; try discriminate Hq.
  repeat (apply andb_prop in Hq as [?Hc Hq]).
  repeat match goal with Hc : (_ =? _) = true |- _ => apply N.eqb_eq in Hc; subst end.
  split; [reflexivity|].
  repeat split; apply bool_decide_eq_false; discriminate.
Qed.

(** The count of a session across one message handled by [_handle_game_turn]. *)
Lemma handle_game_turn_count (self : Plugin) (env : Env) (event : Event)
    (w : World) (k : pystr) (g g' : GameState) :
  game_states w !! k = Some g ->
  game_states (_handle_game_turn self env event w) !! k = Some g' ->
  let player_input := str_strip (message_str event) in
  let submits :=
    _get_session_key event = k
    /\ str_startswith player_input cmd_question = true
    /\ is_Some (question_text player_input) in
  (submits -> question_count g' = (question_count g + 1)%Z)
  /\ (~ submits ->
      question_count g' = question_count g
      \/ ((_get_session_key event = k /\ player_input = cmd_change)
          /\ question_count g' = 0%Z)).
Proof.
  intros Hg Hg' player_input submits. unfold _handle_game_turn in Hg'.
  fold player_input in Hg'. split.
  - intros (Hk & Hq & [q Hqt]).
    destruct (question_command_not_control _ Hq) as (-> & -> & -> & -> & -> & ->) in Hg'.
    rewrite Hk, Hg, Hq, Hqt in Hg'.
    eapply (proj2 (handle_question_lookup self env event q w)); rewrite ?Hk; eauto.
  - intros Hns.
    destruct (game_states w !! _get_session_key event) as [g0|] eqn:Hactive;
      [|left; congruence].
    destruct (str_startswith player_input cmd_start).
    { left. rewrite keep_alive_game_states in Hg'. cbn in Hg'. congruence. }
    destruct (str_eqb player_input cmd_end).
    { left. f_equal. eapply only_removes_count; eauto using only_removes_end. }
    destruct (str_eqb player_input cmd_force_end).
    { left. f_equal. eapply only_removes_count; eauto using only_removes_force_end. }
    destruct (str_eqb player_input cmd_reveal).
    { left. f_equal. eapply only_removes_count; eauto using only_removes_reveal. }
    destruct (str_eqb player_input cmd_change) eqn:Hchange.
    { apply bool_decide_eq_true in Hchange.
      destruct (change_question_lookup self env event w) as [Hother Hself].
      destruct (decide (k = _get_session_key event)) as [->|Hne].
      - destruct (Hself _ _ Hg Hg'); auto.
      - left. rewrite Hother in Hg' by exact Hne. congruence. }
    destruct (str_eqb player_input cmd_help).
    { left. cbn in Hg'. congruence. }
    destruct (str_startswith player_input cmd_question) eqn:Hq.
    { destruct (question_text player_input) as [q|] eqn:Hqt.
      - destruct (decide (k = _get_session_key event)) as [->|Hne].
        + exfalso. apply Hns. repeat split; eauto.
        + left. rewrite (proj1 (handle_question_lookup self env event q w)) in Hg'
            by exact Hne. congruence.
      - left. cbn in Hg'. congruence. }
    destruct (str_eqb player_input cmd_admin_end && is_admin event).
    { left. f_equal. eapply only_removes_count; eauto using only_removes_admin. }
    destruct (controller g0).
    + left. cbn in Hg'. congruence.
    + left. f_equal. eapply only_removes_count; eauto using only_removes_cleanup.
Qed.

(** A guess that is not correct, within the budget, leaves the session
    in place with one question more. *)
Lemma incorrect_guess_consumes_slot (self : Plugin) (env : Env) (event : Event)
    (question : pystr) (w : World) (g : GameState) :
  game_states w !! _get_session_key event = Some g ->
  is_a_guess question = true ->
  _is_answer_correct self env question (answer g) (session_id event) = false ->
  (question_count g + 1 <= max_questions self)%Z ->
  exists g',
    game_states (_handle_turtle_soup_question self env event question w)
      !! _get_session_key event = Some g'
    /\ question_count g' = (question_count g + 1)%Z.
Proof.
  intros Hactive Hguess Hwrong Hbudget. unfold _handle_turtle_soup_question.
  rewrite Hactive, Hguess. cbn [answer with_question_count]. rewrite Hwrong.
  pose proof (judge_response_count env question
                (with_question_count (question_count g + 1) g) (session_id event)) as Hjudge.
  destruct (_get_ai_judge_response _ _ _ _) as [g1 reply]. simpl in Hjudge.
  store_simpl. cbv iota beta.
  assert (Hlt : (max_questions self <? question_count g + 1)%Z = false)
    by (apply Z.ltb_ge; exact Hbudget).
  rewrite Hlt. destruct reply; store_simpl; eauto.
Qed.

Lemma list_questions_game_states (self : Plugin) (event : Event) (w : World) :
  game_states (list_questions self event w) = game_states w.
Proof.
  unfold list_questions. destruct (questions_bank self); [reflexivity|].
  destruct (str_split_ws None (message_str event)) as [|? [|part ?]]; try reflexivity.
  now destruct (py_int part).
Qed.

Lemma question_detail_game_states (self : Plugin) (env : Env) (event : Event)
    (w : World) :
  game_states (question_detail self env event w) = game_states w.
Proof.
  unfold question_detail.
  destruct (str_split_ws None (message_str event)) as [|? [|part ?]]; try reflexivity.
  destruct (_get_question_and_answer _ _ _) as [[[[|? ?] ?] ?]|]; reflexivity.
Qed.

(** Claim C5. Across any operation of the plugin, the count of a session that
    exists before and after is one more exactly when the operation is an
    accepted question submission of that session (whether or not the
    question is then classified as a guess); otherwise it is unchanged,
    or it is 0 and the operation is the change-question command of that
    session. *)
Theorem question_count_steps (self : Plugin) (env : Env) (op : operation)
    (w : World) (k : pystr) (g g' : GameState) :
  game_states w !! k = Some g ->
  game_states (run self env op w) !! k = Some g' ->
  (submits_question op k -> question_count g' = (question_count g + 1)%Z)
  /\ (~ submits_question op k ->
      question_count g' = question_count g
      \/ (changes_question op k /\ question_count g' = 0%Z)).
Proof.
  intros Hg Hg'. destruct op as [event|outcome event|sk c event|event|event|event
                                 |event|event|event|event|event|event|]; simpl in *.
  - (* start *)
    split; [tauto|]. intros _. left. revert Hg'. unfold start_turtle_soup.
    destruct (dict_has _ (_get_session_key event)) eqn:Hhas; [cbn; congruence|].
    assert (Hne : k <> _get_session_key event).
    { intros ->. rewrite (dict_has_true _ _ _ Hg) in Hhas. discriminate. }
    destruct (if (1 <? _)%nat then _ else _) as [sid|[]]; try (cbn; congruence).
    destruct (_get_question_and_answer _ _ _) as [[[q a] m]|].
    2:{ destruct sid as [[|? ?]|]; cbn; congruence. }
    destruct (negb (truthy q) || negb (truthy a)).
    { destruct sid as [[|? ?]|]; cbn; congruence. }
    destruct (get_using_provider env); store_simpl; congruence.
  - (* the waiter of a start returns *)
    split; [tauto|]. intros _. left. f_equal. revert Hg'. unfold start_turtle_soup_exit.
    intros Hg'. eapply only_removes_count; [|exact Hg|exact Hg'].
    destruct outcome; try apply only_removes_cleanup;
      apply (only_removes_cleanup _ (send _ w)).
  - (* a message of the session *)
    unfold turtle_soup_waiter in Hg'.
    set (w1 := match game_states w !! sk with
               | Some cur => match controller cur with
                             | None => set_game_state sk (with_controller (Some c) cur) w
                             | Some _ => w
                             end
               | None => w
               end) in Hg'.
    assert (Hw1 : exists g1, game_states w1 !! k = Some g1
                             /\ question_count g1 = question_count g).
    { subst w1. destruct (game_states w !! sk) as [cur|] eqn:Hsk; [|eauto].
      destruct (controller cur); [eauto|].
      destruct (decide (k = sk)) as [->|Hne]; store_simpl; [|eauto].
      eexists. split; [reflexivity|]. cbn. congruence. }
    destruct Hw1 as (g1 & Hg1 & <-).
    exact (handle_game_turn_count self env event w1 k g1 g' Hg1 Hg').
  - split; [tauto|]. intros _. left. f_equal.
    eapply only_removes_count; eauto using only_removes_end.
  - split; [tauto|]. intros _. left. f_equal.
    eapply only_removes_count; eauto using only_removes_force_end.
  - split; [tauto|]. intros _. left. f_equal.
    eapply only_removes_count; eauto using only_removes_reveal.
  - (* the change-question command *)
    split; [tauto|]. intros _.
    destruct (change_question_lookup self env event w) as [Hother Hself].
    destruct (decide (k = _get_session_key event)) as [->|Hne].
    + destruct (Hself _ _ Hg Hg'); auto.
    + left. rewrite Hother in Hg' by exact Hne. congruence.
  - (* the question command *)
    unfold cmd_turtle_soup_question in Hg'.
    destruct (dict_has _ (_get_session_key event)) eqn:Hhas; cbn [negb] in Hg'.
    + destruct (question_text (message_str event)) as [q|] eqn:Hqt.
      * destruct (handle_question_lookup self env event q w) as [Hother Hself].
        split.
        -- intros [<- _]. eauto.
        -- intros Hns. left.
           destruct (decide (k = _get_session_key event)) as [->|Hne].
           ++ exfalso. apply Hns. split; eauto.
           ++ rewrite Hother in Hg' by exact Hne. congruence.
      * split; [|left; cbn in Hg'; congruence].
        intros [_ [q Hq]]. discriminate.
    + split; [|left; cbn in Hg'; congruence].
      intros [<- _]. rewrite (dict_has_true _ _ _ Hg) in Hhas. discriminate.
  - (* the admin command *)
    split; [tauto|]. intros _. left. f_equal.
    unfold cmd_admin_end_all_turtle_games in Hg'.
    destruct (negb (is_admin event)); [cbn in Hg'; congruence|].
    eapply only_removes_count; eauto using only_removes_admin.
  - split; [tauto|]. intros _. left. cbn in Hg'. congruence.
  - split; [tauto|]. intros _. left. rewrite list_questions_game_states in Hg'. congruence.
  - split; [tauto|]. intros _. left. rewrite question_detail_game_states in Hg'. congruence.
  - split; [tauto|]. intros _. left. f_equal.
    eapply only_removes_count; [|exact Hg|exact Hg'].
    apply (only_removes_cleanup_list _ w).
Qed.

End CountFacts.

(** ** The statements at concrete inputs *)

(** Witness of C9: user [u1], three questions into a game, sends the
    start command again. *)
Lemma start_while_active_no_mutation_witness :
  let self := sample_plugin _get_default_questions in
  let w := sample_world 3 in
  let event := sample_event (py "开始海龟汤 2") in
  game_states (start_turtle_soup self sample_env event w) = game_states w
  /\ sent (start_turtle_soup self sample_env event w) = [MSG_GAME_IN_PROGRESS]
  /\ game_states (@_handle_game_turn ascii_builtins self sample_env event w)
     = game_states w.
Proof.
  intros self w event.
  destruct (@start_while_active_no_mutation ascii_builtins self sample_env event w
              (sample_session 3)) as [Hcommand Hturn].
  - vm_compute. reflexivity.
  - destruct Hcommand as (Hstore & _ & Hsent).
    destruct Hturn as [Hstore' _]; [vm_compute; reflexivity|].
    repeat split; assumption.
Defined.

(** Witness of C5: the fourth question of user [u1]. *)
Lemma question_count_steps_witness :
  let self := sample_plugin _get_default_questions in
  let op := OpWaiter (py "u1") 7%nat (sample_event (py "海龟汤提问 他是故意的吗")) in
  exists game_state,
    game_states (@run ascii_builtins self sample_env op (sample_world 3)) !! py "u1"
      = Some game_state
    /\ question_count game_state = 4%Z.
Proof.
  intros self op.
  destruct (game_states (@run ascii_builtins self sample_env op (sample_world 3))
              !! py "u1") as [game_state|] eqn:Hafter; [|vm_compute in Hafter; discriminate].
  exists game_state. split; [reflexivity|].
  apply (proj1 (@question_count_steps ascii_builtins self sample_env op (sample_world 3)
                  (py "u1") (sample_session 3) game_state eq_refl Hafter)).
  split; [reflexivity|]. split; [vm_compute; reflexivity|].
  eexists. vm_compute. reflexivity.
Defined.

(** * Further properties *)


Lemma sessions_satisfy_only_removes (P : GameState -> Prop) (w w' : World) :
  only_removes w w' -> sessions_satisfy P w -> sessions_satisfy P w'.
Proof.
  intros Hr HP k g Hg. destruct (Hr k) as [Hn|He]; [congruence|].
  rewrite He in Hg. eauto.
Qed.

Lemma get_question_in_bank (questions_bank : list question_t) (rnd : nat)
    (question_id : option pystr) (r : question_t) :
  _get_question_and_answer questions_bank rnd question_id = Some r ->
  In r questions_bank.
Proof.
  unfold _get_question_and_answer.
  destruct questions_bank as [|first rest]; [discriminate|].
  set (bank := first :: rest).
  assert (Hin : In (nth (rnd mod length bank) bank first) bank)
    by (apply nth_In, Nat.mod_upper_bound; discriminate).
  destruct question_id as [[|c s]|]; try congruence.
  intros Hf. apply List.find_some in Hf. tauto.
Qed.

Lemma change_question_loop_sampled (self : Plugin) (env : Env) (current : pystr)
    (fuel attempts : nat) (new0 : option question_t) :
  fst (change_question_loop self env current fuel attempts new0) = new0
  \/ exists i, fst (change_question_loop self env current fuel attempts new0)
               = sample_at self env i.
Proof.
  revert attempts new0. induction fuel as [|fuel IH]; intros attempts new0; simpl.
  - now left.
  - fold (sample_at self env attempts).
    destruct (is_new_question current (sample_at self env attempts)); simpl; [eauto|].
    destruct (IH (S attempts) (sample_at self env attempts)) as [->|[i ->]]; eauto.
Qed.

Section Preservation.
Context `{Builtins}.

(** What the judge leaves in the game state: the context, longer by the
    turns of this exchange. *)
Lemma judge_response_shape (env : Env) (text : pystr) (g : GameState)
    (sid : pystr) :
  exists tail,
    fst (_get_ai_judge_response env text g sid)
      = with_context (llm_conversation_context g ++ tail) g
    /\ (get_using_provider env = None -> tail = [])
    /\ Forall (fun t : turn => fst t <> System) tail
    /\ match snd (_get_ai_judge_response env text g sid) with
       | Ok label =>
         In label valid_responses
         /\ (get_using_provider env <> None ->
             tail = [(User, text); (Assistant, label)])
       | Raise _ => tail = [(User, text)]
       end.
Proof.
  unfold _get_ai_judge_response. destruct (get_using_provider env) as [p|].
  - cbn [llm_conversation_context with_context].
    destruct (text_chat p _ _ _) as [completion|e]; cbn [fst snd].
    + exists [(User, text); (Assistant, _validate_ai_response (str_strip completion))].
      split; [|split; [discriminate|split; [|split; [|reflexivity]]]].
      * cbn [llm_conversation_context with_context question answer metadata
             question_count controller]. now rewrite <- app_assoc.
      * repeat constructor; discriminate.
      * rewrite validate_ai_response_raw.
        destruct (List.find _ valid_responses) as [v|] eqn:Hf.
        -- apply List.find_some in Hf. tauto.
        -- unfold valid_responses.
           destruct (any_in negative_words _); [simpl; tauto|].
           destruct (any_in affirmative_words _); [simpl; tauto|].
           destruct (any_in unrelated_words _); simpl; tauto.
    + exists [(User, text)]. split; [reflexivity|]. split; [discriminate|].
      split; [|reflexivity]. repeat constructor; discriminate.
  - exists []. cbn [fst snd].
    split; [|split; [reflexivity|split; [constructor|split; [|congruence]]]].
    + rewrite app_nil_r. now destruct g.
    + unfold _simple_judge, valid_responses. destruct (any_in _ _); simpl; tauto.
Qed.

(** The session of a handled question, when it is still there. *)
Lemma handle_question_survivor (self : Plugin) (env : Env) (event : Event)
    (question : pystr) (w : World) (g g' : GameState) :
  game_states w !! _get_session_key event = Some g ->
  game_states (_handle_turtle_soup_question self env event question w)
    !! _get_session_key event = Some g' ->
  (question_count g + 1 <= max_questions self)%Z
  /\ exists tail,
       g' = with_context (llm_conversation_context g ++ tail)
                         (with_question_count (question_count g + 1) g)
       /\ (get_using_provider env = None -> tail = [])
       /\ Forall (fun t : turn => fst t <> System) tail.
Proof.
  intros Hactive. unfold _handle_turtle_soup_question. rewrite Hactive.
  destruct (judge_response_shape env question
              (with_question_count (question_count g + 1) g) (session_id event))
    as (tail & Hshape & Hnone & Hroles & _).
  destruct (_get_ai_judge_response _ _ _ _) as [g1 reply]. cbn [fst] in Hshape.
  destruct (is_a_guess question); [destruct (_is_answer_correct _ _ _ _ _)|];
    store_simpl; cbv iota beta; try discriminate;
    destruct (_ <? _)%Z eqn:Hlt; store_simpl; try discriminate.
  all: apply Z.ltb_ge in Hlt.
  all: destruct reply; store_simpl; intros [= <-]; (split; [exact Hlt|]).
  all: exists tail; split; [exact Hshape | split; [exact Hnone | exact Hroles]].
Qed.


(** The session of a change-question command afterwards: as before
    (apology), or rebuilt from a record of the bank. *)
Lemma change_question_survivor (self : Plugin) (env : Env) (event : Event)
    (w : World) (g g' : GameState) :
  game_states w !! _get_session_key event = Some g ->
  game_states (change_question self env event w) !! _get_session_key event = Some g' ->
  g' = g
  \/ exists r, In r (questions_bank self)
               /\ truthy (fst (fst r)) = true /\ truthy (snd (fst r)) = true
               /\ g' = fresh_session self env r (controller g).
Proof.
  intros Hactive. unfold change_question. rewrite Hactive.
  destruct (change_question_loop_sampled self env (question g) max_attempts 0 None)
    as [Hs|[i Hs]]; rewrite Hs.
  { cbn. left. congruence. }
  destruct (sample_at self env i) as [[[q a] m]|] eqn:Hi; [|cbn; left; congruence].
  destruct (truthy q) eqn:Hq; [destruct (truthy a) eqn:Ha|]; cbn [negb orb];
    try (cbn; left; congruence).
  store_simpl. intros [= <-]. right. exists (q, a, m).
  repeat split; auto. eapply sample_at_in_bank; eauto.
Qed.

(** The session a start registers. *)
Lemma start_survivor (self : Plugin) (env : Env) (event : Event) (w : World)
    (k : pystr) (g' : GameState) :
  game_states (start_turtle_soup self env event w) !! k = Some g' ->
  game_states w !! k = Some g'
  \/ (k = _get_session_key event /\ game_states w !! k = None
      /\ exists r, In r (questions_bank self)
                   /\ truthy (fst (fst r)) = true /\ truthy (snd (fst r)) = true
                   /\ g' = fresh_session self env r None).
Proof.
  unfold start_turtle_soup.
  destruct (dict_has _ (_get_session_key event)) eqn:Hhas; [cbn; auto|].
  destruct (if (1 <? _)%nat then _ else _) as [sid|[]]; try (cbn; auto).
  destruct (_get_question_and_answer _ _ _) as [[[q a] m]|] eqn:Hfound.
  2:{ destruct sid as [[|? ?]|]; cbn; auto. }
  destruct (truthy q) eqn:Hq; [destruct (truthy a) eqn:Ha|]; cbn [negb orb];
    try (destruct sid as [[|? ?]|]; cbn; now auto).
  intros Hg'.
  assert (Hlook : <[_get_session_key event := fresh_session self env (q, a, m) None]>
                    (game_states w) !! k = Some g').
  { revert Hg'. unfold fresh_session, initial_context.
    destruct (get_using_provider env); cbn; auto. }
  destruct (decide (k = _get_session_key event)) as [->|Hne].
  - rewrite lookup_insert_eq in Hlook. injection Hlook as <-. right.
    split; [reflexivity|]. split.
    + unfold dict_has in Hhas. apply bool_decide_eq_false in Hhas.
      destruct (game_states w !! _get_session_key event); [|reflexivity].
      exfalso. apply Hhas. eauto.
    + exists (q, a, m). repeat split; auto. eapply get_question_in_bank; eauto.
  - rewrite lookup_insert_ne in Hlook by congruence. now left.
Qed.

Section Closed.
Variable self : Plugin.
Variable env : Env.
Variable P : GameState -> Prop.
Hypothesis P_controller : forall g c, P g -> P (with_controller c g).
Hypothesis P_question :
  forall g tail,
    P g -> (question_count g + 1 <= max_questions self)%Z ->
    (get_using_provider env = None -> tail = []) ->
    Forall (fun t : turn => fst t <> System) tail ->
    P (with_context (llm_conversation_context g ++ tail)
                    (with_question_count (question_count g + 1) g)).
Hypothesis P_fresh :
  forall r c,
    In r (questions_bank self) ->
    truthy (fst (fst r)) = true -> truthy (snd (fst r)) = true ->
    P (fresh_session self env r c).

Lemma handle_question_preserves (event : Event) (text : pystr) (w : World) :
  sessions_satisfy P w ->
  sessions_satisfy P (_handle_turtle_soup_question self env event text w).
Proof.
  intros HP k g' Hg'.
  destruct (decide (k = _get_session_key event)) as [->|Hne].
  - destruct (game_states w !! _get_session_key event) as [g|] eqn:Hactive.
    + destruct (handle_question_survivor _ _ _ _ _ _ _ Hactive Hg')
        as (Hle & tail & -> & Htail & Hroles). eauto.
    + unfold _handle_turtle_soup_question in Hg'. rewrite Hactive in Hg'.
      cbn in Hg'. congruence.
  - rewrite (proj1 (handle_question_lookup self env event text w)) in Hg' by exact Hne.
    eauto.
Qed.

Lemma change_question_preserves (event : Event) (w : World) :
  sessions_satisfy P w -> sessions_satisfy P (change_question self env event w).
Proof.
  intros HP k g' Hg'.
  destruct (decide (k = _get_session_key event)) as [->|Hne].
  - destruct (game_states w !! _get_session_key event) as [g|] eqn:Hactive.
    + destruct (change_question_survivor _ _ _ _ _ _ Hactive Hg')
        as [->|(r & Hr & Hq & Ha & ->)]; eauto.
    + unfold change_question in Hg'. rewrite Hactive in Hg'. cbn in Hg'. congruence.
  - rewrite (proj1 (change_question_lookup self env event w)) in Hg' by exact Hne.
    eauto.
Qed.

Lemma handle_game_turn_preserves (event : Event) (w : World) :
  sessions_satisfy P w -> sessions_satisfy P (_handle_game_turn self env event w).
Proof.
  intros HP. unfold _handle_game_turn.
  destruct (game_states w !! _get_session_key event) as [g0|]; [|exact HP].
  destruct (str_startswith _ cmd_start).
  { eapply sessions_satisfy_only_removes; [|exact HP].
    apply only_removes_same. now rewrite keep_alive_game_states. }
  destruct (str_eqb _ cmd_end).
  { eapply sessions_satisfy_only_removes; eauto using only_removes_end. }
  destruct (str_eqb _ cmd_force_end).
  { eapply sessions_satisfy_only_removes; eauto using only_removes_force_end. }
  destruct (str_eqb _ cmd_reveal).
  { eapply sessions_satisfy_only_removes; eauto using only_removes_reveal. }
  destruct (str_eqb _ cmd_change); [now apply change_question_preserves|].
  destruct (str_eqb _ cmd_help).
  { eapply sessions_satisfy_only_removes; [|exact HP]. now apply only_removes_same. }
  destruct (str_startswith _ cmd_question).
  { destruct (question_text _); [now apply handle_question_preserves|].
    eapply sessions_satisfy_only_removes; [|exact HP]. now apply only_removes_same. }
  destruct (str_eqb _ cmd_admin_end && is_admin event).
  { eapply sessions_satisfy_only_removes; eauto using only_removes_admin. }
  destruct (controller g0).
  - eapply sessions_satisfy_only_removes; [|exact HP]. now apply only_removes_same.
  - eapply sessions_satisfy_only_removes; eauto using only_removes_cleanup.
Qed.

(** A property of game states that the three ways of writing a game
    state keep (storing the controller, counting a question, building a
    session from a record) holds of every session after any operation,
    if it held before. *)
Lemma run_preserves (op : operation) (w : World) :
  sessions_satisfy P w -> sessions_satisfy P (run self env op w).
Proof.
  intros HP.
  destruct op as [event|outcome event|sk c event|event|event|event
                 |event|event|event|event|event|event|]; simpl.
  - intros k g' Hg'.
    destruct (start_survivor _ _ _ _ _ _ Hg') as [Hold|(_ & _ & r & Hr & Hq & Ha & ->)];
      eauto.
  - eapply sessions_satisfy_only_removes; [|exact HP]. unfold start_turtle_soup_exit.
    destruct outcome; try apply only_removes_cleanup;
      intros k; apply (only_removes_cleanup _ (send _ w)).
  - unfold turtle_soup_waiter. apply handle_game_turn_preserves.
    destruct (game_states w !! sk) as [cur|] eqn:Hsk; [|exact HP].
    destruct (controller cur); [exact HP|].
    intros k g Hg. cbn in Hg.
    destruct (decide (k = sk)) as [->|Hne].
    + rewrite lookup_insert_eq in Hg. injection Hg as <-. eauto.
    + rewrite lookup_insert_ne in Hg by congruence. eauto.
  - eapply sessions_satisfy_only_removes; eauto using only_removes_end.
  - eapply sessions_satisfy_only_removes; eauto using only_removes_force_end.
  - eapply sessions_satisfy_only_removes; eauto using only_removes_reveal.
  - now apply change_question_preserves.
  - unfold cmd_turtle_soup_question. destruct (negb _).
    + eapply sessions_satisfy_only_removes; [|exact HP]. now apply only_removes_same.
    + destruct (question_text _); [now apply handle_question_preserves|].
      eapply sessions_satisfy_only_removes; [|exact HP]. now apply only_removes_same.
  - unfold cmd_admin_end_all_turtle_games. destruct (negb _).
    + eapply sessions_satisfy_only_removes; [|exact HP]. now apply only_removes_same.
    + eapply sessions_satisfy_only_removes; eauto using only_removes_admin.
  - eapply sessions_satisfy_only_removes; [|exact HP]. now apply only_removes_same.
  - eapply sessions_satisfy_only_removes; [|exact HP].
    apply only_removes_same, list_questions_game_states.
  - eapply sessions_satisfy_only_removes; [|exact HP].
    apply only_removes_same, question_detail_game_states.
  - eapply sessions_satisfy_only_removes; [|exact HP].
    apply (only_removes_cleanup_list _ w).
Qed.

End Closed.
End Preservation.

Lemma truthy_nonempty (s : pystr) : truthy s = true -> s <> [].
Proof. destruct s; [discriminate | congruence]. Qed.

Section Invariants.
Context `{Builtins}.

Lemma sessions_satisfy_empty (P : GameState -> Prop) (w : World) :
  game_states w = ∅ -> sessions_satisfy P w.
Proof. intros He k g Hg. rewrite He, lookup_empty in Hg. discriminate. Qed.


(** X2. In every reachable world the puzzle of every session is a record
    of the bank whose story and solution are not empty. *)
Theorem reachable_has_puzzle (self : Plugin) (w : World) :
  reachable self (fun _ => True) w ->
  sessions_satisfy (has_puzzle self) w.
Proof.
  intros Hreach. induction Hreach as [w He|w env op _ IH _].
  - now apply sessions_satisfy_empty.
  - apply run_preserves; [| | |exact IH]; unfold has_puzzle.
    + intros g c Hg. exact Hg.
    + intros g tail Hg _ _ _. exact Hg.
    + intros [[q a] m] c Hr Hq Ha. cbn in *. auto using truthy_nonempty.
Qed.

(** X3. When a reasoning service is in use at every operation, the context
    of every session of a reachable world opens with the system framing
    turn of the session's current puzzle and has no other system turn. *)
Theorem reachable_framed (self : Plugin) (w : World) :
  reachable self (fun env => get_using_provider env <> None) w ->
  sessions_satisfy (framed self) w.
Proof.
  intros Hreach. induction Hreach as [w He|w env op _ IH Henv].
  - now apply sessions_satisfy_empty.
  - apply run_preserves; [| | |exact IH]; unfold framed.
    + intros g c Hg. exact Hg.
    + intros g tail (rest & Hctx & Hrest) _ _ Htail. cbn. rewrite Hctx.
      exists (rest ++ tail). split; [reflexivity|].
      apply Forall_app. split; assumption.
    + intros [[q a] m] c _ _ _. cbn. unfold initial_context.
      destruct (get_using_provider env); [|congruence]. exists []. split; auto.
Qed.

End Invariants.

(** ** Removing sessions *)

Lemma cleanup_absent (k : pystr) (w : World) :
  game_states w !! k = None -> _cleanup_game_session k w = w.
Proof. intros Hk. unfold _cleanup_game_session. now rewrite Hk. Qed.

Lemma cleanup_timers (k : pystr) (w : World) (c : ctrl) :
  timers (_cleanup_game_session k w) !! c =
  match game_states w !! k with
  | Some g => if decide (controller g = Some c) then Some Stopped else timers w !! c
  | None => timers w !! c
  end.
Proof.
  unfold _cleanup_game_session. destruct (game_states w !! k) as [g|]; [|reflexivity].
  destruct (controller g) as [c'|]; cbn.
  - destruct (decide (Some c' = Some c)) as [[= ->]|Hne].
    + apply lookup_insert_eq.
    + apply lookup_insert_ne. congruence.
  - now rewrite decide_False by discriminate.
Qed.

Lemma cleanup_keeps_stopped (k : pystr) (w : World) (c : ctrl) :
  timers w !! c = Some Stopped ->
  timers (_cleanup_game_session k w) !! c = Some Stopped.
Proof.
  intros Hc. rewrite cleanup_timers. destruct (game_states w !! k) as [g|]; [|exact Hc].
  now destruct (decide _).
Qed.

Lemma cleanup_list_keeps_stopped (keys : list pystr) (w : World) (c : ctrl) :
  timers w !! c = Some Stopped ->
  timers (foldl (fun w k => _cleanup_game_session k w) w keys) !! c = Some Stopped.
Proof.
  revert w. induction keys as [|k keys IH]; intros w Hc; simpl; [exact Hc|].
  apply IH. now apply cleanup_keeps_stopped.
Qed.

Lemma cleanup_list_lookup (keys : list pystr) (w : World) (k : pystr) :
  game_states (foldl (fun w k => _cleanup_game_session k w) w keys) !! k =
  if decide (k ∈ keys) then None else game_states w !! k.
Proof.
  revert w. induction keys as [|k0 keys IH]; intros w.
  - destruct (decide (k ∈ [])) as [Hin|]; [|reflexivity].
    now apply not_elem_of_nil in Hin.
  - cbn [foldl]. rewrite IH, cleanup_lookup.
    destruct (decide (k ∈ k0 :: keys)) as [Hin|Hnin].
    + destruct (decide (k ∈ keys)); [reflexivity|].
      apply elem_of_cons in Hin. destruct Hin as [->|]; [|tauto].
      now rewrite decide_True.
    + rewrite not_elem_of_cons in Hnin. destruct Hnin as [Hne Hnin].
      now rewrite !decide_False.
Qed.

Lemma cleanup_list_stops (keys : list pystr) (w : World) (k : pystr) (g : GameState)
    (c : ctrl) :
  k ∈ keys -> game_states w !! k = Some g -> controller g = Some c ->
  timers (foldl (fun w k => _cleanup_game_session k w) w keys) !! c = Some Stopped.
Proof.
  revert w. induction keys as [|k0 keys IH]; intros w Hin Hg Hc;
    [now apply not_elem_of_nil in Hin|].
  simpl. destruct (decide (k = k0)) as [->|Hne].
  - apply cleanup_list_keeps_stopped. rewrite cleanup_timers, Hg.
    now rewrite decide_True.
  - apply IH.
    + apply elem_of_cons in Hin. destruct Hin; congruence.
    + rewrite cleanup_lookup. now rewrite decide_False.
    + exact Hc.
Qed.

Lemma cleanup_list_sent (keys : list pystr) (w : World) :
  sent (foldl (fun w k => _cleanup_game_session k w) w keys) = sent w.
Proof.
  revert w. induction keys as [|k keys IH]; intros w; simpl; [reflexivity|].
  now rewrite IH, cleanup_sent.
Qed.

Lemma cleanup_all_empty (w : World) : game_states (cleanup_all w) = ∅.
Proof.
  apply map_eq. intros k. rewrite lookup_empty. unfold cleanup_all.
  rewrite cleanup_list_lookup. destruct (decide _) as [|Hnin]; [reflexivity|].
  destruct (game_states w !! k) as [g|] eqn:Hk; [|reflexivity].
  exfalso. apply Hnin. apply elem_of_elements, elem_of_dom. eauto.
Qed.

Lemma cleanup_all_stops (w : World) (k : pystr) (g : GameState) (c : ctrl) :
  game_states w !! k = Some g -> controller g = Some c ->
  timers (cleanup_all w) !! c = Some Stopped.
Proof.
  intros Hg Hc. unfold cleanup_all. eapply cleanup_list_stops; eauto.
  apply elem_of_elements, elem_of_dom. eauto.
Qed.

(** X4. [_cleanup_game_session] removes the session of its key and no
    other, stops the controller that session holds, sends nothing, and a
    second call changes nothing. *)
Theorem cleanup_game_session_removes (k : pystr) (w : World) :
  game_states (_cleanup_game_session k w) !! k = None
  /\ (forall k', k' <> k ->
        game_states (_cleanup_game_session k w) !! k' = game_states w !! k')
  /\ (forall g c, game_states w !! k = Some g -> controller g = Some c ->
        timers (_cleanup_game_session k w) !! c = Some Stopped)
  /\ sent (_cleanup_game_session k w) = sent w
  /\ _cleanup_game_session k (_cleanup_game_session k w) = _cleanup_game_session k w.
Proof.
  assert (Hgone : game_states (_cleanup_game_session k w) !! k = None).
  { rewrite cleanup_lookup. now rewrite decide_True. }
  split; [exact Hgone|]. split; [|split; [|split]].
  - intros k' Hne. rewrite cleanup_lookup. now rewrite decide_False.
  - intros g c Hg Hc. rewrite cleanup_timers, Hg. now rewrite decide_True.
  - apply cleanup_sent.
  - now apply cleanup_absent.
Qed.

(** X5. The sweep of the administrator on a store that is not empty
    leaves no session, stops the controller of every session there was,
    and reports how many there were; on an empty store it only says so.
    [terminate] clears the store in the same way and sends nothing. *)
Theorem admin_end_all_games_clears (w : World) :
  (game_states w <> ∅ ->
   game_states (_admin_end_all_games w) = ∅
   /\ sent (_admin_end_all_games w) = sent w ++ [MsgAdminDone (size (game_states w))]
   /\ forall k g c, game_states w !! k = Some g -> controller g = Some c ->
        timers (_admin_end_all_games w) !! c = Some Stopped)
  /\ (game_states w = ∅ ->
      _admin_end_all_games w = send MsgAdminNoGames w)
  /\ (game_states (terminate w) = ∅ /\ sent (terminate w) = sent w
      /\ forall k g c, game_states w !! k = Some g -> controller g = Some c ->
           timers (terminate w) !! c = Some Stopped).
Proof.
  unfold _admin_end_all_games. split; [|split].
  3:{ unfold terminate. split; [apply cleanup_all_empty|]. split.
      - unfold cleanup_all. apply cleanup_list_sent.
      - intros k g c. apply cleanup_all_stops. }
  - intros Hne. rewrite bool_decide_eq_false_2 by exact Hne.
    cbn [game_states timers sent send]. split; [apply cleanup_all_empty|]. split.
    + unfold cleanup_all. now rewrite cleanup_list_sent.
    + intros k g c. apply cleanup_all_stops.
  - intros He. now rewrite bool_decide_eq_true_2 by exact He.
Qed.

(** ** Sessions of other keys *)

Lemma end_other (event : Event) (w : World) (k : pystr) :
  k <> _get_session_key event ->
  game_states (end_turtle_soup event w) !! k = game_states w !! k.
Proof.
  intros Hne. unfold end_turtle_soup.
  destruct (game_states w !! _get_session_key event); [|reflexivity].
  rewrite cleanup_lookup. now rewrite decide_False.
Qed.

Lemma force_end_other (event : Event) (w : World) (k : pystr) :
  k <> _get_session_key event ->
  game_states (force_end_turtle_soup event w) !! k = game_states w !! k.
Proof.
  intros Hne. unfold force_end_turtle_soup. destruct (dict_has _ _); [|reflexivity].
  cbn [game_states send]. rewrite cleanup_lookup. now rewrite decide_False.
Qed.

Lemma reveal_game_states (event : Event) (w : World) :
  game_states (reveal_answer event w) = game_states w.
Proof. unfold reveal_answer. now destruct (game_states w !! _). Qed.

Lemma start_exit_other (outcome : waiter_outcome) (event : Event) (w : World)
    (k : pystr) :
  k <> _get_session_key event ->
  game_states (start_turtle_soup_exit outcome event w) !! k = game_states w !! k.
Proof.
  intros Hne. unfold start_turtle_soup_exit. rewrite cleanup_lookup.
  rewrite decide_False by exact Hne. now destruct outcome.
Qed.

Lemma start_other (self : Plugin) (env : Env) (event : Event) (w : World) (k : pystr) :
  k <> _get_session_key event ->
  game_states (start_turtle_soup self env event w) !! k = game_states w !! k.
Proof.
  intros Hne. unfold start_turtle_soup.
  destruct (dict_has _ _); [reflexivity|].
  destruct (if (1 <? _)%nat then _ else _) as [sid|[]]; try reflexivity.
  destruct (_get_question_and_answer _ _ _) as [[[q a] m]|].
  2:{ now destruct sid as [[|? ?]|]. }
  destruct (negb (truthy q) || negb (truthy a)).
  { now destruct sid as [[|? ?]|]. }
  destruct (get_using_provider env); store_simpl; reflexivity.
Qed.

(** A start leaves the sessions there are as they are. *)
Lemma start_keeps (self : Plugin) (env : Env) (event : Event) (w : World)
    (k : pystr) (g : GameState) :
  game_states w !! k = Some g ->
  game_states (start_turtle_soup self env event w) !! k = Some g.
Proof.
  intros Hg. destruct (decide (k = _get_session_key event)) as [->|Hne].
  - unfold start_turtle_soup. now rewrite (dict_has_true _ _ _ Hg).
  - now rewrite start_other.
Qed.

Lemma change_question_keeps (self : Plugin) (env : Env) (event : Event) (w : World)
    (k : pystr) (g : GameState) :
  game_states w !! k = Some g ->
  game_states (change_question self env event w) !! k <> None.
Proof.
  intros Hg. destruct (decide (k = _get_session_key event)) as [->|Hne].
  - unfold change_question. rewrite Hg.
    destruct (fst _) as [[[q a] m]|]; [|cbn; congruence].
    destruct (negb (truthy q) || negb (truthy a)); [cbn; congruence|].
    store_simpl. discriminate.
  - rewrite (proj1 (change_question_lookup self env event w)) by exact Hne. congruence.
Qed.

Section Scope.
Context `{Builtins}.

Lemma cmd_question_other (self : Plugin) (env : Env) (event : Event) (w : World)
    (k : pystr) :
  k <> _get_session_key event ->
  game_states (cmd_turtle_soup_question self env event w) !! k = game_states w !! k.
Proof.
  intros Hne. unfold cmd_turtle_soup_question. destruct (negb _); [reflexivity|].
  destruct (question_text _); [|reflexivity].
  now apply (proj1 (handle_question_lookup self env event _ w)).
Qed.

Lemma handle_game_turn_other (self : Plugin) (env : Env) (event : Event) (w : World)
    (k : pystr) :
  str_eqb (str_strip (message_str event)) cmd_admin_end && is_admin event = false ->
  k <> _get_session_key event -> k <> sender_id event ->
  game_states (_handle_game_turn self env event w) !! k = game_states w !! k.
Proof.
  intros Hadmin Hne Hsender. unfold _handle_game_turn.
  destruct (game_states w !! _get_session_key event) as [g0|]; [|reflexivity].
  destruct (str_startswith _ cmd_start); [now rewrite keep_alive_game_states|].
  destruct (str_eqb _ cmd_end); [now apply end_other|].
  destruct (str_eqb _ cmd_force_end); [now apply force_end_other|].
  destruct (str_eqb _ cmd_reveal); [now rewrite reveal_game_states|].
  destruct (str_eqb _ cmd_change);
    [now apply (proj1 (change_question_lookup self env event w))|].
  destruct (str_eqb _ cmd_help); [reflexivity|].
  destruct (str_startswith _ cmd_question).
  { destruct (question_text _); [|reflexivity].
    now apply (proj1 (handle_question_lookup self env event _ w)). }
  rewrite Hadmin. destruct (controller g0); [reflexivity|].
  rewrite cleanup_lookup. now rewrite decide_False.
Qed.

(** The text of the sweep is none of the commands [_handle_game_turn]
    tests before it. *)
Lemma admin_text_not_control :
  str_startswith cmd_admin_end cmd_start = false
  /\ str_eqb cmd_admin_end cmd_end = false
  /\ str_eqb cmd_admin_end cmd_force_end = false
  /\ str_eqb cmd_admin_end cmd_reveal = false
  /\ str_eqb cmd_admin_end cmd_change = false
  /\ str_eqb cmd_admin_end cmd_help = false
  /\ str_startswith cmd_admin_end cmd_question = false
  /\ str_eqb cmd_admin_end cmd_admin_end = true.
Proof. vm_compute. repeat split; reflexivity. Qed.

(** An operation with a scope leaves the sessions outside it. *)
Lemma scoped_operation_other (self : Plugin) (env : Env)
    (op : operation) (w : World) (keys : list pystr) (k : pystr) :
  op_scope op = Some keys -> ~ In k keys ->
  game_states (run self env op w) !! k = game_states w !! k.
Proof.
  intros Hscope Hk.
  destruct op as [event|outcome event|sk c event|event|event|event
                 |event|event|event|event|event|event|]; simpl in *;
    try (injection Hscope as <-); try discriminate.
  - apply start_other. simpl in Hk. intuition congruence.
  - apply start_exit_other. simpl in Hk. intuition congruence.
  - destruct (str_eqb _ _ && is_admin event) eqn:Hadmin; [discriminate|].
    injection Hscope as <-. simpl in Hk.
    unfold turtle_soup_waiter. rewrite handle_game_turn_other by (try exact Hadmin; intuition congruence).
    destruct (game_states w !! sk) as [cur|]; [|reflexivity].
    destruct (controller cur); [reflexivity|].
    cbn. apply lookup_insert_ne. intuition congruence.
  - apply end_other. simpl in Hk. intuition congruence.
  - apply force_end_other. simpl in Hk. intuition congruence.
  - now rewrite reveal_game_states.
  - apply (proj1 (change_question_lookup self env event w)). simpl in Hk. intuition congruence.
  - apply cmd_question_other. simpl in Hk. intuition congruence.
  - unfold cmd_admin_end_all_turtle_games.
    destruct (is_admin event); [discriminate|reflexivity].
  - reflexivity.
  - now rewrite list_questions_game_states.
  - now rewrite question_detail_game_states.
Qed.


(** The sweep inside a session: every session goes, unless the event has
    no session, in which case only the controller of the waiter's session
    may have been stored. *)
Lemma waiter_sweep (self : Plugin) (env : Env) (session_key : pystr) (c : ctrl)
    (event : Event) (w : World) :
  str_strip (message_str event) = cmd_admin_end -> is_admin event = true ->
  let w' := turtle_soup_waiter self env session_key c event w in
  (is_Some (game_states w !! _get_session_key event) -> game_states w' = ∅)
  /\ (game_states w !! _get_session_key event = None ->
      forall k, k <> session_key -> game_states w' !! k = game_states w !! k).
Proof.
  intros Htext Hadm. unfold turtle_soup_waiter.
  set (w1 := match game_states w !! session_key with
             | Some current_game_state =>
               match controller current_game_state with
               | None => set_game_state session_key
                           (with_controller (Some c) current_game_state) w
               | Some _ => w
               end
             | None => w
             end).
  assert (Hother : forall k, k <> session_key ->
                             game_states w1 !! k = game_states w !! k).
  { intros k Hk. unfold w1. destruct (game_states w !! session_key) as [cur|];
      [|reflexivity].
    destruct (controller cur); [reflexivity|]. cbn. now apply lookup_insert_ne. }
  assert (Hsame : is_Some (game_states w1 !! _get_session_key event)
                  <-> is_Some (game_states w !! _get_session_key event)).
  { destruct (decide (_get_session_key event = session_key)) as [->|Hne];
      [|now rewrite Hother].
    unfold w1. destruct (game_states w !! session_key) as [cur|] eqn:Hsk;
      [|now rewrite Hsk].
    destruct (controller cur); [now rewrite Hsk|]. cbn. rewrite lookup_insert_eq.
    split; eauto. }
  unfold _handle_game_turn. rewrite Htext.
  destruct admin_text_not_control as (-> & -> & -> & -> & -> & -> & -> & ->).
  rewrite Hadm. cbn [andb]. cbv zeta. split.
  - intros Hactive. apply Hsame in Hactive as [g Hg]. rewrite Hg.
    unfold _admin_end_all_games. destruct (bool_decide _) eqn:He.
    + apply bool_decide_eq_true in He. rewrite He, lookup_empty in Hg. discriminate.
    + cbn [game_states send]. apply cleanup_all_empty.
  - intros Hidle k Hk.
    destruct (game_states w1 !! _get_session_key event) as [g|] eqn:Hg.
    + exfalso. assert (Hs : is_Some (game_states w !! _get_session_key event))
        by (apply Hsame; eauto).
      rewrite Hidle in Hs. destruct Hs as [? Hs]. discriminate.
    + now apply Hother.
Qed.

(** X6. Every operation other than the sweep of the administrator (the
    admin command of an administrator, or its text sent by an
    administrator inside a session) and [terminate] leaves every session
    outside its scope as it was: a command touches the session of its
    event only; a message handled by the session waiter touches the
    waiter's session, the session of the event and, through the clean-up
    of line 460, the private session of the sender; help, list and
    detail touch none.  The sweep and [terminate] have no scope: they
    leave no session at all, except that a sweep sent inside a session by
    an event whose key has no session removes nothing. *)
Theorem sessions_outside_scope_untouched (self : Plugin) (env : Env)
    (op : operation) (w : World) :
  (forall keys k,
      op_scope op = Some keys -> ~ In k keys ->
      game_states (run self env op w) !! k = game_states w !! k)
  /\ (op_scope op = None ->
      match op with
      | OpWaiter session_key _ event =>
        (is_Some (game_states w !! _get_session_key event) ->
         game_states (run self env op w) = ∅)
        /\ (game_states w !! _get_session_key event = None ->
            forall k, k <> session_key ->
                      game_states (run self env op w) !! k = game_states w !! k)
      | _ => game_states (run self env op w) = ∅
      end).
Proof.
  split; [intros keys k; apply scoped_operation_other|].
  destruct op as [event|outcome event|sk c event|event|event|event
                 |event|event|event|event|event|event|]; cbn [op_scope run];
    try discriminate.
  - destruct (str_eqb _ _ && is_admin event) eqn:Hadmin; [|discriminate].
    intros _. apply andb_prop in Hadmin as [Htext Hadm].
    apply bool_decide_eq_true in Htext.
    exact (waiter_sweep self env sk c event w Htext Hadm).
  - unfold cmd_admin_end_all_turtle_games.
    destruct (is_admin event); [|discriminate]. intros _. cbn [negb].
    unfold _admin_end_all_games. destruct (bool_decide _) eqn:He.
    + now apply bool_decide_eq_true in He.
    + cbn [game_states send]. apply cleanup_all_empty.
  - intros _. unfold terminate. apply cleanup_all_empty.
Qed.

End Scope.

Lemma keep_alive_timers_other (self : Plugin) (env : Env) (g : GameState) (w : World)
    (c : ctrl) :
  controller g <> Some c ->
  timers (keep_alive self env g w) !! c = timers w !! c.
Proof.
  intros Hne. unfold keep_alive. destruct (controller g) as [c'|]; [|reflexivity].
  cbn. apply lookup_insert_ne. congruence.
Qed.

Lemma keep_alive_timers (self : Plugin) (env : Env) (g : GameState) (w : World)
    (c : ctrl) :
  controller g = Some c ->
  timers (keep_alive self env g w) !! c
    = Some (kept (session_timeout self) (now env)).
Proof. intros Hc. unfold keep_alive. rewrite Hc. cbn. apply lookup_insert_eq. Qed.

Lemma kept_running (t now : Z) : (0 < t)%Z -> kept t now = Running (now + t).
Proof. intros Ht. unfold kept. now rewrite (proj2 (Z.leb_gt t 0) Ht). Qed.

Lemma kept_stopped (t now : Z) : (t <= 0)%Z -> kept t now = Stopped.
Proof. intros Ht. unfold kept. now rewrite (proj2 (Z.leb_le t 0) Ht). Qed.

Section Stops.
Context `{Builtins}.

(** The controller of the session after a handled question: stopped when
    the session is gone, as [keep] left it when it stays. *)
Lemma handle_question_timer (self : Plugin) (env : Env) (event : Event)
    (text : pystr) (w : World) (g : GameState) (c : ctrl) :
  game_states w !! _get_session_key event = Some g ->
  controller g = Some c ->
  let w' := _handle_turtle_soup_question self env event text w in
  timers w' !! c =
  match game_states w' !! _get_session_key event with
  | Some _ => Some (kept (session_timeout self) (now env))
  | None => Some Stopped
  end.
Proof.
  intros Hactive Hc. unfold _handle_turtle_soup_question. rewrite Hactive.
  destruct (_get_ai_judge_response _ _ _ _) as [g1 reply].
  destruct (is_a_guess text); [destruct (_is_answer_correct _ _ _ _ _)|];
    store_simpl; cbv iota beta; try destruct (_ <? _)%Z; try destruct reply;
    store_simpl.
  all: rewrite ?cleanup_timers; cbn [game_states timers send set_game_state];
    rewrite ?lookup_insert_eq; cbn [controller with_question_count];
    rewrite ?decide_True by exact Hc; try reflexivity.
  all: now apply keep_alive_timers.
Qed.

Lemma handle_game_turn_stops (self : Plugin) (env : Env) (event : Event) (w : World)
    (k : pystr) (g : GameState) (c : ctrl) :
  game_states w !! k = Some g -> controller g = Some c ->
  game_states (_handle_game_turn self env event w) !! k = None ->
  timers (_handle_game_turn self env event w) !! c = Some Stopped.
Proof.
  intros Hg Hc. unfold _handle_game_turn.
  destruct (game_states w !! _get_session_key event) as [g0|] eqn:Hactive;
    [|congruence].
  destruct (str_startswith _ cmd_start);
    [rewrite keep_alive_game_states; cbn; congruence|].
  destruct (str_eqb _ cmd_end).
  { unfold end_turtle_soup. rewrite Hactive, cleanup_lookup, cleanup_timers.
    cbn [game_states send]. destruct (decide (k = _)) as [->|]; [|congruence].
    intros _. rewrite Hactive. replace g0 with g by congruence.
    now rewrite decide_True. }
  destruct (str_eqb _ cmd_force_end).
  { unfold force_end_turtle_soup. rewrite (dict_has_true _ _ _ Hactive).
    cbn [game_states timers send]. rewrite cleanup_lookup, cleanup_timers.
    destruct (decide (k = _)) as [->|]; [|congruence].
    intros _. rewrite Hactive. replace g0 with g by congruence.
    now rewrite decide_True. }
  destruct (str_eqb _ cmd_reveal); [rewrite reveal_game_states; congruence|].
  destruct (str_eqb _ cmd_change).
  { intros Hn. exfalso. exact (change_question_keeps _ _ _ _ _ _ Hg Hn). }
  destruct (str_eqb _ cmd_help); [cbn; congruence|].
  destruct (str_startswith _ cmd_question).
  { destruct (question_text _) as [text|]; [|cbn; congruence].
    destruct (decide (k = _get_session_key event)) as [->|Hne].
    - intros Hn. rewrite (handle_question_timer self env event text w g c) by congruence.
      now rewrite Hn.
    - rewrite (proj1 (handle_question_lookup self env event text w)) by exact Hne.
      congruence. }
  destruct (str_eqb _ cmd_admin_end && is_admin event).
  { intros _. unfold _admin_end_all_games. destruct (bool_decide _) eqn:He.
    - apply bool_decide_eq_true in He. rewrite He, lookup_empty in Hg. discriminate.
    - cbn [timers send]. exact (cleanup_all_stops w k g c Hg Hc). }
  destruct (controller g0); [cbn; congruence|].
  rewrite cleanup_lookup, cleanup_timers.
  destruct (decide (k = sender_id event)) as [->|]; [|congruence].
  intros _. rewrite Hg. now rewrite decide_True.
Qed.

(** X7. Whenever an operation removes a session that holds a controller,
    it leaves that controller stopped. *)
Theorem removed_session_is_stopped (self : Plugin) (env : Env) (op : operation)
    (w : World) (k : pystr) (g : GameState) (c : ctrl) :
  game_states w !! k = Some g -> controller g = Some c ->
  game_states (run self env op w) !! k = None ->
  timers (run self env op w) !! c = Some Stopped.
Proof.
  intros Hg Hc.
  destruct op as [event|outcome event|sk c0 event|event|event|event
                 |event|event|event|event|event|event|]; simpl.
  - rewrite (start_keeps _ _ _ _ _ _ Hg). discriminate.
  - unfold start_turtle_soup_exit. rewrite cleanup_lookup, cleanup_timers.
    destruct (decide (k = _)) as [->|]; [|destruct outcome; cbn; congruence].
    intros _. destruct outcome; cbn [game_states send]; rewrite Hg;
      now rewrite decide_True.
  - unfold turtle_soup_waiter. apply (handle_game_turn_stops _ _ _ _ k g c); [|exact Hc].
    destruct (game_states w !! sk) as [cur|] eqn:Hsk; [|exact Hg].
    destruct (controller cur) eqn:Hcur; [exact Hg|].
    cbn. rewrite lookup_insert_ne; [exact Hg|]. intros ->. congruence.
  - unfold end_turtle_soup.
    destruct (game_states w !! _get_session_key event) as [g0|] eqn:Hactive;
      [|cbn; congruence].
    rewrite cleanup_lookup, cleanup_timers. cbn [game_states send].
    destruct (decide (k = _)) as [->|]; [|congruence].
    intros _. rewrite Hactive. replace g0 with g by congruence.
    now rewrite decide_True.
  - unfold force_end_turtle_soup. destruct (dict_has _ _); [|cbn; congruence].
    cbn [game_states timers send]. rewrite cleanup_lookup, cleanup_timers.
    destruct (decide (k = _)) as [->|]; [|congruence].
    intros _. rewrite Hg. now rewrite decide_True.
  - rewrite reveal_game_states. congruence.
  - intros Hn. exfalso. exact (change_question_keeps _ _ _ _ _ _ Hg Hn).
  - unfold cmd_turtle_soup_question. destruct (negb _); [cbn; congruence|].
    destruct (question_text _) as [text|]; [|cbn; congruence].
    destruct (decide (k = _get_session_key event)) as [->|Hne].
    + intros Hn. rewrite (handle_question_timer self env event text w g c) by congruence.
      now rewrite Hn.
    + rewrite (proj1 (handle_question_lookup self env event text w)) by exact Hne.
      congruence.
  - unfold cmd_admin_end_all_turtle_games. destruct (negb _); [cbn; congruence|].
    intros _. unfold _admin_end_all_games. destruct (bool_decide _) eqn:He.
    + apply bool_decide_eq_true in He. rewrite He, lookup_empty in Hg. discriminate.
    + cbn [timers send]. exact (cleanup_all_stops w k g c Hg Hc).
  - cbn. congruence.
  - rewrite list_questions_game_states. congruence.
  - rewrite question_detail_game_states. congruence.
  - intros _. exact (cleanup_all_stops w k g c Hg Hc).
Qed.

End Stops.

Section Turns.
Context `{Builtins}.

(** The two ways a judged question ends. *)
Lemma judged_turn_cases (self : Plugin) (env : Env) (event : Event)
    (text : pystr) (w : World) (g : GameState) :
  game_states w !! _get_session_key event = Some g ->
  (is_a_guess text = true ->
   _is_answer_correct self env text (answer g) (session_id event) = false) ->
  (question_count g + 1 <= max_questions self)%Z ->
  let w' := _handle_turtle_soup_question self env event text w in
  let checking := if is_a_guess text then [MSG_AI_CHECKING_ANSWER] else [] in
  exists g',
    game_states w' !! _get_session_key event = Some g'
    /\ question_count g' = (question_count g + 1)%Z
    /\ ((exists label,
           In label valid_responses
           /\ sent w' = sent w ++ checking
                ++ [MSG_ROUND_RESULT (question_count g + 1) text label
                      (max_questions self - (question_count g + 1))]
           /\ llm_conversation_context g'
              = llm_conversation_context g
                ++ match get_using_provider env with
                   | Some _ => [(User, text); (Assistant, label)]
                   | None => []
                   end)
        \/ (get_using_provider env <> None
            /\ sent w' = sent w ++ checking ++ [MSG_AI_ERROR]
            /\ llm_conversation_context g'
               = llm_conversation_context g ++ [(User, text)])).
Proof.
  intros Hactive Hwrong Hbudget. unfold _handle_turtle_soup_question.
  rewrite Hactive.
  destruct (judge_response_shape env text
              (with_question_count (question_count g + 1) g) (session_id event))
    as (tail & Hshape & Hnone & _ & Hreply).
  destruct (_get_ai_judge_response _ _ _ _) as [g1 reply]. cbn [fst snd] in *.
  assert (Hlt : (max_questions self <? question_count g + 1)%Z = false)
    by (apply Z.ltb_ge; exact Hbudget).
  assert (Hctx : llm_conversation_context g1 = llm_conversation_context g ++ tail)
    by (rewrite Hshape; reflexivity).
  assert (Hcount : question_count g1 = (question_count g + 1)%Z)
    by (rewrite Hshape; reflexivity).
  destruct (is_a_guess text).
  - cbn [answer with_question_count]. rewrite (Hwrong eq_refl).
    store_simpl. cbv iota beta. rewrite Hlt.
    destruct reply as [label|e]; store_simpl; exists g1;
      (split; [reflexivity|]); (split; [exact Hcount|]).
    + left. exists label. destruct Hreply as [Hin Htail]. split; [exact Hin|].
      cbn [sent send set_game_state]. rewrite keep_alive_sent, Hcount, <- app_assoc.
      split; [reflexivity|]. rewrite Hctx.
      destruct (get_using_provider env); [now rewrite Htail by discriminate|].
      now rewrite Hnone.
    + right. split; [intros Hp; specialize (Hnone Hp); congruence|].
      cbn [sent send set_game_state]. rewrite keep_alive_sent, <- app_assoc.
      split; [reflexivity|]. now rewrite Hctx, Hreply.
  - cbn [question_count with_question_count]. rewrite Hlt.
    destruct reply as [label|e]; store_simpl; exists g1;
      (split; [reflexivity|]); (split; [exact Hcount|]).
    + left. exists label. destruct Hreply as [Hin Htail]. split; [exact Hin|].
      cbn [sent send set_game_state]. rewrite keep_alive_sent, Hcount.
      split; [reflexivity|]. rewrite Hctx.
      destruct (get_using_provider env); [now rewrite Htail by discriminate|].
      now rewrite Hnone.
    + right. split; [intros Hp; specialize (Hnone Hp); congruence|].
      cbn [sent send set_game_state]. rewrite keep_alive_sent.
      split; [reflexivity|]. now rewrite Hctx, Hreply.
Qed.

(** A question beyond the budget that is not a correct guess ends the
    session with the exhausted-budget summary. *)
Lemma question_over_budget (self : Plugin) (env : Env) (event : Event)
    (text : pystr) (w : World) (g : GameState) :
  game_states w !! _get_session_key event = Some g ->
  (is_a_guess text = true ->
   _is_answer_correct self env text (answer g) (session_id event) = false) ->
  (max_questions self < question_count g + 1)%Z ->
  let w' := _handle_turtle_soup_question self env event text w in
  game_states w' !! _get_session_key event = None
  /\ sent w' =
     sent w ++ (if is_a_guess text then [MSG_AI_CHECKING_ANSWER] else [])
            ++ [MsgOutOfQuestions (max_questions self) (answer g)
                                  (md_tags (metadata g))].
Proof.
  intros Hactive Hwrong Hover. unfold _handle_turtle_soup_question.
  rewrite Hactive. apply Z.ltb_lt in Hover.
  destruct (is_a_guess text).
  - cbn [answer metadata question_count with_question_count].
    rewrite (Hwrong eq_refl). store_simpl. cbv iota beta. rewrite Hover. store_simpl.
    rewrite cleanup_sent. cbn [sent send set_game_state].
    now rewrite keep_alive_sent, <- app_assoc.
  - cbn [answer metadata question_count with_question_count]. rewrite Hover.
    store_simpl. rewrite cleanup_sent. cbn [sent send set_game_state].
    now rewrite keep_alive_sent.
Qed.

(** X10. Without a reasoning service no submission is accepted as the
    solution: a handled question removes the session exactly when the
    budget is exceeded, and it never sends the success summary. *)
Theorem no_service_no_win (self : Plugin) (env : Env) (event : Event)
    (text : pystr) (w : World) (g : GameState) :
  get_using_provider env = None ->
  game_states w !! _get_session_key event = Some g ->
  let w' := _handle_turtle_soup_question self env event text w in
  (game_states w' !! _get_session_key event = None
   <-> (max_questions self < question_count g + 1)%Z)
  /\ exists new, sent w' = sent w ++ new
                 /\ forall a n t, ~ In (MsgCorrect a n t) new.
Proof.
  intros Hnone Hactive.
  assert (Hwrong : _is_answer_correct self env text (answer g) (session_id event) = false).
  { unfold _is_answer_correct. rewrite Hnone. apply simple_answer_check_false. }
  destruct (Z_lt_le_dec (max_questions self) (question_count g + 1)) as [Hover|Hle].
  - destruct (question_over_budget self env event text w g Hactive (fun _ => Hwrong) Hover)
      as (Hgone & Hsent).
    split; [tauto|]. eexists. split; [exact Hsent|].
    intros a n t. destruct (is_a_guess text); simpl; intuition discriminate.
  - destruct (judged_turn_cases self env event text w g Hactive (fun _ => Hwrong) Hle)
      as (g' & Hg' & _ & Hcases).
    split; [split; [congruence | lia]|].
    destruct Hcases as [(label & _ & Hsent & _)|(_ & Hsent & _)];
      (eexists; split; [exact Hsent|]);
      intros a n t; destruct (is_a_guess text); simpl; intuition discriminate.
Qed.

End Turns.

(** The [try] of [start_turtle_soup] always yields the requested id. *)
Lemma start_parsed (event : Event) :
  (if (1 <? length (str_split_ws None (message_str event)))%nat
   then rbind (list_index (str_split_ws None (message_str event)) 1)
              (fun part => Ok (Some (str_zfill 3 part)))
   else Ok None) = Ok (start_argument event).
Proof.
  unfold start_argument.
  now destruct (str_split_ws None (message_str event)) as [|command [|part rest]].
Qed.

(** A start for a key without session that finds a record with a story
    and a solution. *)
Lemma start_found (self : Plugin) (env : Env) (event : Event)
    (w : World) (r : question_t) :
  game_states w !! _get_session_key event = None ->
  _get_question_and_answer (questions_bank self) (draws env 0) (start_argument event)
    = Some r ->
  fst (fst r) <> [] -> snd (fst r) <> [] ->
  start_turtle_soup self env event w
  = let w := send (MSG_DISCLAIMER (max_questions self) (session_timeout self)) w in
    let w := set_game_state (_get_session_key event) (fresh_session self env r None) w in
    let w := send (MsgIntro (snd r) (fst (fst r)) (max_questions self)) w in
    match get_using_provider env with
    | Some _ => w
    | None => send MSG_NO_AI_PROVIDER_FOR_JUDGE w
    end.
Proof.
  intros Hidle Hfound Hq Ha. unfold start_turtle_soup.
  rewrite (dict_has_false _ _ Hidle), start_parsed. cbv iota beta.
  rewrite Hfound. destruct r as [[q a] m]. cbn [fst snd] in *.
  destruct q as [|cq q]; [congruence|]. destruct a as [|ca a]; [congruence|].
  cbn [truthy negb orb]. unfold fresh_session, initial_context. cbn [fst snd].
  now destruct (get_using_provider env).
Qed.

(** A start with an argument, for a key without session, that finds no
    record, or a record without story or solution. *)
Lemma start_not_found (self : Plugin) (env : Env) (event : Event)
    (w : World) (question_id : pystr) :
  game_states w !! _get_session_key event = None ->
  start_argument event = Some question_id ->
  let found := _get_question_and_answer (questions_bank self) (draws env 0)
                                        (Some question_id) in
  (found = None
   \/ exists r, found = Some r /\ (fst (fst r) = [] \/ snd (fst r) = [])) ->
  start_turtle_soup self env event w
  = send (MsgIdNotFound question_id)
         (send (MSG_DISCLAIMER (max_questions self) (session_timeout self)) w).
Proof.
  intros Hidle Harg found Hfound. unfold start_turtle_soup.
  rewrite (dict_has_false _ _ Hidle), start_parsed, Harg. cbv iota beta.
  fold found.
  assert (Hne : exists c s, question_id = c :: s).
  { unfold start_argument in Harg.
    destruct (str_split_ws None (message_str event)) as [|command [|part rest]];
      try discriminate.
    injection Harg as <-. apply str_zfill_nonempty. }
  destruct Hne as (c & s & ->).
  destruct Hfound as [->|([[q a] m] & -> & Hempty)]; [reflexivity|].
  cbn [fst snd] in Hempty. destruct Hempty as [-> | ->]; [reflexivity|].
  now destruct q.
Qed.

(** X11. A start for a key without session whose record is found (by the
    padded id of the argument, or drawn at random without argument) and
    has a story and a solution registers a session on that record with
    count 0, no controller, and the system framing turn as only context
    when a reasoning service is in use; up to the point where it starts
    the session waiter it sends the disclaimer, the introduction and,
    without service, the notice of the simplified judge. *)
Theorem start_registers_session (self : Plugin) (env : Env) (event : Event)
    (w : World) (r : question_t) :
  game_states w !! _get_session_key event = None ->
  _get_question_and_answer (questions_bank self) (draws env 0) (start_argument event)
    = Some r ->
  fst (fst r) <> [] -> snd (fst r) <> [] ->
  let w' := start_turtle_soup self env event w in
  game_states w' = <[_get_session_key event := fresh_session self env r None]>
                     (game_states w)
  /\ sent w' = sent w
       ++ [MSG_DISCLAIMER (max_questions self) (session_timeout self);
           MsgIntro (snd r) (fst (fst r)) (max_questions self)]
       ++ match get_using_provider env with
          | Some _ => []
          | None => [MSG_NO_AI_PROVIDER_FOR_JUDGE]
          end.
Proof.
  intros Hidle Hfound Hq Ha. cbv zeta.
  rewrite (start_found self env event w r Hidle Hfound Hq Ha).
  destruct (get_using_provider env); cbn; rewrite <- ?app_assoc; auto.
Qed.

Section Idle.
Context `{Builtins}.

(** X12. Without a session for the key of the event, the commands end,
    force-end, reveal and change-question only send the no-game notice,
    the question command only sends its own notice, and a message handed
    to the turn handler is dropped without any effect. *)
Theorem idle_commands_only_notify (self : Plugin) (env : Env) (event : Event)
    (w : World) :
  game_states w !! _get_session_key event = None ->
  run self env (OpCmdEnd event) w = send MSG_NO_GAME_TO_END w
  /\ run self env (OpCmdForceEnd event) w = send MSG_NO_GAME_TO_END w
  /\ run self env (OpCmdReveal event) w = send MSG_NO_GAME_TO_END w
  /\ run self env (OpCmdChange event) w = send MSG_NO_GAME_TO_END w
  /\ run self env (OpCmdQuestion event) w = send MsgNoGameForQuestion w
  /\ _handle_game_turn self env event w = w.
Proof.
  intros Hidle. simpl.
  unfold end_turtle_soup, force_end_turtle_soup, reveal_answer, change_question,
    cmd_turtle_soup_question, _handle_game_turn.
  rewrite Hidle, (dict_has_false _ _ Hidle). repeat split.
Qed.

End Idle.

(** ** More on the bank *)

Lemma find_split {A} (f : A -> bool) (l : list A) (x : A) :
  List.find f l = Some x ->
  exists pre post, l = pre ++ x :: post /\ f x = true
                   /\ Forall (fun u => f u = false) pre.
Proof.
  induction l as [|a l IH]; [discriminate|]. simpl.
  destruct (f a) eqn:Hfa.
  - intros [= <-]. exists [], l. auto.
  - intros Hf. destruct (IH Hf) as (pre & post & -> & Hx & Hpre).
    exists (a :: pre), post. auto.
Qed.

Lemma find_none_inv {A} (f : A -> bool) (l : list A) :
  List.find f l = None -> Forall (fun u => f u = false) l.
Proof.
  induction l as [|a l IH]; [constructor|]. simpl.
  destruct (f a) eqn:Hfa; [discriminate|]. auto.
Qed.

(** A record found by id is the first of the bank with that id. *)
Lemma get_question_by_id_found (questions_bank : list question_t) (rnd : nat)
    (c : N) (s : pystr) (r : question_t) :
  _get_question_and_answer questions_bank rnd (Some (c :: s)) = Some r ->
  exists pre post,
    questions_bank = pre ++ r :: post /\ md_id (snd r) = c :: s
    /\ forall r', In r' pre -> md_id (snd r') <> c :: s.
Proof.
  unfold _get_question_and_answer.
  destruct questions_bank as [|first rest]; [discriminate|].
  intros Hf. apply find_split in Hf as (pre & post & Hl & Hr & Hpre).
  exists pre, post. split; [exact Hl|]. destruct r as [[q a] m]. split.
  - now apply bool_decide_eq_true in Hr.
  - intros [[q' a'] m'] Hin. rewrite List.Forall_forall in Hpre.
    specialize (Hpre _ Hin). now apply bool_decide_eq_false in Hpre.
Qed.

(** X13. Looking a record up by a non-empty id returns the first record of
    the bank with that id, and nothing exactly when no record has it,
    whatever the random draw; without id it returns a record of the bank,
    and nothing exactly when the bank is empty. *)
Theorem get_question_and_answer_lookup (questions_bank : list question_t)
    (rnd : nat) :
  (forall c s r,
      _get_question_and_answer questions_bank rnd (Some (c :: s)) = Some r ->
      exists pre post,
        questions_bank = pre ++ r :: post /\ md_id (snd r) = c :: s
        /\ forall r', In r' pre -> md_id (snd r') <> c :: s)
  /\ (forall c s,
        _get_question_and_answer questions_bank rnd (Some (c :: s)) = None
        <-> forall r, In r questions_bank -> md_id (snd r) <> c :: s)
  /\ (forall r, _get_question_and_answer questions_bank rnd None = Some r ->
        In r questions_bank)
  /\ (_get_question_and_answer questions_bank rnd None = None <-> questions_bank = []).
Proof.
  split; [|split; [|split]].
  - intros c s r. apply get_question_by_id_found.
  - intros c s. unfold _get_question_and_answer.
    destruct questions_bank as [|first rest]; [split; [intros _ r []|reflexivity]|].
    split.
    + intros Hf [[q a] m] Hin. apply find_none_inv in Hf.
      rewrite List.Forall_forall in Hf. specialize (Hf _ Hin).
      now apply bool_decide_eq_false in Hf.
    + intros Hnone. apply find_id_none. exact Hnone.
  - intros r. apply get_question_in_bank.
  - unfold _get_question_and_answer.
    destruct questions_bank; split; congruence.
Qed.

Section BankNonEmpty.
Context `{Builtins}.

(** X14. The bank is never empty: when the file cannot be read, or when no
    block of it gives a record, it is the built-in bank of two records;
    otherwise it is the list of the records parsed. *)
Theorem parse_questions_bank_nonempty :
  (forall file, snd (_parse_questions_bank file) <> [])
  /\ (forall e, snd (_parse_questions_bank (Raise e)) = _get_default_questions)
  /\ (forall file_content logs questions,
        parse_blocks (question_blocks_of file_content) = (logs, Ok questions) ->
        snd (_parse_questions_bank (Ok file_content))
          = match questions with
            | [] => _get_default_questions
            | _ => questions
            end)
  /\ length _get_default_questions = 2%nat.
Proof.
  assert (Hok : forall file_content logs questions,
             parse_blocks (question_blocks_of file_content) = (logs, Ok questions) ->
             snd (_parse_questions_bank (Ok file_content))
             = match questions with [] => _get_default_questions | _ => questions end).
  { intros file_content logs questions Hp. unfold _parse_questions_bank.
    rewrite Hp. now destruct questions. }
  split; [|split; [|split]].
  - intros [file_content|e].
    + destruct (parse_blocks_ok (question_blocks_of file_content))
        as (logs & questions & Hp & _).
      rewrite (Hok _ _ _ Hp). destruct questions; discriminate.
    + destruct e; discriminate.
  - intros e. now destruct e.
  - exact Hok.
  - reflexivity.
Qed.

End BankNonEmpty.

(** ** Lines of a block *)

Lemma str_startswith_colon (c : N) (r : pystr) :
  str_startswith (c :: r) str_colon = (58 =? c).
Proof.
  unfold str_colon. cbn [str_startswith]. destruct r; apply andb_true_r.
Qed.

Lemma split_colon_key (key value cur : pystr) :
  str_in str_colon key = false ->
  split_go str_colon (Some 1%nat) cur (key ++ str_colon ++ value) 0
    = [rev cur ++ key; value].
Proof.
  revert cur. induction key as [|c key IH]; intros cur Hkey.
  - change ([] ++ str_colon ++ value) with (58 :: value).
    cbn [split_go]. rewrite str_startswith_colon, N.eqb_refl.
    change (pred <$> Some 1%nat) with (Some 0%nat).
    change (length str_colon - 1)%nat with 0%nat.
    rewrite split_go_exhausted. now rewrite app_nil_r.
  - change (str_in str_colon (c :: key))
      with (str_startswith (c :: key) str_colon || str_in str_colon key) in Hkey.
    apply orb_false_elim in Hkey as [Hc Hkey]. rewrite str_startswith_colon in Hc.
    change ((c :: key) ++ str_colon ++ value) with (c :: (key ++ str_colon ++ value)).
    cbn [split_go]. rewrite str_startswith_colon, Hc.
    rewrite IH by exact Hkey. simpl. now rewrite <- app_assoc.
Qed.

Lemma str_in_colon_app (key value : pystr) :
  str_in str_colon (key ++ str_colon ++ value) = true.
Proof.
  induction key as [|c key IH].
  { change ([] ++ str_colon ++ value) with (58 :: value).
    change (str_in str_colon (58 :: value))
      with (str_startswith (58 :: value) str_colon || str_in str_colon value).
    now rewrite str_startswith_colon. }
  change (str_in str_colon ((c :: key) ++ str_colon ++ value))
    with (str_startswith (c :: key ++ str_colon ++ value) str_colon
          || str_in str_colon (key ++ str_colon ++ value)).
  rewrite IH. apply orb_true_r.
Qed.

(** X15. A line [key:value] that is no comment, with no colon in the key
    and no white space around the line, sets the stripped key to the
    stripped value: the line is cut at its first colon only, so further
    colons stay in the value, and an earlier value of the key is
    replaced. *)
Theorem parse_line_sets_key (question_info : gmap pystr pystr)
    (key value : pystr) :
  str_in str_colon key = false ->
  str_strip (key ++ str_colon ++ value) = key ++ str_colon ++ value ->
  str_startswith (key ++ str_colon ++ value) str_hash = false ->
  parse_line question_info (key ++ str_colon ++ value)
    = Ok (<[str_strip key := str_strip value]> question_info)
  /\ forall question_info',
       parse_line question_info (key ++ str_colon ++ value) = Ok question_info' ->
       question_info' !! str_strip key = Some (str_strip value)
       /\ forall k, k <> str_strip key -> question_info' !! k = question_info !! k.
Proof.
  intros Hkey Hstrip Hhash.
  assert (Hline : parse_line question_info (key ++ str_colon ++ value)
                  = Ok (<[str_strip key := str_strip value]> question_info)).
  { unfold parse_line. rewrite Hstrip, str_in_colon_app, Hhash. cbn [negb andb].
    unfold str_split. now rewrite split_colon_key. }
  split; [exact Hline|]. intros info'. rewrite Hline. intros [= <-]. split.
  - apply lookup_insert_eq.
  - intros k Hk. now apply lookup_insert_ne.
Qed.

(** ** The id of a start command *)

Lemma str_zfill_length (width : nat) (s : pystr) :
  length (str_zfill width s) = Nat.max width (length s).
Proof.
  unfold str_zfill. destruct (width - length s)%nat as [|n] eqn:Hfill; [lia|].
  destruct s as [|c r].
  - rewrite repeat_length. simpl in *. lia.
  - destruct ((c =? 43) || (c =? 45)); simpl in *;
      rewrite ?length_app, ?repeat_length; simpl; lia.
Qed.

(** X16. The id a start command looks up has at least three characters, and
    padding it again changes nothing; so a record whose id is shorter
    than three characters is never found by a start with an argument. *)
Theorem start_argument_padded (event : Event) (question_id : pystr) :
  start_argument event = Some question_id ->
  (3 <= length question_id)%nat
  /\ str_zfill 3 question_id = question_id
  /\ forall questions_bank rnd r,
       _get_question_and_answer questions_bank rnd (Some question_id) = Some r ->
       (3 <= length (md_id (snd r)))%nat.
Proof.
  unfold start_argument.
  destruct (str_split_ws None (message_str event)) as [|command [|part rest]];
    try discriminate.
  intros [= <-].
  assert (Hlen : (3 <= length (str_zfill 3 part))%nat)
    by (rewrite str_zfill_length; lia).
  split; [exact Hlen|]. split.
  - unfold str_zfill at 1.
    now replace (3 - length (str_zfill 3 part))%nat with 0%nat by lia.
  - intros questions_bank rnd r Hr.
    destruct (str_zfill 3 part) as [|c s] eqn:Hz; [simpl in Hlen; lia|].
    destruct (get_question_by_id_found questions_bank rnd c s r Hr)
      as (pre & post & _ & Hid & _).
    now rewrite Hid.
Qed.

(** ** The fallback judge *)

Lemma drop_while_all (p : N -> bool) (s : pystr) :
  forallb p s = true -> drop_while p s = [].
Proof.
  induction s as [|c r IH]; [reflexivity|]. simpl.
  intros Hs. apply andb_prop in Hs as [-> Hr]. auto.
Qed.

Lemma take_while_all (p : N -> bool) (s : pystr) :
  forallb p s = true -> take_while p s = s.
Proof.
  induction s as [|c r IH]; [reflexivity|]. simpl.
  intros Hs. apply andb_prop in Hs as [-> Hr]. now rewrite IH.
Qed.

Lemma split_ws_go_nil (n : nat) : split_ws_go n [] = [].
Proof. now destruct n. Qed.

(** A word without white space is its own single token. *)
Lemma split_ws_word (s : pystr) :
  s <> [] -> no_space s = true -> str_split_ws None s = [s].
Proof.
  intros Hne Hs. destruct s as [|c r]; [congruence|].
  unfold str_split_ws. cbn [default length split_ws_go].
  unfold no_space in Hs. simpl in Hs. apply andb_prop in Hs as [Hc Hr].
  apply negb_true_iff in Hc.
  unfold str_lstrip. cbn [drop_while take_while]. rewrite Hc. cbn [negb].
  rewrite take_while_all, drop_while_all by exact Hr.
  rewrite Hc. cbn [negb]. now rewrite split_ws_go_nil.
Qed.

(** White space alone has no token. *)
Lemma split_ws_blank (s : pystr) :
  forallb isspace s = true -> str_split_ws None s = [].
Proof.
  intros Hs. unfold str_split_ws. simpl.
  destruct (length s); cbn [split_ws_go]; unfold str_lstrip;
    now rewrite drop_while_all.
Qed.

(** X17. Without a reasoning service the judge answers yes or no only.  For
    a solution without white space, as the Chinese solutions of the bank
    are, it answers yes exactly when the question contains the whole
    solution; for an empty or blank solution it answers no. *)
Theorem simple_judge_whole_solution (player_question answer : pystr) :
  (_simple_judge player_question answer = label_yes
   \/ _simple_judge player_question answer = label_no)
  /\ (answer <> [] -> no_space answer = true ->
      _simple_judge player_question answer
        = if str_in answer player_question then label_yes else label_no)
  /\ (forallb isspace answer = true ->
      _simple_judge player_question answer = label_no).
Proof.
  unfold _simple_judge. split; [|split].
  - destruct (any_in _ _); auto.
  - intros Hne Hs. rewrite (split_ws_word _ Hne Hs). unfold any_in. simpl.
    now rewrite orb_false_r.
  - intros Hs. now rewrite (split_ws_blank _ Hs).
Qed.

(** ** Listing the bank *)

Lemma page_rows (len : nat) (total_pages m page : Z) :
  (Z.of_nat len + 9 = 10 * total_pages + m)%Z -> (0 <= m < 10)%Z ->
  (1 <= page <= total_pages)%Z ->
  let start_idx := ((page - 1) * 10)%Z in
  let end_idx := Z.min (start_idx + 10) (Z.of_nat len) in
  let rows := Nat.min (Z.to_nat (end_idx - start_idx)) (len - Z.to_nat start_idx) in
  (1 <= rows <= 10)%nat
  /\ Z.of_nat rows = Z.min 10 (Z.of_nat len - (page - 1) * 10).
Proof. intros. subst start_idx end_idx rows. lia. Qed.

Section Listing.
Context `{Builtins}.

(** The rows of a page carry the ids of its records. *)
Lemma page_ids (questions_bank : list question_t) (n : nat) :
  map (fun row : pystr * pystr * Z * pystr * bool => fst (fst (fst (fst row))))
      (map (fun '(question, _, metadata) =>
              (md_id metadata, md_title metadata, md_difficulty metadata,
               take 30 question, (30 <? length question)%nat))
           (take n questions_bank))
  = map (fun r : question_t => md_id (snd r)) (take n questions_bank).
Proof.
  rewrite map_map. apply map_ext. now intros [[q a] m].
Qed.

Lemma take_min_length {A} (n : nat) (l : list A) :
  take (Nat.min n (length l)) l = take n l.
Proof.
  destruct (Nat.le_ge_cases n (length l)) as [Hle|Hge].
  - now rewrite Nat.min_l.
  - rewrite Nat.min_r by exact Hge. now rewrite !take_ge.
Qed.

(** X18. Listing a bank that is not empty.  An argument that is no
    integer gets the format notice.  With no argument (page 1) or an
    integer one, the page shown is the requested one brought into the
    range from 1 to the number of pages (ten records a page, rounded
    up); it has between one and ten rows, which are the records of the
    bank from position 10 * (page - 1) on, ten at most.  Sessions and
    timers are not touched. *)
Theorem list_questions_page (self : Plugin) (event : Event) (w : World) :
  questions_bank self <> [] ->
  let total_pages := ((Z.of_nat (length (questions_bank self)) + 9) / 10)%Z in
  let w' := list_questions self event w in
  game_states w' = game_states w
  /\ timers w' = timers w
  /\ (forall part,
        str_split_ws None (message_str event) !! 1%nat = Some part ->
        py_int part = None ->
        sent w' = sent w ++ [MsgPageFormatError])
  /\ (forall requested,
        (str_split_ws None (message_str event) !! 1%nat = None /\ requested = 1%Z)
        \/ (exists part,
               str_split_ws None (message_str event) !! 1%nat = Some part
               /\ py_int part = Some requested) ->
        let page := Z.min (Z.max requested 1) total_pages in
        exists rows,
          sent w' = sent w ++ [MsgQuestionList page total_pages rows]
          /\ (1 <= page <= total_pages)%Z
          /\ (1 <= length rows <= 10)%nat
          /\ Z.of_nat (length rows)
             = Z.min 10 (Z.of_nat (length (questions_bank self)) - (page - 1) * 10)
          /\ map (fun row => fst (fst (fst (fst row)))) rows
             = map (fun r : question_t => md_id (snd r))
                   (take 10 (drop (Z.to_nat ((page - 1) * 10)) (questions_bank self)))).
Proof.
  intros Hbank total_pages w'. subst total_pages w'. unfold list_questions.
  destruct (questions_bank self) as [|first rest] eqn:Hb; [congruence|].
  rewrite <- Hb. clear Hbank.
  assert (Hn : (1 <= Z.of_nat (length (questions_bank self)))%Z)
    by (rewrite Hb; simpl; lia).
  set (n := Z.of_nat (length (questions_bank self))) in *.
  set (total_pages := ((n + 9) / 10)%Z).
  assert (Hsend : forall page1 : Z, (1 <= page1)%Z ->
    let page := Z.min page1 total_pages in
    exists rows,
      sent (let per_page := 10%Z in
            let total_questions := n in
            let total_pages := ((total_questions + per_page - 1) / per_page)%Z in
            let page := if (total_pages <? page1)%Z then total_pages else page1 in
            let start_idx := ((page - 1) * per_page)%Z in
            let end_idx := Z.min (start_idx + per_page) total_questions in
            let rows :=
              map (fun '(question, _, metadata) =>
                     (md_id metadata, md_title metadata, md_difficulty metadata,
                      take 30 question, (30 <? length question)%nat))
                  (take (Z.to_nat (end_idx - start_idx))
                        (drop (Z.to_nat start_idx) (questions_bank self))) in
            send (MsgQuestionList page total_pages rows) w)
        = sent w ++ [MsgQuestionList page total_pages rows]
      /\ (1 <= page <= total_pages)%Z
      /\ (1 <= length rows <= 10)%nat
      /\ Z.of_nat (length rows) = Z.min 10 (n - (page - 1) * 10)
      /\ map (fun row => fst (fst (fst (fst row)))) rows
         = map (fun r : question_t => md_id (snd r))
               (take 10 (drop (Z.to_nat ((page - 1) * 10)) (questions_bank self)))).
  { intros page1 Hp1. cbv zeta. replace (n + 10 - 1)%Z with (n + 9)%Z by lia.
    fold total_pages.
    pose proof (Z.div_mod (n + 9) 10 ltac:(lia)) as Hdiv.
    pose proof (Z.mod_pos_bound (n + 9) 10 ltac:(lia)) as Hmod.
    fold total_pages in Hdiv.
    assert (Hmin : (if (total_pages <? page1)%Z then total_pages else page1)
                   = Z.min page1 total_pages).
    { destruct (total_pages <? page1)%Z eqn:H2;
        rewrite ?Z.ltb_lt, ?Z.ltb_ge in *; lia. }
    rewrite Hmin.
    assert (Hpage : (1 <= Z.min page1 total_pages <= total_pages)%Z) by lia.
    remember (Z.min page1 total_pages) as page eqn:Hpg. clear Hpg Hmin.
    eexists. split; [reflexivity|]. split; [exact Hpage|].
    pose proof (page_rows (length (questions_bank self)) total_pages _ page
                          Hdiv Hmod Hpage) as [Hrows Hlen].
    cbv zeta in Hrows, Hlen.
    rewrite length_map, length_take, length_drop.
    split; [exact Hrows|]. split; [exact Hlen|].
    rewrite page_ids. f_equal.
    rewrite <- (take_min_length 10 (drop _ _)), length_drop. f_equal.
    unfold n. lia. }
  split; [|split; [|split]].
  - destruct (str_split_ws None (message_str event)) as [|? [|part ?]]; try reflexivity.
    now destruct (py_int part).
  - destruct (str_split_ws None (message_str event)) as [|? [|part ?]]; try reflexivity.
    now destruct (py_int part).
  - intros part Hpart Hint.
    destruct (str_split_ws None (message_str event)) as [|command [|part' rest']];
      try discriminate.
    injection Hpart as ->. now rewrite Hint.
  - intros requested Hreq.
    assert (Hp1 : (1 <= Z.max requested 1)%Z) by lia.
    destruct (Hsend _ Hp1) as (rows & Hs & Hrest). exists rows.
    split; [|exact Hrest]. rewrite <- Hs. clear Hs Hrest Hsend.
    assert (Hmax : (if (requested <? 1)%Z then 1%Z else requested) = Z.max requested 1).
    { destruct (requested <? 1)%Z eqn:H1; rewrite ?Z.ltb_lt, ?Z.ltb_ge in *; lia. }
    destruct Hreq as [[Hnone ->]|(part & Hpart & Hint)].
    + destruct (str_split_ws None (message_str event)) as [|command [|part rest']];
        try discriminate; reflexivity.
    + destruct (str_split_ws None (message_str event)) as [|command [|part' rest']];
        try discriminate.
      injection Hpart as ->. rewrite Hint, Hmax. reflexivity.
Qed.

End Listing.

(** ** Ending and changing *)

(** X19. In an active session, end sends the summary (solution, tags,
    count), force-end the terse notice, and the return of the session
    waiter the timeout summary with the solution, the failure notice, or
    nothing; each of them removes the session and leaves the others. *)
Theorem terminations_remove_session (event : Event) (w : World) (g : GameState) :
  game_states w !! _get_session_key event = Some g ->
  (let w' := end_turtle_soup event w in
   game_states w' !! _get_session_key event = None
   /\ sent w' = sent w ++ [MsgEnded (answer g) (md_tags (metadata g))
                                    (question_count g)]
   /\ forall k, k <> _get_session_key event ->
        game_states w' !! k = game_states w !! k)
  /\ (let w' := force_end_turtle_soup event w in
      game_states w' !! _get_session_key event = None
      /\ sent w' = sent w ++ [MSG_GAME_FORCE_ENDED]
      /\ forall k, k <> _get_session_key event ->
           game_states w' !! k = game_states w !! k)
  /\ (forall outcome,
        let w' := start_turtle_soup_exit outcome event w in
        game_states w' !! _get_session_key event = None
        /\ sent w' = sent w ++ match outcome with
                               | WaiterReturned => []
                               | WaiterTimeout => [MSG_TIMEOUT (answer g)]
                               | WaiterFailed => [MSG_UNKNOWN_ERROR]
                               end
        /\ forall k, k <> _get_session_key event ->
             game_states w' !! k = game_states w !! k).
Proof.
  intros Hactive. split; [|split].
  - unfold end_turtle_soup. rewrite Hactive. cbv zeta.
    rewrite cleanup_lookup, cleanup_sent. rewrite decide_True by reflexivity.
    repeat split. intros k Hk. rewrite cleanup_lookup. now rewrite decide_False.
  - unfold force_end_turtle_soup. rewrite (dict_has_true _ _ _ Hactive). cbv zeta.
    cbn [game_states sent send]. rewrite cleanup_lookup, cleanup_sent.
    rewrite decide_True by reflexivity.
    repeat split. intros k Hk. rewrite cleanup_lookup. now rewrite decide_False.
  - intros outcome. unfold start_turtle_soup_exit. cbv zeta.
    rewrite cleanup_lookup, cleanup_sent. rewrite decide_True by reflexivity.
    split; [reflexivity|]. split.
    + destruct outcome; cbn [sent send]; rewrite ?Hactive, ?app_nil_r; reflexivity.
    + intros k Hk. rewrite cleanup_lookup. rewrite decide_False by exact Hk.
      now destruct outcome.
Qed.

(** X20. Change-question in an active session: when the sampling loop ends
    on a record with a story and a solution, the session is rebuilt on
    that record (count 0, context reset to the framing turn or to
    nothing, same controller), the new puzzle is announced, and its
    timer is restarted with the full timeout when [session_timeout] is
    positive and stopped when it is not; when the loop ends on nothing
    or on a record without story or solution, only the apology is
    sent. *)
Theorem change_question_replaces (self : Plugin) (env : Env) (event : Event)
    (w : World) (g : GameState) :
  game_states w !! _get_session_key event = Some g ->
  let new := fst (change_question_loop self env (question g) max_attempts 0 None) in
  let w' := change_question self env event w in
  (forall r, new = Some r -> fst (fst r) <> [] -> snd (fst r) <> [] ->
     game_states w' = <[_get_session_key event := fresh_session self env r (controller g)]>
                        (game_states w)
     /\ sent w' = sent w ++ [MsgChangeSuccess (snd r) (fst (fst r)) (max_questions self)]
     /\ forall c, controller g = Some c ->
          ((0 < session_timeout self)%Z ->
           timers w' !! c = Some (Running (now env + session_timeout self)))
          /\ ((session_timeout self <= 0)%Z -> timers w' !! c = Some Stopped))
  /\ ((new = None \/ exists r, new = Some r /\ (fst (fst r) = [] \/ snd (fst r) = [])) ->
      w' = send MsgChangeFailed w).
Proof.
  intros Hactive new w'. subst w'. unfold change_question. rewrite Hactive.
  fold new. split.
  - intros [[q a] m] -> Hq Ha. cbn [fst snd] in *.
    destruct q as [|cq q]; [congruence|]. destruct a as [|ca a]; [congruence|].
    cbn [truthy negb orb]. unfold fresh_session, initial_context. cbn [fst snd].
    split; [|split].
    + cbn [game_states send set_game_state]. now rewrite keep_alive_game_states.
    + cbn [sent send]. now rewrite keep_alive_sent.
    + intros c Hc. cbn [timers send].
      rewrite (keep_alive_timers self env _ _ c) by exact Hc.
      split; intros Ht; [now rewrite kept_running | now rewrite kept_stopped].
  - intros [->|([[q a] m] & -> & Hempty)]; [reflexivity|].
    cbn [fst snd] in Hempty. destruct Hempty as [-> | ->]; [reflexivity|].
    now destruct q.
Qed.

Section Timer.
Context `{Builtins}.

(** X21. With a positive [session_timeout], after a question handled
    without interruption the controller of the session is stopped if the
    session is gone (correct guess or budget exceeded) and is restarted
    with the full timeout if the session stays.  With a [session_timeout]
    that is not positive the controller is stopped in either case. *)
Theorem question_turn_timer (self : Plugin) (env : Env) (event : Event)
    (text : pystr) (w : World) (g : GameState) (c : ctrl) :
  game_states w !! _get_session_key event = Some g ->
  controller g = Some c ->
  let w' := _handle_turtle_soup_question self env event text w in
  ((0 < session_timeout self)%Z ->
   timers w' !! c =
   match game_states w' !! _get_session_key event with
   | Some _ => Some (Running (now env + session_timeout self))
   | None => Some Stopped
   end)
  /\ ((session_timeout self <= 0)%Z -> timers w' !! c = Some Stopped).
Proof.
  intros Hactive Hc w'.
  pose proof (handle_question_timer self env event text w g c Hactive Hc) as Ht.
  cbv zeta in Ht. fold w' in Ht. rewrite Ht. split; intros Hpos.
  - now rewrite kept_running.
  - rewrite kept_stopped by exact Hpos. now destruct (game_states w' !! _).
Qed.

End Timer.

(** ** Stripped fields *)


Lemma drop_while_head (s : pystr) : head_ok (drop_while isspace s).
Proof.
  induction s as [|c r IH]; [exact I|]. simpl.
  destruct (isspace c) eqn:Hc; [exact IH | exact Hc].
Qed.

Lemma drop_while_head_ok (s : pystr) : head_ok s -> drop_while isspace s = s.
Proof. destruct s as [|c r]; [reflexivity|]. simpl. now intros ->. Qed.

Lemma drop_while_snoc (l : pystr) (c : N) :
  isspace c = false ->
  drop_while isspace (l ++ [c]) = drop_while isspace l ++ [c].
Proof.
  intros Hc. induction l as [|a l IH]; simpl; [now rewrite Hc|].
  now destruct (isspace a).
Qed.

Lemma rstrip_head_ok (s : pystr) : head_ok s -> head_ok (str_rstrip s).
Proof.
  unfold str_rstrip. destruct s as [|c r]; [intros _; exact I|].
  intros Hc. simpl in Hc. cbn [rev]. rewrite drop_while_snoc by exact Hc.
  now rewrite rev_app_distr.
Qed.

Lemma rstrip_last_ok (s : pystr) : head_ok (rev (str_rstrip s)).
Proof. unfold str_rstrip. rewrite rev_involutive. apply drop_while_head. Qed.

(** Stripping twice is stripping once. *)
Lemma str_strip_idempotent (s : pystr) : str_strip (str_strip s) = str_strip s.
Proof.
  unfold str_strip at 1. unfold str_lstrip at 1.
  rewrite drop_while_head_ok.
  - unfold str_rstrip at 1. rewrite drop_while_head_ok.
    + apply rev_involutive.
    + apply rstrip_last_ok.
  - apply rstrip_head_ok, drop_while_head.
Qed.

Lemma parse_line_stripped (question_info question_info' : gmap pystr pystr)
    (line : pystr) :
  map_Forall (fun _ v => str_strip v = v) question_info ->
  parse_line question_info line = Ok question_info' ->
  map_Forall (fun _ v => str_strip v = v) question_info'.
Proof.
  intros Hall. unfold parse_line.
  destruct (str_in _ _ && _); [|now intros [= <-]].
  destruct (str_split _ _ _) as [|key [|value [|? ?]]]; try discriminate.
  intros [= <-]. apply map_Forall_insert_2; [apply str_strip_idempotent | exact Hall].
Qed.

Lemma parse_lines_stripped (lines : list pystr)
    (question_info question_info' : gmap pystr pystr) :
  map_Forall (fun _ v => str_strip v = v) question_info ->
  parse_lines lines question_info = Ok question_info' ->
  map_Forall (fun _ v => str_strip v = v) question_info'.
Proof.
  revert question_info. induction lines as [|line rest IH]; intros info Hall; simpl.
  - now intros [= <-].
  - destruct (parse_line info line) as [info1|e] eqn:Hl; [|discriminate].
    simpl. apply IH. eapply parse_line_stripped; eauto.
Qed.

Lemma dict_get_stripped (question_info : gmap pystr pystr) (k : pystr) :
  map_Forall (fun _ v => str_strip v = v) question_info ->
  str_strip (dict_get question_info k []) = dict_get question_info k [].
Proof.
  intros Hall. unfold dict_get. destruct (question_info !! k) as [v|] eqn:Hk.
  - exact (Hall _ _ Hk).
  - reflexivity.
Qed.

Section Stripped.
Context `{Builtins}.

(** X22. The record read from a block carries stripped texts: its id,
    title, story and solution have no white space at either end, and its
    tags are stripped and not empty. *)
Theorem parsed_fields_stripped (block : pystr) (r : question_t) :
  snd (_parse_question_block block) = Ok (Some r) ->
  str_strip (fst (fst r)) = fst (fst r)
  /\ str_strip (snd (fst r)) = snd (fst r)
  /\ str_strip (md_id (snd r)) = md_id (snd r)
  /\ str_strip (md_title (snd r)) = md_title (snd r)
  /\ forall tag, In tag (md_tags (snd r)) -> tag <> [] /\ str_strip tag = tag.
Proof.
  destruct (question_info_of_ok block) as [info Hinfo].
  rewrite (parse_question_block_cases _ _ Hinfo).
  assert (Hall : map_Forall (fun _ v => str_strip v = v) info).
  { eapply parse_lines_stripped; [|exact Hinfo]. apply map_Forall_empty. }
  destruct (has_required_keys info); [|discriminate].
  destruct (py_int _); [|discriminate].
  cbn [snd]. intros [= <-]. cbn [fst snd md_id md_title md_tags].
  split; [|split; [|split; [|split]]]; try (now apply dict_get_stripped).
  intros tag Htag. unfold tags_of in Htag.
  apply list_elem_of_In, list_elem_of_filter in Htag as [Ht Hin]. split.
  - now apply truthy_nonempty.
  - apply list_elem_of_In, in_map_iff in Hin as (raw & <- & _).
    apply str_strip_idempotent.
Qed.

End Stripped.

(** ** Instances of the further properties *)


(** X2 after a start and a change of puzzle. *)
Lemma reachable_has_puzzle_witness :
  let self := sample_plugin _get_default_questions in
  let w := @run ascii_builtins self sample_env_llm
             (OpCmdChange (sample_event cmd_change))
             (@run ascii_builtins self sample_env_llm
                (OpStart (sample_event cmd_start)) empty_world) in
  (exists g, game_states w !! py "u1" = Some g)
  /\ sessions_satisfy (has_puzzle self) w.
Proof.
  intros self w. split; [eexists; vm_compute; reflexivity|].
  apply (@reachable_has_puzzle ascii_builtins self w).
  apply reach_step; [|exact I].
  apply reach_step; [|exact I].
  apply reach_init. reflexivity.
Defined.

(** X3 after a start and one question, with a reasoning service. *)
Lemma reachable_framed_witness :
  let self := sample_plugin _get_default_questions in
  let w := @run ascii_builtins self sample_env_llm
             (OpCmdQuestion (sample_event (py "海龟汤提问 他是故意的吗")))
             (@run ascii_builtins self sample_env_llm
                (OpStart (sample_event cmd_start)) empty_world) in
  (exists g, game_states w !! py "u1" = Some g
             /\ length (llm_conversation_context g) = 3%nat)
  /\ sessions_satisfy (framed self) w.
Proof.
  intros self w. split; [eexists; split; vm_compute; reflexivity|].
  apply (@reachable_framed ascii_builtins self w).
  apply reach_step; [|simpl; discriminate].
  apply reach_step; [|simpl; discriminate].
  apply reach_init. reflexivity.
Defined.

(** X4 on the sample session. *)
Lemma cleanup_game_session_removes_witness :
  let w' := _cleanup_game_session (py "u1") (sample_world 3) in
  game_states w' !! py "u1" = None
  /\ timers w' !! 7%nat = Some Stopped
  /\ sent w' = [].
Proof.
  intros w'.
  destruct (cleanup_game_session_removes (py "u1") (sample_world 3))
    as (Hgone & _ & Hstop & Hsent & _).
  split; [exact Hgone|]. split; [|exact Hsent].
  apply (Hstop (sample_session 3)); vm_compute; reflexivity.
Defined.

(** X5 on the sample session and on the empty store. *)
Lemma admin_end_all_games_clears_witness :
  game_states (_admin_end_all_games (sample_world 3)) = ∅
  /\ timers (_admin_end_all_games (sample_world 3)) !! 7%nat = Some Stopped
  /\ _admin_end_all_games empty_world = send MsgAdminNoGames empty_world.
Proof.
  destruct (admin_end_all_games_clears (sample_world 3)) as [Hfull _].
  destruct (admin_end_all_games_clears empty_world) as (_ & Hempty & _).
  destruct Hfull as (Hstore & _ & Hstop).
  - intros Heq. apply (f_equal (fun m => m !! py "u1")) in Heq.
    vm_compute in Heq. discriminate.
  - split; [exact Hstore|]. split; [|apply Hempty; reflexivity].
    apply (Hstop (py "u1") (sample_session 3)); vm_compute; reflexivity.
Defined.

(** X6: a start of user u2 leaves the session of user u1; the sweep of
    an administrator leaves none. *)
Lemma sessions_outside_scope_untouched_witness :
  let self := sample_plugin _get_default_questions in
  let event := {| message_str := cmd_start; sender_id := py "u2"; group_id := None;
                  session_id := py "s2"; is_admin := false |} in
  let admin := {| message_str := cmd_admin_end; sender_id := py "u0"; group_id := None;
                  session_id := py "s0"; is_admin := true |} in
  let w' := @run ascii_builtins self sample_env (OpStart event) (sample_world 3) in
  game_states w' !! py "u1" = Some (sample_session 3)
  /\ is_Some (game_states w' !! py "u2")
  /\ game_states (@run ascii_builtins self sample_env (OpCmdAdminEnd admin) w') = ∅.
Proof.
  intros self event admin w'. split; [|split; [eexists; vm_compute; reflexivity|]].
  - unfold w'.
    rewrite (proj1 (@sessions_outside_scope_untouched ascii_builtins self sample_env
                      (OpStart event) (sample_world 3)) [py "u2"] (py "u1")).
    + vm_compute. reflexivity.
    + reflexivity.
    + simpl. intros [Heq|[]]. vm_compute in Heq. discriminate.
  - apply (proj2 (@sessions_outside_scope_untouched ascii_builtins self sample_env
                    (OpCmdAdminEnd admin) w')). reflexivity.
Defined.

(** X7: force-end of the sample session. *)
Lemma removed_session_is_stopped_witness :
  let self := sample_plugin _get_default_questions in
  let op := OpCmdForceEnd (sample_event cmd_force_end) in
  timers (@run ascii_builtins self sample_env op (sample_world 3)) !! 7%nat
  = Some Stopped.
Proof.
  intros self op.
  apply (@removed_session_is_stopped ascii_builtins self sample_env op (sample_world 3)
           (py "u1") (sample_session 3) 7%nat); vm_compute; reflexivity.
Defined.

(** X10: without service, the 41st question of a game limited to 40 ends
    it, though it repeats the solution. *)
Lemma no_service_no_win_witness :
  let self := sample_plugin _get_default_questions in
  let event := sample_event cmd_question in
  let text := py "答案是" ++ snd (fst lighthouse) in
  let w' := @_handle_turtle_soup_question ascii_builtins self sample_env event text
              (sample_world 40) in
  game_states w' !! py "u1" = None
  /\ exists new, sent w' = new /\ forall a n t, ~ In (MsgCorrect a n t) new.
Proof.
  intros self event text.
  destruct (@no_service_no_win ascii_builtins self sample_env event text
              (sample_world 40) (sample_session 40) eq_refl)
    as (Hiff & new & Hsent & Hnew).
  - vm_compute. reflexivity.
  - split.
    + apply Hiff. simpl. lia.
    + exists new. split; [exact Hsent | exact Hnew].
Defined.

(** X11: a start with the argument 2 finds the second built-in puzzle. *)
Lemma start_registers_session_witness :
  let self := sample_plugin _get_default_questions in
  let event := sample_event (py "开始海龟汤 2") in
  let w' := start_turtle_soup self sample_env event empty_world in
  game_states w' = <[_get_session_key event := fresh_session self sample_env sea_turtle None]> ∅
  /\ sent w' = [MSG_DISCLAIMER 40 1000;
                MsgIntro (snd sea_turtle) (fst (fst sea_turtle)) 40;
                MSG_NO_AI_PROVIDER_FOR_JUDGE].
Proof.
  intros self event.
  apply (start_registers_session self sample_env event empty_world sea_turtle).
  - reflexivity.
  - vm_compute. reflexivity.
  - vm_compute. discriminate.
  - vm_compute. discriminate.
Defined.

(** X12 on the empty store. *)
Lemma idle_commands_only_notify_witness :
  let self := sample_plugin _get_default_questions in
  let event := sample_event cmd_end in
  @run ascii_builtins self sample_env (OpCmdEnd event) empty_world
    = send MSG_NO_GAME_TO_END empty_world
  /\ @_handle_game_turn ascii_builtins self sample_env event empty_world = empty_world.
Proof.
  intros self event.
  destruct (@idle_commands_only_notify ascii_builtins self sample_env event empty_world)
    as (Hend & _ & _ & _ & _ & Hturn).
  - reflexivity.
  - split; [exact Hend | exact Hturn].
Defined.

(** X13: the id 002 in the built-in bank. *)
Lemma get_question_and_answer_lookup_witness :
  exists pre post,
    _get_default_questions = pre ++ sea_turtle :: post
    /\ md_id (snd sea_turtle) = [48; 48; 50]
    /\ forall r', In r' pre -> md_id (snd r') <> [48; 48; 50].
Proof.
  apply (proj1 (get_question_and_answer_lookup _get_default_questions 0) 48 [48; 50]).
  vm_compute. reflexivity.
Defined.

(** X14 on the sample file. *)
Lemma parse_questions_bank_nonempty_witness :
  exists logs questions,
    @parse_blocks ascii_builtins (question_blocks_of sample_bank_file)
      = (logs, Ok questions)
    /\ snd (@_parse_questions_bank ascii_builtins (Ok sample_bank_file)) = questions
    /\ questions <> [].
Proof.
  destruct (@parse_blocks ascii_builtins (question_blocks_of sample_bank_file))
    as [logs [questions|e]] eqn:Hp; [|vm_compute in Hp; discriminate].
  exists logs, questions. split; [reflexivity|].
  pose proof (proj1 (proj2 (proj2 (@parse_questions_bank_nonempty ascii_builtins)))
                _ _ _ Hp) as Hbank.
  destruct questions as [|first rest]; [vm_compute in Hp; discriminate|].
  split; [exact Hbank | discriminate].
Defined.

(** X15: a title with a colon of its own. *)
Lemma parse_line_sets_key_witness :
  parse_line ∅ (py "标题: 12:30 的火车")
  = Ok (<[py "标题" := py "12:30 的火车"]> ∅).
Proof.
  apply (proj1 (parse_line_sets_key ∅ key_title (py " 12:30 的火车")
                  ltac:(vm_compute; reflexivity) ltac:(vm_compute; reflexivity)
                  ltac:(vm_compute; reflexivity))).
Defined.

(** X16: the argument 7 is looked up as 007. *)
Lemma start_argument_padded_witness :
  start_argument (sample_event (py "开始海龟汤 7")) = Some (py "007")
  /\ str_zfill 3 (py "007") = py "007".
Proof.
  assert (Harg : start_argument (sample_event (py "开始海龟汤 7")) = Some (py "007"))
    by (vm_compute; reflexivity).
  split; [exact Harg|].
  exact (proj1 (proj2 (start_argument_padded _ _ Harg))).
Defined.

(** X17 on the solution of the first built-in puzzle. *)
Lemma simple_judge_whole_solution_witness :
  let answer := snd (fst lighthouse) in
  _simple_judge (py "他是故意的吗") answer = label_no
  /\ _simple_judge (py "是不是" ++ answer) answer = label_yes.
Proof.
  intros answer.
  destruct (simple_judge_whole_solution (py "他是故意的吗") answer) as (_ & Hno & _).
  destruct (simple_judge_whole_solution (py "是不是" ++ answer) answer) as (_ & Hyes & _).
  split.
  - rewrite Hno; [vm_compute; reflexivity | intros Heq; vm_compute in Heq; discriminate
                 | vm_compute; reflexivity].
  - rewrite Hyes; [vm_compute; reflexivity | intros Heq; vm_compute in Heq; discriminate
                  | vm_compute; reflexivity].
Defined.

(** X18: page 5 of a bank of one page is page 1, with the two built-in
    records; the argument abc gets the format notice. *)
Lemma list_questions_page_witness :
  let self := sample_plugin _get_default_questions in
  (exists rows,
     sent (@list_questions ascii_builtins self (sample_event (py "题库列表 5")) empty_world)
       = [MsgQuestionList 1 1 rows]
     /\ map (fun row => fst (fst (fst (fst row)))) rows = [py "001"; py "002"])
  /\ sent (@list_questions ascii_builtins self (sample_event (py "题库列表 abc")) empty_world)
     = [MsgPageFormatError].
Proof.
  intros self.
  destruct (@list_questions_page ascii_builtins self (sample_event (py "题库列表 5"))
              empty_world) as (_ & _ & _ & Hpage); [vm_compute; discriminate|].
  destruct (@list_questions_page ascii_builtins self (sample_event (py "题库列表 abc"))
              empty_world) as (_ & _ & Hformat & _); [vm_compute; discriminate|].
  split.
  - destruct (Hpage 5%Z) as (rows & Hsent & _ & _ & _ & Hids).
    + right. exists (py "5"). split; vm_compute; reflexivity.
    + exists rows. split; [exact Hsent | exact Hids].
  - apply (Hformat (py "abc")); vm_compute; reflexivity.
Defined.

(** X19: end of the sample session. *)
Lemma terminations_remove_session_witness :
  let event := sample_event cmd_end in
  game_states (end_turtle_soup event (sample_world 3)) !! py "u1" = None
  /\ sent (end_turtle_soup event (sample_world 3))
     = [MsgEnded (snd (fst lighthouse)) (md_tags (snd lighthouse)) 3]
  /\ sent (start_turtle_soup_exit WaiterTimeout event (sample_world 3))
     = [MSG_TIMEOUT (snd (fst lighthouse))].
Proof.
  intros event.
  destruct (terminations_remove_session event (sample_world 3) (sample_session 3))
    as ((Hgone & Hsent & _) & _ & Hexit).
  - vm_compute. reflexivity.
  - split; [exact Hgone|]. split; [exact Hsent|].
    exact (proj1 (proj2 (Hexit WaiterTimeout))).
Defined.

(** X20: the first draw hits the current puzzle, the second the other. *)
Lemma change_question_replaces_witness :
  let self := sample_plugin _get_default_questions in
  let event := sample_event cmd_change in
  let w' := change_question self sample_env_llm event (sample_world 3) in
  game_states w'
    = <[_get_session_key event := fresh_session self sample_env_llm sea_turtle (Some 7%nat)]>
        (game_states (sample_world 3))
  /\ sent w' = [MsgChangeSuccess (snd sea_turtle) (fst (fst sea_turtle)) 40]
  /\ timers w' !! 7%nat = Some (Running 1400).
Proof.
  intros self event.
  destruct (change_question_replaces self sample_env_llm event (sample_world 3)
              (sample_session 3)) as [Hnew _].
  - vm_compute. reflexivity.
  - destruct (Hnew sea_turtle) as (Hstore & Hsent & Htimer).
    + vm_compute. reflexivity.
    + vm_compute. discriminate.
    + vm_compute. discriminate.
    + split; [exact Hstore|]. split; [exact Hsent|].
      apply (Htimer 7%nat); [reflexivity | reflexivity].
Defined.

(** X21: the fourth question restarts the timer, the 41st stops it, and
    so does any question when the timeout is 0. *)
Lemma question_turn_timer_witness :
  let self := sample_plugin _get_default_questions in
  let event := sample_event cmd_question in
  timers (@_handle_turtle_soup_question ascii_builtins self sample_env event
            (py "他是故意的吗") (sample_world 3)) !! 7%nat = Some (Running 1400)
  /\ timers (@_handle_turtle_soup_question ascii_builtins self sample_env event
               (py "他是故意的吗") (sample_world 40)) !! 7%nat = Some Stopped
  /\ timers (@_handle_turtle_soup_question ascii_builtins
               (stopped_plugin _get_default_questions) sample_env event
               (py "他是故意的吗") (sample_world 3)) !! 7%nat = Some Stopped.
Proof.
  intros self event.
  destruct (@question_turn_timer ascii_builtins self sample_env event
              (py "他是故意的吗") (sample_world 3) (sample_session 3) 7%nat)
    as [Hstays _]; [vm_compute; reflexivity | reflexivity |].
  destruct (@question_turn_timer ascii_builtins self sample_env event
              (py "他是故意的吗") (sample_world 40) (sample_session 40) 7%nat)
    as [Hgone _]; [vm_compute; reflexivity | reflexivity |].
  destruct (@question_turn_timer ascii_builtins (stopped_plugin _get_default_questions)
              sample_env event (py "他是故意的吗") (sample_world 3) (sample_session 3)
              7%nat)
    as [_ Hzero]; [vm_compute; reflexivity | reflexivity |].
  split; [|split].
  - etransitivity; [apply Hstays; simpl; lia | vm_compute; reflexivity].
  - etransitivity; [apply Hgone; simpl; lia | vm_compute; reflexivity].
  - apply Hzero. simpl. lia.
Defined.

(** X22: a block written with white space around its values. *)
Lemma parsed_fields_stripped_witness :
  let block := py "ID:  abc
标题:   房间
汤面:  一个人走进了房间
汤底: 房间里没有人
标签:  经典 ,, 房间 " in
  let r := (py "一个人走进了房间", py "房间里没有人",
            {| md_id := py "abc"; md_title := py "房间"; md_difficulty := 3;
               md_tags := [py "经典"; py "房间"] |}) in
  snd (@_parse_question_block ascii_builtins block) = Ok (Some r)
  /\ str_strip (md_title (snd r)) = md_title (snd r)
  /\ forall tag, In tag (md_tags (snd r)) -> tag <> [] /\ str_strip tag = tag.
Proof.
  intros block r.
  assert (Hr : snd (@_parse_question_block ascii_builtins block) = Ok (Some r))
    by (vm_compute; reflexivity).
  split; [exact Hr|].
  destruct (@parsed_fields_stripped ascii_builtins block r Hr)
    as (_ & _ & _ & Htitle & Htags).
  split; [exact Htitle | exact Htags].
Defined.

(** ** The argument of the start command *)

(** Claim C10 (amended). The format-error notice is never sent by the start
    operation, whatever the argument: the argument is zero-padded without
    being parsed and compared with the ids of the bank as a text.  For a
    key without session: when the padded argument is the id of no record
    of the bank, or the first record with that id lacks a story or a
    solution, the operation sends the disclaimer and the not-found notice
    and registers no session; when the first record with that id has a
    story and a solution, numeric id or not, the operation registers a
    session on that record and sends the disclaimer and the
    introduction. *)
Theorem start_never_reports_format_error (self : Plugin) (env : Env)
    (event : Event) (w : World) :
  (exists new, sent (start_turtle_soup self env event w) = sent w ++ new
               /\ ~ In MsgIdFormatError new)
  /\ (forall command part rest,
        game_states w !! _get_session_key event = None ->
        str_split_ws None (message_str event) = command :: part :: rest ->
        (forall r, In r (questions_bank self) -> md_id (snd r) <> str_zfill 3 part) ->
        let w' := start_turtle_soup self env event w in
        game_states w' = game_states w
        /\ sent w' = sent w ++ [MSG_DISCLAIMER (max_questions self) (session_timeout self);
                                MsgIdNotFound (str_zfill 3 part)])
  /\ (forall command part rest pre r post,
        game_states w !! _get_session_key event = None ->
        str_split_ws None (message_str event) = command :: part :: rest ->
        questions_bank self = pre ++ r :: post ->
        md_id (snd r) = str_zfill 3 part ->
        (forall r', In r' pre -> md_id (snd r') <> str_zfill 3 part) ->
        let w' := start_turtle_soup self env event w in
        ((fst (fst r) = [] \/ snd (fst r) = []) ->
         game_states w' = game_states w
         /\ sent w' = sent w ++ [MSG_DISCLAIMER (max_questions self) (session_timeout self);
                                 MsgIdNotFound (str_zfill 3 part)])
        /\ (fst (fst r) <> [] -> snd (fst r) <> [] ->
            game_states w' = <[_get_session_key event := fresh_session self env r None]>
                               (game_states w)
            /\ sent w' = sent w
                 ++ [MSG_DISCLAIMER (max_questions self) (session_timeout self);
                     MsgIntro (snd r) (fst (fst r)) (max_questions self)]
                 ++ match get_using_provider env with
                    | Some _ => []
                    | None => [MSG_NO_AI_PROVIDER_FOR_JUDGE]
                    end)).
Proof.
  split; [|split].
  - unfold start_turtle_soup.
    destruct (dict_has _ _).
    { exists [MSG_GAME_IN_PROGRESS]. split; [reflexivity|]. simpl. intuition discriminate. }
    destruct (str_split_ws None (message_str event)) as [|command [|part rest]]; simpl.
    all: destruct (_get_question_and_answer _ _ _) as [[[q a] m]|];
      [destruct (negb (truthy q) || negb (truthy a))|].
    all: try destruct (str_zfill 3 part) as [|c s].
    all: try destruct (get_using_provider env).
    all: simpl; rewrite <- ?app_assoc; eexists; (split; [reflexivity|]).
    all: simpl; intuition discriminate.
  - intros command part rest Hidle Hparts Hunknown. cbv zeta.
    rewrite (start_not_found self env event w (str_zfill 3 part) Hidle).
    + split; [reflexivity|]. cbn [sent send]. now rewrite <- app_assoc.
    + unfold start_argument. now rewrite Hparts.
    + left. destruct (str_zfill_nonempty part) as (c & s & Hz). rewrite Hz in *.
      unfold _get_question_and_answer. rewrite (find_id_none _ _ Hunknown).
      now destruct (questions_bank self).
  - intros command part rest pre r post Hidle Hparts Hbank Hid Hpre.
    assert (Harg : start_argument event = Some (str_zfill 3 part))
      by (unfold start_argument; now rewrite Hparts).
    assert (Hfound : _get_question_and_answer (questions_bank self) (draws env 0)
                       (Some (str_zfill 3 part)) = Some r).
    { destruct (str_zfill_nonempty part) as (c & s & Hz). rewrite Hz in *.
      unfold _get_question_and_answer. rewrite Hbank.
      destruct (pre ++ r :: post) as [|first others] eqn:Hl;
        [now destruct pre|]. rewrite <- Hl.
      apply find_first.
      - destruct r as [[q a] m]. apply bool_decide_eq_true. exact Hid.
      - apply List.Forall_forall. intros [[q' a'] m'] Hin.
        apply bool_decide_eq_false. exact (Hpre _ Hin). }
    cbv zeta. split.
    + intros Hempty.
      rewrite (start_not_found self env event w (str_zfill 3 part) Hidle Harg).
      * split; [reflexivity|]. cbn [sent send]. now rewrite <- app_assoc.
      * right. exists r. split; [exact Hfound | exact Hempty].
    + intros Hq Ha. rewrite <- Harg in Hfound.
      rewrite (start_found self env event w r Hidle Hfound Hq Ha).
      destruct (get_using_provider env); cbn; rewrite <- ?app_assoc; auto.
Qed.

(** Witness of C10 (amended): no record of the built-in bank has the id
    abc; in the sample file the record with that id has a story and a
    solution, and the first record with the id 007 has no story. *)
Lemma start_never_reports_format_error_witness :
  let self := sample_plugin _get_default_questions in
  let file := sample_plugin (snd (@_parse_questions_bank ascii_builtins
                                    (Ok sample_bank_file))) in
  let event := sample_event (py "开始海龟汤 abc") in
  let event7 := sample_event (py "开始海龟汤 7") in
  (game_states (start_turtle_soup self sample_env event empty_world) = ∅
   /\ sent (start_turtle_soup self sample_env event empty_world)
      = [MSG_DISCLAIMER 40 1000; MsgIdNotFound (py "abc")])
  /\ (game_states (start_turtle_soup file sample_env event7 empty_world) = ∅
      /\ sent (start_turtle_soup file sample_env event7 empty_world)
         = [MSG_DISCLAIMER 40 1000; MsgIdNotFound (py "007")])
  /\ is_Some (game_states (start_turtle_soup file sample_env event empty_world)
                !! py "u1").
Proof.
  intros self file event event7. split; [|split].
  - apply (proj1 (proj2 (start_never_reports_format_error self sample_env event
                           empty_world)) cmd_start (py "abc") []).
    + reflexivity.
    + vm_compute. reflexivity.
    + intros r Hr. vm_compute in Hr. destruct Hr as [<-|[<-|[]]]; vm_compute; discriminate.
  - apply (proj1 (proj2 (proj2 (start_never_reports_format_error file sample_env event7
                                  empty_world))
                    cmd_start (py "7") [] [] (nth 0 (questions_bank file) lighthouse)
                    (tail (questions_bank file))
                    ltac:(reflexivity) ltac:(vm_compute; reflexivity)
                    ltac:(vm_compute; reflexivity) ltac:(vm_compute; reflexivity)
                    ltac:(intros r' []))).
    left. vm_compute. reflexivity.
  - destruct (proj2 (proj2 (proj2 (start_never_reports_format_error file sample_env event
                                     empty_world))
                      cmd_start (py "abc") [] [nth 0 (questions_bank file) lighthouse]
                      (nth 1 (questions_bank file) lighthouse) []
                      ltac:(reflexivity) ltac:(vm_compute; reflexivity)
                      ltac:(vm_compute; reflexivity) ltac:(vm_compute; reflexivity)
                      ltac:(intros r' [<-|[]]; vm_compute; discriminate)))
      as [Hstore _].
    + vm_compute. discriminate.
    + vm_compute. discriminate.
    + rewrite Hstore. eexists. apply lookup_insert_eq.
Defined.

(** Counterexample to C10: the sample file has a record whose id is abc,
    which is no number; started with that argument, the game begins. *)
Lemma start_with_non_numeric_id_starts_game :
  let self :=
    sample_plugin (snd (@_parse_questions_bank ascii_builtins (Ok sample_bank_file))) in
  let event := sample_event (py "开始海龟汤 abc") in
  let w' := start_turtle_soup self sample_env event empty_world in
  ascii_int (py "abc") = None
  /\ (exists game_state,
        game_states w' !! py "u1" = Some game_state
        /\ md_id (metadata game_state) = py "abc")
  /\ ~ In (MsgIdNotFound (py "abc")) (sent w').
Proof.
  split; [reflexivity|]. split.
  - eexists. split; vm_compute; reflexivity.
  - vm_compute. intuition discriminate.
Qed.

(** ** Questions handled while sessions are ended *)








Lemma set_game_state_twice (k : pystr) (g g' : GameState) (w : World) :
  set_game_state k g' (set_game_state k g w) = set_game_state k g' w.
Proof. unfold set_game_state. cbn. now rewrite insert_insert_eq. Qed.

Lemma set_game_state_same (k : pystr) (g : GameState) (w : World) :
  game_states w !! k = Some g -> set_game_state k g w = w.
Proof.
  intros Hg. unfold set_game_state. rewrite insert_id by exact Hg. now destruct w.
Qed.

Section RacedFacts.
Context `{Builtins}.

(** When nothing runs while the service is awaited, the handler is the
    uninterrupted one. *)
Lemma handle_question_unraced (self : Plugin) (env : Env) (event : Event)
    (question : pystr) (w : World) :
  _handle_turtle_soup_question_raced self env event question [] [] w
  = _handle_turtle_soup_question self env event question w.
Proof.
  unfold _handle_turtle_soup_question_raced, _handle_turtle_soup_question.
  destruct (game_states w !! _get_session_key event) as [g|]; [|reflexivity].
  assert (Hawaited : forall w0, awaited env [] w0 = w0)
    by (intros w0; unfold awaited; now destruct (get_using_provider env)).
  rewrite Hawaited.
  set (g1 := with_question_count (question_count g + 1) g).
  set (w1 := set_game_state (_get_session_key event) g1 (keep_alive self env g w)).
  assert (Hjudge : forall w0,
    game_states w0 !! _get_session_key event = Some g1 ->
    (let '(w2, reply) :=
       _get_ai_judge_response_raced env question (_get_session_key event) g1
                                    (session_id event) [] w0 in
     match reply with
     | Ok ai_answer =>
       if negb (dict_has (game_states w2) (_get_session_key event)) then w2
       else send (MSG_ROUND_RESULT (question_count g1) question ai_answer
                    (max_questions self - question_count g1)) w2
     | Raise _ => send MSG_AI_ERROR w2
     end)
    = (let '(game_state, reply) :=
         _get_ai_judge_response env question g1 (session_id event) in
       let w2 := set_game_state (_get_session_key event) game_state w0 in
       match reply with
       | Ok ai_answer =>
         if negb (dict_has (game_states w2) (_get_session_key event)) then w2
         else send (MSG_ROUND_RESULT (question_count game_state) question ai_answer
                      (max_questions self - question_count game_state)) w2
       | Raise _ => send MSG_AI_ERROR w2
       end)).
  { intros w0 Hw0.
    unfold _get_ai_judge_response_raced, _get_ai_judge_response.
    destruct (get_using_provider env) as [p|].
    - cbn [meanwhile foldl llm_conversation_context with_context].
      destruct (text_chat p _ _ _) as [completion|e].
      + cbn [game_states set_game_state]. rewrite dict_has_insert.
        fold (set_game_state (_get_session_key event)
                (with_context (llm_conversation_context g1 ++ [(User, question)]) g1) w0).
        rewrite set_game_state_twice. reflexivity.
      + reflexivity.
    - now rewrite (set_game_state_same _ _ _ Hw0). }
  assert (Hw1 : game_states w1 !! _get_session_key event = Some g1)
    by (unfold w1; cbn; apply lookup_insert_eq).
  destruct (is_a_guess question).
  - destruct (negb (dict_has _ _)); [reflexivity|].
    destruct (_is_answer_correct _ _ _ _ _); [reflexivity|].
    cbv iota beta. destruct (_ <? _)%Z; [reflexivity|].
    apply Hjudge. cbn [game_states send]. exact Hw1.
  - cbv iota beta. destruct (_ <? _)%Z; [reflexivity|].
    apply Hjudge. exact Hw1.
Qed.

End RacedFacts.

Section RacedTheorems.
Context `{Builtins}.








End RacedTheorems.

(** ** Instances: questions handled while sessions are ended *)




